(** * wizlight: a shallow embedding of the pilot codec, the retry client,
      the push manager and the device-type detector

    The Python sources embedded here are
    - [src/wizlight/effects.py]   (scene registry),
    - [src/wizlight/pilot.py]     (PilotBuilder, PilotParser),
    - [src/wizlight/protocol.py]  (UDPClient.send),
    - [src/wizlight/push.py]      (PushManager),
    - [src/wizlight/models.py], [src/wizlight/devices.py] and
      [src/wizlight/bulb.py]      (BulbType, detect_bulb_type, get_bulbtype).

    Python dictionaries are stdpp [gmap]s, exceptions are an explicit
    [result] type, and dynamically typed arguments are elements of [value]. *)

From Stdlib Require Import ZArith QArith.QArith_base.
From stdpp Require Import gmap strings list fin_maps.
From Stdlib Require Import Ascii.

Set Warnings "-register-all".
Set Default Proof Using "Type".

Local Open Scope string_scope.
Local Open Scope list_scope.
Local Open Scope Z_scope.

(** ** Python values *)

(** The run-time values that reach the modelled code.  [bool] is a subclass
    of [int] in Python, so [VBool] passes [isinstance(_, int)].  A float is
    represented by the rational it denotes (no NaN, no infinities). *)
Inductive value : Type :=
  | VNone
  | VBool (b : bool)
  | VInt (z : Z)
  | VFloat (q : Q)
  | VStr (s : string)
  | VTuple (l : list value)
  | VDict (m : gmap string value).

(** The exceptions the modelled code can raise.  The three library
    exceptions are listed in [exceptions.py]; the others are Python's own. *)
Inductive exn : Type :=
  | WizLightInvalidParameter
  | WizLightCommandError
  | WizLightConnectionError
  | WizLightTimeOutError (cause : option exn)
  | TimeoutError
  | TypeError
  | AttributeError
  | KeyError
  | IndexError
  | ValueError
  | OverflowError.

Inductive result (A : Type) : Type :=
  | Ok (a : A)
  | Raise (e : exn).
Arguments Ok {A} a.
Arguments Raise {A} e.

(** [result] is an error monad; stdpp's [x ← m; k] notation is used for
    sequencing statements that may raise. *)
#[global] Instance result_ret : MRet result := λ A a, Ok a.
#[global] Instance result_bind : MBind result := λ A B k m,
  match m with
  | Ok a => k a
  | Raise e => Raise e
  end.

(** [isinstance(v, int)] *)
Definition isinstance_int (v : value) : bool :=
  match v with
  | VInt _ | VBool _ => true
  | _ => false
  end.

(** The integer an [int] instance compares as ([True] is 1, [False] is 0). *)
Definition int_of (v : value) : Z :=
  match v with
  | VInt z => z
  | VBool b => Z.b2z b
  | _ => 0
  end.

(** [bool(v)]: Python truthiness. *)
Definition truthy (v : value) : bool :=
  match v with
  | VNone => false
  | VBool b => b
  | VInt z => negb (z =? 0)
  | VFloat q => negb (Qnum q =? 0)
  | VStr s => negb (String.eqb s "")
  | VTuple l => negb (bool_decide (length l = 0%nat))
  | VDict m => negb (bool_decide (size m = 0%nat))
  end.

(** [a or b] *)
Definition py_or (a b : value) : value := if truthy a then a else b.

Definition is_None (v : value) : bool :=
  match v with
  | VNone => true
  | _ => false
  end.

(** Two-argument [max(a, b)] and [min(a, b)] on [int] instances: Python
    returns one of the argument objects, the first one on a tie. *)
Definition py_max (a b : value) : value :=
  if int_of a <? int_of b then b else a.
Definition py_min (a b : value) : value :=
  if int_of b <? int_of a then b else a.

(** [len(v)] *)
Definition py_len (v : value) : result nat :=
  match v with
  | VStr s => Ok (String.length s)
  | VTuple l => Ok (length l)
  | VDict m => Ok (size m)
  | _ => Raise TypeError
  end.

(** [v[i]] for a non-negative literal index [i]. *)
Definition py_getitem (v : value) (i : nat) : result value :=
  match v with
  | VStr s =>
      match String.get i s with
      | Some c => Ok (VStr (String c EmptyString))
      | None => Raise IndexError
      end
  | VTuple l =>
      match l !! i with
      | Some x => Ok x
      | None => Raise IndexError
      end
  | VDict _ => Raise KeyError
  | _ => Raise TypeError
  end.

(** ** Strings *)

(** Strings are modelled by their ASCII characters.  [str.lower] and
    [str.upper] are the ASCII case maps, which is what Python computes on
    an ASCII string; the Unicode case mapping that Python applies to other
    characters is not modelled (other bytes are kept).
    [str.replace(old, new)] is for a one-character [old]. *)
Definition lower_ascii (c : Ascii.ascii) : Ascii.ascii :=
  let n := Ascii.N_of_ascii c in
  if ((65 <=? n) && (n <=? 90))%N then Ascii.ascii_of_N (n + 32) else c.
Definition upper_ascii (c : Ascii.ascii) : Ascii.ascii :=
  let n := Ascii.N_of_ascii c in
  if ((97 <=? n) && (n <=? 122))%N then Ascii.ascii_of_N (n - 32) else c.

Fixpoint lower (s : string) : string :=
  match s with
  | EmptyString => EmptyString
  | String c s' => String (lower_ascii c) (lower s')
  end.
Fixpoint upper (s : string) : string :=
  match s with
  | EmptyString => EmptyString
  | String c s' => String (upper_ascii c) (upper s')
  end.
Fixpoint replace (old : Ascii.ascii) (new : string) (s : string) : string :=
  match s with
  | EmptyString => EmptyString
  | String c s' =>
      if Ascii.eqb c old then new +:+ replace old new s'
      else String c (replace old new s')
  end.

(** [pat in s] for strings: [pat] occurs as a contiguous substring. *)
Fixpoint str_in (pat s : string) : bool :=
  String.prefix pat s ||
  match s with
  | EmptyString => false
  | String _ s' => str_in pat s'
  end.

(** ** effects.py: the scene registry *)

Definition SCENES_items : list (Z * string) :=
  [ (1, "Ocean"); (2, "Romance"); (3, "Sunset"); (4, "Party");
    (5, "Fireplace"); (6, "Cozy"); (7, "Forest"); (8, "Pastel colors");
    (9, "Wake-up"); (10, "Bedtime"); (11, "Warm white"); (12, "Daylight");
    (13, "Cool white"); (14, "Night light"); (15, "Focus"); (16, "Relax");
    (17, "True colors"); (18, "TV time"); (19, "Plantgrowth");
    (20, "Spring"); (21, "Summer"); (22, "Fall"); (23, "Deep dive");
    (24, "Jungle"); (25, "Mojito"); (26, "Club"); (27, "Christmas");
    (28, "Halloween"); (29, "Candlelight"); (30, "Golden white");
    (31, "Pulse"); (32, "Steampunk"); (33, "Diwali"); (34, "White");
    (35, "Alarm"); (36, "Snowy sky"); (1000, "Rhythm") ].

Definition SCENES : gmap Z string := list_to_map SCENES_items.

(** [{name.lower(): id_ for id_, name in SCENES.items()}]: a later item
    overwrites an earlier one with the same key. *)
Definition _NAME_TO_ID : gmap string Z :=
  foldl (λ m '(id_, name), <[lower name := id_]> m) ∅ SCENES_items.

Definition get_id_from_scene_name (name : string) : option Z :=
  _NAME_TO_ID !! lower name.

Definition get_scene_name (scene_id : Z) : option string :=
  SCENES !! scene_id.

(** ** pilot.py: PilotBuilder *)

Module PilotBuilder.

(** The keyword arguments of [PilotBuilder.__init__].  [state] is the only
    one that is not optional; an omitted argument is [VNone]. *)
Record kwargs : Type := Kwargs {
  state : bool;
  brightness : value;
  r : value;
  g : value;
  b : value;
  rgbw : value;
  rgbww : value;
  colortemp : value;
  scene : value;
  speed : value;
  ratio : value;
  warm_white : value;
  cold_white : value
}.

(** The call [PilotBuilder()]: every argument at its default. *)
Definition default : kwargs :=
  Kwargs true VNone VNone VNone VNone VNone VNone VNone VNone VNone VNone
         VNone VNone.

Definition _clamp (v : value) (min_val max_val : Z) : result value :=
  if isinstance_int v
  then Ok (py_max (VInt min_val) (py_min (VInt max_val) v))
  else Raise WizLightInvalidParameter.

Definition _resolve_scene (scene : value) : result value :=
  if isinstance_int scene then
    if bool_decide (is_Some (SCENES !! int_of scene))
    then Ok scene
    else Raise WizLightInvalidParameter
  else
    match scene with
    | VStr name =>
        match get_id_from_scene_name name with
        | Some scene_id => Ok (VInt scene_id)
        | None => Raise WizLightInvalidParameter
        end
    | _ => Raise AttributeError   (* [name.lower()] on a non-string *)
    end.

(** [self._params[key] = self._clamp(v[i], 0, 255, _)] *)
Definition set_channel (key : string) (v : value) (i : nat)
    (_params : gmap string value) : result (gmap string value) :=
  x ← py_getitem v i;
  x' ← _clamp x 0 255;
  mret (<[key := x']> _params).

Definition _set_rgbw (_params : gmap string value) (rgbw : value)
    : result (gmap string value) :=
  n ← py_len rgbw;
  if (n <? 3)%nat then Raise WizLightInvalidParameter else
  _params ← set_channel "r" rgbw 0 _params;
  _params ← set_channel "g" rgbw 1 _params;
  _params ← set_channel "b" rgbw 2 _params;
  if (3 <? n)%nat then set_channel "w" rgbw 3 _params else mret _params.

Definition _set_rgbww (_params : gmap string value) (rgbww : value)
    : result (gmap string value) :=
  n ← py_len rgbww;
  if (n <? 3)%nat then Raise WizLightInvalidParameter else
  _params ← set_channel "r" rgbww 0 _params;
  _params ← set_channel "g" rgbww 1 _params;
  _params ← set_channel "b" rgbww 2 _params;
  _params ← (if (3 <? n)%nat then set_channel "w" rgbww 3 _params
             else mret _params);
  if (4 <? n)%nat then set_channel "c" rgbww 4 _params else mret _params.

(** [if v is not None: self._params[key] = self._clamp(v, lo, hi, _)] *)
Definition set_optional (key : string) (v : value) (lo hi : Z)
    (_params : gmap string value) : result (gmap string value) :=
  if is_None v then mret _params
  else x ← _clamp v lo hi; mret (<[key := x]> _params).

(** The [if / elif] chain of lines 58-77 that selects the mode. *)
Definition set_mode (a : kwargs) (_params : gmap string value)
    : result (gmap string value) :=
  if negb (is_None (scene a)) then
    scene_id ← _resolve_scene (scene a);
    mret (<["sceneId" := scene_id]> _params)
  else if negb (is_None (rgbww a)) then
    _set_rgbww _params (rgbww a)
  else if negb (is_None (rgbw a)) then
    _set_rgbw _params (rgbw a)
  else if negb (is_None (r a)) || negb (is_None (g a))
          || negb (is_None (b a)) then
    x ← _clamp (py_or (r a) (VInt 0)) 0 255;
    let _params := <["r" := x]> _params in
    x ← _clamp (py_or (g a) (VInt 0)) 0 255;
    let _params := <["g" := x]> _params in
    x ← _clamp (py_or (b a) (VInt 0)) 0 255;
    let _params := <["b" := x]> _params in
    _params ← set_optional "w" (warm_white a) 0 255 _params;
    set_optional "c" (cold_white a) 0 255 _params
  else if negb (is_None (colortemp a)) then
    x ← _clamp (colortemp a) 1000 10000;
    mret (<["temp" := x]> _params)
  else mret _params.

(** The constructor call with the keyword arguments [a]: the value of
    [self._params] when the constructor returns, or the exception it
    raises. *)
Definition __init__ (a : kwargs) : result (gmap string value) :=
  let _params : gmap string value := {["state" := VBool (state a)]} in
  if negb (state a) then Ok _params else
  _params ← set_mode a _params;
  _params ← set_optional "dimming" (brightness a) 10 255 _params;
  _params ← set_optional "speed" (speed a) 1 200 _params;
  set_optional "ratio" (ratio a) 0 100 _params.

(** [to_dict()] on the object built from the keyword arguments [a] *)
Definition to_dict (a : kwargs) : result (gmap string value) := __init__ a.

End PilotBuilder.

(** ** pilot.py: PilotParser *)

(** [d.get(key)] and [d.get(key, default)] *)
Definition dict_get (d : gmap string value) (key : string)
    (default : value) : value :=
  match d !! key with
  | Some v => v
  | None => default
  end.

(** [float(z)] for an [int]: the nearest double, ties to even.  Up to 53
    significant bits the value is exact; beyond, [e] low bits are rounded
    away; a result of [2^1024] or more is [OverflowError]. *)
Definition float_of_int (z : Z) : result Q :=
  let n := Z.abs z in
  let e := Z.log2 n - 52 in
  if e <=? 0 then Ok (inject_Z z)
  else
    let q := Z.shiftr n e in
    let rest := Z.land n (Z.ones e) in
    let half := Z.shiftl 1 (e - 1) in
    let q := if (half <? rest) || ((half =? rest) && Z.odd q) then q + 1
             else q in
    let n := Z.shiftl q e in
    if 2 ^ 1024 <=? n then Raise OverflowError
    else Ok (inject_Z (Z.sgn z * n)).

Section PilotParser.

(** [float(s)] for a string [s] is Python's own parser; it is taken as a
    parameter ([None] when Python raises [ValueError]). *)
Variable float_of_str : string → option Q.

(** [float(v)] *)
Definition py_float (v : value) : result Q :=
  match v with
  | VBool b => Ok (inject_Z (Z.b2z b))
  | VInt z => float_of_int z
  | VFloat q => Ok q
  | VStr s =>
      match float_of_str s with
      | Some q => Ok q
      | None => Raise ValueError
      end
  | _ => Raise TypeError
  end.

(** [PilotParser(_result).get_power()]; [Ok None] is Python's [None]. *)
Definition get_power (_result : gmap string value) : result (option Q) :=
  let power :=
    py_or (dict_get _result "pc" VNone) (dict_get _result "w" VNone) in
  if negb (is_None power) then q ← py_float power; mret (Some q)
  else mret None.

(** [PilotParser(_result).get_state()] *)
Definition get_state (_result : gmap string value) : bool :=
  truthy (dict_get _result "state" (VBool false)).

End PilotParser.

(** ** protocol.py: UDPClient.send *)

Module UDPClient.

Definition _RETRY_DELAYS : list Q := [0; 1 # 2; 3 # 2; 3; 6]%Q.
Definition _TOTAL_TIMEOUT : Q := 11%Q.

(** [self._retry_delays = retry_delays or list(_RETRY_DELAYS)]: [None]
    and the empty list are falsy. *)
Definition __init__ (retry_delays : option (list Q)) : list Q :=
  match retry_delays with
  | Some (d :: l) => d :: l
  | _ => _RETRY_DELAYS
  end.

(** What one call of [_send_once] does: it returns the decoded response
    mapping or raises. *)
Inductive outcome : Type :=
  | Response (response : gmap string value)
  | Failed (e : exn).

(** [except (TimeoutError, WizLightConnectionError)] *)
Definition retryable (e : exn) : bool :=
  match e with
  | TimeoutError | WizLightConnectionError => true
  | _ => false
  end.

(** The observable steps of [send]. *)
Inductive event : Type :=
  | Sleep (delay : Q)
  | SendOnce (timeout : Q).

Definition is_SendOnce (ev : event) : bool :=
  match ev with
  | SendOnce _ => true
  | Sleep _ => false
  end.

(** The number of [_send_once] calls in a trace. *)
Definition attempts (log : list event) : nat :=
  length (filter (λ ev, is_SendOnce ev = true) log).

(** [min(timeout, 3.0)] *)
Definition attempt_timeout (timeout : Q) : Q :=
  if Qle_bool timeout 3 then timeout else 3%Q.

Section send.

(** The network: the outcome of the [n]-th call of [_send_once] made by
    this [send] (counted from 0). *)
Variable net : nat → outcome.
Variable timeout : Q.

(** The [for delay in self._retry_delays] loop of lines 132-153.  [n]
    counts the attempts made so far, [log] is the trace so far. *)
Fixpoint send_loop (delays : list Q) (last_exc : option exn) (n : nat)
    (log : list event) : result (gmap string value) * list event :=
  match delays with
  | [] => (Raise (WizLightTimeOutError last_exc), log)
  | delay :: delays =>
      let log := if (0 <? Qnum delay)%Z then log ++ [Sleep delay]
                 else log in
      let log := log ++ [SendOnce (attempt_timeout timeout)] in
      match net n with
      | Failed exc =>
          if retryable exc
          then send_loop delays (Some exc) (S n) log
          else (Raise exc, log)
      | Response response =>
          if bool_decide (is_Some (response !! "error"))
          then (Raise WizLightCommandError, log)
          else (Ok response, log)
      end
  end.

Definition send (_retry_delays : list Q)
    : result (gmap string value) * list event :=
  send_loop _retry_delays None 0 [].

End send.

End UDPClient.

(** ** push.py: PushManager *)

Module PushManager.

(** Callbacks are compared by identity ([list.remove] uses [==], which on
    functions is identity); a callback is modelled by its identity. *)
Definition callback : Type := nat.

(** [mac.lower().replace(":", "").replace("-", "")] *)
Definition normalize (mac : string) : string :=
  replace "-"%char "" (replace ":"%char "" (lower mac)).

(** [l.remove(x)] under [contextlib.suppress(ValueError)]: the first
    occurrence is removed, an absent [x] leaves the list as it is. *)
Fixpoint remove (x : callback) (l : list callback) : list callback :=
  match l with
  | [] => []
  | y :: l' => if bool_decide (y = x) then l' else y :: remove x l'
  end.

(** [subscribe(mac, callback)]: the new value of [self._subscribers].  The
    disposer it returns is [unsubscribe (normalize mac) callback]. *)
Definition subscribe (mac : string) (cb : callback)
    (_subscribers : gmap string (list callback))
    : gmap string (list callback) :=
  let mac_lower := normalize mac in
  let _subscribers :=
    if bool_decide (is_Some (_subscribers !! mac_lower)) then _subscribers
    else <[mac_lower := []]> _subscribers in
  match _subscribers !! mac_lower with
  | Some l => <[mac_lower := l ++ [cb]]> _subscribers
  | None => _subscribers
  end.

(** The closure [unsubscribe] of lines 109-116, with its captured
    variables [mac_lower] and [callback] as arguments. *)
Definition unsubscribe (mac_lower : string) (cb : callback)
    (_subscribers : gmap string (list callback))
    : gmap string (list callback) :=
  match _subscribers !! mac_lower with
  | Some l =>
      let l := remove cb l in
      let _subscribers := <[mac_lower := l]> _subscribers in
      if bool_decide (l = []) then delete mac_lower _subscribers
      else _subscribers
  | None => _subscribers
  end.

(** A callback invocation: the callback and the mapping the [PilotParser]
    it receives was built over. *)
Definition call : Type := callback * gmap string value.

(** [_handle_sync_pilot(data, addr)]: the callback invocations it makes,
    in order.  An exception raised inside a callback is caught and logged
    and does not stop the loop. *)
Definition _handle_sync_pilot (_subscribers : gmap string (list callback))
    (data : gmap string value) : result (list call) :=
  match dict_get data "params" (VDict ∅) with
  | VDict params =>
      match dict_get params "mac" (VStr "") with
      | VStr mac =>
          let mac := lower mac in
          if String.eqb mac "" then mret []
          else
            let callbacks := default [] (_subscribers !! mac) in
            mret ((λ cb, (cb, params)) <$> callbacks)
      | _ => Raise AttributeError        (* no [lower] *)
      end
  | _ => Raise AttributeError            (* no [get] *)
  end.

(** [_on_message(data, addr)], for the callbacks subscribed by MAC ([firstBeat]
    concerns the discovery callbacks only). *)
Definition _on_message (_subscribers : gmap string (list callback))
    (data : gmap string value) : result (list call) :=
  match dict_get data "method" (VStr "") with
  | VStr "syncPilot" => _handle_sync_pilot _subscribers data
  | _ => mret []
  end.

End PushManager.

(** ** models.py: device records *)

Module models.

Inductive BulbClass : Type := RGB | TW | DW | SOCKET | FANDIM.

Record Features : Type := mkFeatures {
  color : bool;
  brightness : bool;
  color_temp : bool;
  effect : bool;
  dual_head : bool;
  fan : bool;
  fan_reverse : bool;
  fan_breeze_mode : bool
}.

(** [KelvinRange(min, max)]: a dataclass stores what it is given. *)
Record KelvinRange : Type := mkKelvinRange {
  min : value;
  max : value
}.

Record BulbType : Type := mkBulbType {
  bulb_type : BulbClass;
  name : string;
  features : Features;
  kelvin_range : option KelvinRange;
  fw_version : value;
  white_channels : Z;
  white_to_color_ratio : Z;
  fan_speed_range : option Z
}.

(** [BulbType(bulb_type=, name=, features=, kelvin_range=)]: the other
    fields take the defaults of the dataclass (lines 71-74). *)
Definition BulbType_init (bulb_type : BulbClass) (name : string)
    (features : Features) (kelvin_range : option KelvinRange) : BulbType :=
  mkBulbType bulb_type name features kelvin_range (VStr "") 1 20 None.

(** [Features(color=, brightness=, color_temp=, effect=)] and the call
    that also sets the three fan flags; [dual_head] keeps its default. *)
Definition Features_init (color brightness color_temp effect : bool)
    : Features :=
  mkFeatures color brightness color_temp effect false false false false.
Definition Features_fan (color brightness color_temp effect : bool)
    (fan fan_reverse fan_breeze_mode : bool) : Features :=
  mkFeatures color brightness color_temp effect false
             fan fan_reverse fan_breeze_mode.

Definition set_kelvin_range (k : option KelvinRange) (bt : BulbType)
    : BulbType :=
  mkBulbType (bulb_type bt) (name bt) (features bt) k (fw_version bt)
             (white_channels bt) (white_to_color_ratio bt)
             (fan_speed_range bt).
Definition set_fw_version (v : value) (bt : BulbType) : BulbType :=
  mkBulbType (bulb_type bt) (name bt) (features bt) (kelvin_range bt) v
             (white_channels bt) (white_to_color_ratio bt)
             (fan_speed_range bt).
Definition set_white_channels (n : Z) (bt : BulbType) : BulbType :=
  mkBulbType (bulb_type bt) (name bt) (features bt) (kelvin_range bt)
             (fw_version bt) n (white_to_color_ratio bt)
             (fan_speed_range bt).

End models.

(** ** devices.py: detect_bulb_type *)

Module devices.
Import models.

Definition K (lo hi : Z) : option KelvinRange :=
  Some (mkKelvinRange (VInt lo) (VInt hi)).

Definition _MODULE_PATTERNS
    : list (string * BulbClass * Features * option KelvinRange) :=
  [ ("FANDIM", FANDIM, Features_fan false true false true true true true,
     None);
    ("SOCKET", SOCKET, Features_init false false false false, None);
    ("RGBWW", RGB, Features_init true true true true, K 2200 6500);
    ("RGBW", RGB, Features_init true true true true, K 2200 6500);
    ("RGB", RGB, Features_init true true false true, None);
    ("TW", TW, Features_init false true true true, K 2700 6500);
    ("DW", DW, Features_init false true false true, None);
    ("SHTW", TW, Features_init false true true true, K 2700 6500);
    ("DHTW", TW, Features_init false true true true, K 2700 6500);
    ("SHRGB", RGB, Features_init true true true true, K 2200 6500);
    ("DHRGB", RGB, Features_init true true true true, K 2200 6500) ].

Definition _KNOWN_MODULES_items
    : list (string * (BulbClass * option KelvinRange)) :=
  [ ("ESP01_SHRGB1C_31", (RGB, K 2200 6500));
    ("ESP01_SHRGB3_01ABI", (RGB, K 2200 6500));
    ("ESP01_SHDW1_31", (DW, None));
    ("ESP01_SHTW1C_31", (TW, K 2700 6500));
    ("ESP03_SHRGB1C_01", (RGB, K 2200 6500));
    ("ESP03_SHRGB1W_01ABI", (RGB, K 2200 6500));
    ("ESP03_SHRGBP_31ABI", (RGB, K 2200 6500));
    ("ESP06_SHDW1_01", (DW, None));
    ("ESP06_SHDW9_01", (DW, None));
    ("ESP06_SHTW1_01", (TW, K 2700 6500));
    ("ESP06_SHTW9_01", (TW, K 2700 6500));
    ("ESP14_SHRGB1C_01ABI", (RGB, K 2200 6500));
    ("ESP15_SHRGB1C_01ABI", (RGB, K 2200 6500));
    ("ESP17_SHRGB9W_01ABI", (RGB, K 2200 6500));
    ("ESP20_SHRGB9W_01ABI", (RGB, K 2200 6500));
    ("ESP21_SHTW9_01", (TW, K 2700 6500));
    ("ESP56_SHTW11_01", (TW, K 2700 6500)) ].

Definition _KNOWN_MODULES : gmap string (BulbClass * option KelvinRange) :=
  list_to_map _KNOWN_MODULES_items.

Definition _features_for_class (bulb_class : BulbClass) : Features :=
  match bulb_class with
  | RGB => Features_init true true true true
  | TW => Features_init false true true true
  | DW => Features_init false true false true
  | SOCKET => Features_init false false false false
  | FANDIM => Features_fan false true false true true true true
  end.

(** [if white_range and "min" in white_range and "max" in white_range:
    kelvin = KelvinRange(white_range["min"], white_range["max"])].
    [white_range] is [None] or a dict, as the signature declares. *)
Definition override_kelvin (white_range : option (gmap string value))
    (kelvin : option KelvinRange) : option KelvinRange :=
  match white_range with
  | Some d =>
      if negb (bool_decide (size d = 0%nat)) then
        match d !! "min", d !! "max" with
        | Some lo, Some hi => Some (mkKelvinRange lo hi)
        | _, _ => kelvin
        end
      else kelvin
  | None => kelvin
  end.

(** The [for pattern, bulb_class, features, kelvin in _MODULE_PATTERNS]
    loop with its fall-through to the default descriptor. *)
Fixpoint match_patterns
    (patterns : list (string * BulbClass * Features * option KelvinRange))
    (module_name name_upper : string)
    (white_range : option (gmap string value)) : BulbType :=
  match patterns with
  | [] =>
      BulbType_init RGB module_name (Features_init true true true true)
                    (K 2200 6500)
  | (pattern, bulb_class, features, kelvin) :: patterns =>
      if str_in pattern name_upper then
        let kelvin := override_kelvin white_range kelvin in
        BulbType_init bulb_class module_name
          (Features_fan (color features) (brightness features)
             (color_temp features) (effect features) (fan features)
             (fan_reverse features) (fan_breeze_mode features))
          kelvin
      else match_patterns patterns module_name name_upper white_range
  end.

Definition detect_bulb_type (module_name : string)
    (white_range : option (gmap string value)) : BulbType :=
  let name_upper := upper module_name in
  match _KNOWN_MODULES !! module_name with
  | Some (bulb_class, kelvin) =>
      let kelvin := override_kelvin white_range kelvin in
      let features := _features_for_class bulb_class in
      BulbType_init bulb_class module_name features kelvin
  | None =>
      match_patterns _MODULE_PATTERNS module_name name_upper white_range
  end.

End devices.

(** ** bulb.py: wizlight.get_bulbtype *)

Module bulb.
Import models.

(** Lines 128-136 of [get_bulbtype], after [module_name], [white_range]
    and [fwVersion] have been read from the system configuration: the
    descriptor stored in [self._bulbtype]. *)
Definition get_bulbtype (module_name : string)
    (white_range : option (gmap string value)) (fwVersion : value)
    : BulbType :=
  let _bulbtype := devices.detect_bulb_type module_name white_range in
  let _bulbtype := set_fw_version fwVersion _bulbtype in
  let name_upper := upper module_name in
  if str_in "RGBWW" name_upper then set_white_channels 2 _bulbtype
  else if str_in "RGBW" name_upper then set_white_channels 1 _bulbtype
  else _bulbtype.

End bulb.

(** ** Statement-side definitions for the pilot builder *)

Module PilotSpec.
Import PilotBuilder.

(** The mode a call selects, by the priority
    scene > rgbww > rgbw > bare r/g/b > colortemp. *)
Inductive mode : Type :=
  | ModeScene | ModeRGBWW | ModeRGBW | ModeRGB | ModeTemp | ModeNone.

Definition given (v : value) : bool := negb (is_None v).

Definition selected_mode (a : kwargs) : mode :=
  if given (scene a) then ModeScene
  else if given (rgbww a) then ModeRGBWW
  else if given (rgbw a) then ModeRGBW
  else if given (r a) || given (g a) || given (b a) then ModeRGB
  else if given (colortemp a) then ModeTemp
  else ModeNone.

Definition MODE_KEYS : list string :=
  ["sceneId"; "r"; "g"; "b"; "w"; "c"; "temp"].

(** The mode keys present in a params mapping, in the order of
    [MODE_KEYS]. *)
Definition mode_keys (p : gmap string value) : list string :=
  filter (λ k, is_Some (p !! k)) MODE_KEYS.

Definition tuple_len (v : value) : nat :=
  match py_len v with
  | Ok n => n
  | Raise _ => 0
  end.

Definition when (c : bool) (k : string) : list string :=
  if c then [k] else [].

(** The keys the selected mode contributes, as the claim lists them. *)
Definition keys_of_mode (a : kwargs) : list string :=
  match selected_mode a with
  | ModeScene => ["sceneId"]
  | ModeRGBWW =>
      ["r"; "g"; "b"] ++ when (3 <? tuple_len (rgbww a))%nat "w"
                      ++ when (4 <? tuple_len (rgbww a))%nat "c"
  | ModeRGBW => ["r"; "g"; "b"] ++ when (3 <? tuple_len (rgbw a))%nat "w"
  | ModeRGB =>
      ["r"; "g"; "b"] ++ when (given (warm_white a)) "w"
                      ++ when (given (cold_white a)) "c"
  | ModeTemp => ["temp"]
  | ModeNone => []
  end.

(** The seven key sets of "exactly one mode". *)
Definition ONE_MODE : list (list string) :=
  [ ["sceneId"]; ["r"; "g"; "b"]; ["r"; "g"; "b"; "w"];
    ["r"; "g"; "b"; "c"]; ["r"; "g"; "b"; "w"; "c"]; ["temp"]; [] ].

(** [max(lo, min(hi, z))] on integers. *)
Definition clamp (lo hi z : Z) : Z := Z.max lo (Z.min hi z).

(** *** When the constructor raises *)

Definition not_int (v : value) : bool := negb (isinstance_int v).

(** The scene argument is an integer that is not in the registry, or a
    string whose case-insensitive lookup fails. *)
Definition scene_unknown (v : value) : bool :=
  match v with
  | VInt _ | VBool _ => bool_decide (SCENES !! int_of v = None)
  | VStr name => bool_decide (get_id_from_scene_name name = None)
  | _ => false
  end.

(** The selected rgbw / rgbww tuple has fewer than three elements. *)
Definition tuple_too_short (a : kwargs) : bool :=
  match selected_mode a with
  | ModeRGBWW => (tuple_len (rgbww a) <? 3)%nat
  | ModeRGBW => (tuple_len (rgbw a) <? 3)%nat
  | _ => false
  end.

Definition elements (v : value) : list value :=
  match v with
  | VTuple l => l
  | _ => []
  end.

(** An optional argument counts when it is given. *)
Definition optional (v : value) : list value :=
  if given v then [v] else [].

(** The numeric parameters the selected mode uses.  [defaulted] is what
    the bare r/g/b mode takes for a component: the claim reads it as the
    argument itself when given; the code takes [x or 0]. *)
Definition mode_numeric (defaulted : value → list value) (a : kwargs)
    : list value :=
  match selected_mode a with
  | ModeScene | ModeNone => []
  | ModeRGBWW => take 5 (elements (rgbww a))
  | ModeRGBW => take 4 (elements (rgbw a))
  | ModeRGB =>
      defaulted (r a) ++ defaulted (g a) ++ defaulted (b a)
      ++ optional (warm_white a) ++ optional (cold_white a)
  | ModeTemp => [colortemp a]
  end.

Definition used_numeric (defaulted : value → list value) (a : kwargs)
    : list value :=
  mode_numeric defaulted a
  ++ optional (brightness a) ++ optional (speed a) ++ optional (ratio a).

Definition or_zero (v : value) : list value := [py_or v (VInt 0)].

(** The condition of the claim, with the two readings of a bare r/g/b
    component. *)
Definition invalid_with (defaulted : value → list value) (a : kwargs)
    : bool :=
  scene_unknown (scene a) || tuple_too_short a
  || existsb not_int (used_numeric defaulted a).

(** The part of the condition that concerns the selected mode. *)
Definition mode_invalid (a : kwargs) : bool :=
  scene_unknown (scene a) || tuple_too_short a
  || existsb not_int (mode_numeric or_zero a).

Definition invalid_stated : kwargs → bool := invalid_with optional.
Definition invalid : kwargs → bool := invalid_with or_zero.

(** "raises invalid-parameter if and only if [inv]; in every other case
    construction succeeds" *)
Definition raises_invalid_iff (inv : kwargs → bool) (a : kwargs) : Prop :=
  (to_dict a = Raise WizLightInvalidParameter ↔ inv a = true) ∧
  (inv a = false → ∃ p, to_dict a = Ok p).

(** The arguments have the container types of the signature: [scene] is
    [None], an [int] or a [str]; [rgbw] and [rgbww] are [None] or a
    tuple. *)
Definition is_str (v : value) : bool :=
  match v with
  | VStr _ => true
  | _ => false
  end.
Definition is_tuple (v : value) : bool :=
  match v with
  | VTuple _ => true
  | _ => false
  end.
Definition shaped (a : kwargs) : bool :=
  (is_None (scene a) || isinstance_int (scene a) || is_str (scene a))
  && (is_None (rgbw a) || is_tuple (rgbw a))
  && (is_None (rgbww a) || is_tuple (rgbww a)).

End PilotSpec.

(** ** Scenarios of the specification, as concrete inputs *)

Module Scenario.
Import PilotBuilder.

(** [build(scene="Fireplace", r=10, g=20, b=30, colortemp=3000)] *)
Definition S3 : kwargs :=
  Kwargs true VNone (VInt 10) (VInt 20) (VInt 30) VNone VNone (VInt 3000)
         (VStr "Fireplace") VNone VNone VNone VNone.
Definition S3_params : gmap string value :=
  <["state" := VBool true]> (<["sceneId" := VInt 5]> ∅).

(** [build(state=false, brightness=200, scene="NoSuchScene")] *)
Definition S2 : kwargs :=
  Kwargs false (VInt 200) VNone VNone VNone VNone VNone VNone
         (VStr "NoSuchScene") VNone VNone VNone VNone.

(** [build(brightness=5, speed=9999, ratio=-10)] *)
Definition S4 : kwargs :=
  Kwargs true (VInt 5) VNone VNone VNone VNone VNone VNone VNone
         (VInt 9999) (VInt (-10)) VNone VNone.
Definition S4_params : gmap string value :=
  <["state" := VBool true]>
    (<["dimming" := VInt 10]>
       (<["speed" := VInt 200]> (<["ratio" := VInt 0]> ∅))).

(** [build(r=0.0)] *)
Definition falsy_float : kwargs :=
  Kwargs true VNone (VFloat 0) VNone VNone VNone VNone VNone VNone VNone
         VNone VNone VNone.
Definition falsy_float_params : gmap string value :=
  <["state" := VBool true]>
    (<["r" := VInt 0]> (<["g" := VInt 0]> (<["b" := VInt 0]> ∅))).

(** [build(r=v)], and the falsy float given for another numeric
    parameter: [build(r=0.5)], [build(r=1, warm_white=0.0)],
    [build(brightness=0.0)], [build(rgbw=(0.0, 0, 0))]. *)
Definition bare_r (v : value) : kwargs :=
  Kwargs true VNone v VNone VNone VNone VNone VNone VNone VNone VNone VNone
         VNone.
Definition truthy_float : kwargs := bare_r (VFloat (1 # 2)).
Definition falsy_warm_white : kwargs :=
  Kwargs true VNone (VInt 1) VNone VNone VNone VNone VNone VNone VNone
         VNone (VFloat 0) VNone.
Definition falsy_brightness : kwargs :=
  Kwargs true (VFloat 0) VNone VNone VNone VNone VNone VNone VNone VNone
         VNone VNone VNone.
Definition falsy_rgbw : kwargs :=
  Kwargs true VNone VNone VNone VNone
         (VTuple [VFloat 0; VInt 0; VInt 0]) VNone VNone VNone VNone VNone
         VNone VNone.

End Scenario.

(** ** Statement-side definitions for the push manager *)

Module PushSpec.
Import PushManager.

(** A sequence of [subscribe(mac, callback)] calls on a fresh manager. *)
Definition subscribe_all (calls : list (string * callback))
    (_subscribers : gmap string (list callback))
    : gmap string (list callback) :=
  foldl (λ s c, subscribe c.1 c.2 s) _subscribers calls.

(** The disposer returned by the call [subscribe(c.1, c.2)]. *)
Definition disposer (c : string * callback)
    : gmap string (list callback) → gmap string (list callback) :=
  unsubscribe (normalize c.1) c.2.

(** The callbacks the calls registered under the normalized MAC [k], in
    call order. *)
Definition registered (k : string) (calls : list (string * callback))
    : list callback :=
  snd <$> filter (λ c, normalize c.1 = k) calls.

Definition occurrences (cb : callback) (l : list callback) : nat :=
  length (filter (λ y, y = cb) l).

(** "invoking the disposer a second time leaves the registry exactly as
    it was after the first invocation" *)
Definition second_call_is_noop (calls : list (string * callback))
    (c : string * callback) : Prop :=
  let s := subscribe_all calls ∅ in
  disposer c (disposer c s) = disposer c s.

(** The same callback subscribed twice under one MAC. *)
Definition stacked : list (string * callback) :=
  [("aabbccddeeff", 0%nat); ("aabbccddeeff", 0%nat)].

(** Scenario S7: the syncPilot datagram and its [params]. *)
Definition S7_params (mac : string) : gmap string value :=
  <["mac" := VStr mac]>
    (<["state" := VBool true]> (<["dimming" := VInt 100]> ∅)).
Definition S7 (mac : string) : gmap string value :=
  <["method" := VStr "syncPilot"]>
    (<["params" := VDict (S7_params mac)]> ∅).

End PushSpec.

(** ** Statement-side definitions for the retry client *)

Module RetrySpec.
Import UDPClient.

(** "the attempt ends in a timeout or connection-error" *)
Definition timed_out_or_disconnected (o : outcome) : Prop :=
  o = Failed TimeoutError ∨ o = Failed WizLightConnectionError.

(** The delays slept, in order. *)
Definition sleeps (log : list event) : list Q :=
  omap (λ ev, match ev with Sleep d => Some d | SendOnce _ => None end) log.

(** What one iteration of the loop adds to the trace: the sleep, when
    the delay is positive, and one attempt. *)
Definition iteration (timeout delay : Q) : list event :=
  (if (0 <? Qnum delay)%Z then [Sleep delay] else [])
  ++ [SendOnce (attempt_timeout timeout)].

(** A device that never answers, and one that reports an error on the
    third attempt. *)
Definition silent : nat → outcome := λ _, Failed TimeoutError.
Definition error_reply : gmap string value :=
  <["method" := VStr "setPilot"]> (<["error" := VStr "invalid"]> ∅).
Definition error_on_third : nat → outcome :=
  λ n, if (n <? 2)%nat then Failed TimeoutError else Response error_reply.

End RetrySpec.

(** ** Statement-side definitions for the detector and the parser *)

Module DetectSpec.

(** The white-channel count as the claim states it. *)
Definition white_channels_stated (module_name : string) : Z :=
  if str_in "RGBWW" (upper module_name) then 2
  else if str_in "RGBW" (upper module_name) then 1
  else 0.

(** [{"min": 2700, "max": 5000}] *)
Definition S5_white_range : gmap string value :=
  <["min" := VInt 2700]> (<["max" := VInt 5000]> ∅).

End DetectSpec.

Module PowerSpec.

(** [{"pc": 0, "w": 8.5}] and [{"pc": 0}] *)
Definition pc_zero_w : gmap string value :=
  <["pc" := VInt 0]> (<["w" := VFloat (17 # 2)]> ∅).
Definition pc_zero : gmap string value := <["pc" := VInt 0]> ∅.

(** What the claim says [get_power] returns when [pc] is present. *)
Definition get_power_stated (float_of_str : string → option Q)
    (_result : gmap string value) : result (option Q) :=
  match _result !! "pc" with
  | Some pc => q ← py_float float_of_str pc; mret (Some q)
  | None => get_power float_of_str _result
  end.

End PowerSpec.

(** * Further parts of the code *)

(** ** The ASCII strings *)

(** [s.isascii()]: on these strings the case maps of the model are
    [str.lower] and [str.upper]. *)
Fixpoint ascii_only (s : string) : bool :=
  match s with
  | EmptyString => true
  | String c s' => (Ascii.N_of_ascii c <? 128)%N && ascii_only s'
  end.

(** A [scene] argument that is not a string, or an ASCII string. *)
Definition ascii_scene (v : value) : bool :=
  match v with
  | VStr s => ascii_only s
  | _ => true
  end.

(** ** effects.py: scenes per bulb class *)

Module effects.

Definition SCENES_RGB : list Z := (Z.of_nat <$> seq 1 36) ++ [1000].

Definition SCENES_TW : list Z :=
  [6; 9; 10; 11; 12; 13; 14; 15; 16; 17; 18; 19; 30; 34; 35; 1000].

Definition SCENES_DW : list Z := [9; 10; 13; 14; 29; 30; 31; 32].

(** [{id_: SCENES[id_] for id_ in ids if id_ in SCENES}] *)
Definition scenes_of_ids (ids : list Z) : gmap Z string :=
  foldl (λ m id_,
           match SCENES !! id_ with
           | Some name => <[id_ := name]> m
           | None => m
           end) ∅ ids.

(** [get_scenes_for_bulb_type(bulb_class)]: the [match] on
    [bulb_class.upper()]. *)
Definition get_scenes_for_bulb_type (bulb_class : string) : gmap Z string :=
  let c := upper bulb_class in
  if String.eqb c "RGB" || String.eqb c "FANDIM" then scenes_of_ids SCENES_RGB
  else if String.eqb c "TW" then scenes_of_ids SCENES_TW
  else if String.eqb c "DW" then scenes_of_ids SCENES_DW
  else if String.eqb c "SOCKET" then ∅
  else scenes_of_ids SCENES_RGB.

End effects.

(** ** pilot.py: the other getters of PilotParser *)

Module PilotParser.
Section getters.

(** [int(s)] for a string [s] is Python's own parser; it is taken as a
    parameter ([None] when Python raises [ValueError]). *)
Variable int_of_str : string → option Z.

(** [int(v)]: a float is truncated towards zero. *)
Definition py_int (v : value) : result Z :=
  match v with
  | VBool b => Ok (Z.b2z b)
  | VInt z => Ok z
  | VFloat q => Ok (Z.quot (Qnum q) (Z.pos (Qden q)))
  | VStr s =>
      match int_of_str s with
      | Some z => Ok z
      | None => Raise ValueError
      end
  | _ => Raise TypeError
  end.

(** The body shared by [get_brightness], [get_colortemp], [get_speed],
    [get_ratio] and [get_rssi]:
    [x = self._result.get(key); if x is not None: return int(x);
     return None]. *)
Definition get_int (key : string) (_result : gmap string value)
    : result (option Z) :=
  let x := dict_get _result key VNone in
  if negb (is_None x) then z ← py_int x; mret (Some z) else mret None.

Definition get_brightness := get_int "dimming".
Definition get_colortemp := get_int "temp".
Definition get_speed := get_int "speed".
Definition get_ratio := get_int "ratio".
Definition get_rssi := get_int "rssi".

Definition get_rgb (_result : gmap string value)
    : result (option (Z * Z * Z)) :=
  let r := dict_get _result "r" VNone in
  let g := dict_get _result "g" VNone in
  let b := dict_get _result "b" VNone in
  if negb (is_None r) && negb (is_None g) && negb (is_None b) then
    r ← py_int r; g ← py_int g; b ← py_int b; mret (Some (r, g, b))
  else mret None.

Definition get_rgbww (_result : gmap string value)
    : result (option (Z * Z * Z * Z * Z)) :=
  let r := dict_get _result "r" VNone in
  let g := dict_get _result "g" VNone in
  let b := dict_get _result "b" VNone in
  if is_None r || is_None g || is_None b then mret None
  else
    let w := dict_get _result "w" (VInt 0) in
    let c := dict_get _result "c" (VInt 0) in
    r ← py_int r; g ← py_int g; b ← py_int b; w ← py_int w; c ← py_int c;
    mret (Some (r, g, b, w, c)).

Definition get_rgbw (_result : gmap string value)
    : result (option (Z * Z * Z * Z)) :=
  let r := dict_get _result "r" VNone in
  let g := dict_get _result "g" VNone in
  let b := dict_get _result "b" VNone in
  if is_None r || is_None g || is_None b then mret None
  else
    let w := dict_get _result "w" (VInt 0) in
    r ← py_int r; g ← py_int g; b ← py_int b; w ← py_int w;
    mret (Some (r, g, b, w)).

(** [if scene_id is not None and int(scene_id) != 0: return int(scene_id)] *)
Definition get_scene_id (_result : gmap string value) : result (option Z) :=
  let scene_id := dict_get _result "sceneId" VNone in
  if negb (is_None scene_id) then
    z ← py_int scene_id;
    if negb (z =? 0) then z ← py_int scene_id; mret (Some z) else mret None
  else mret None.

Definition get_scene_name (_result : gmap string value)
    : result (option string) :=
  scene_id ← get_scene_id _result;
  match scene_id with
  | Some scene_id => mret (SCENES !! scene_id)
  | None => mret None
  end.

(** [get_source] and [get_mac] hand the stored value through. *)
Definition get_source (_result : gmap string value) : value :=
  dict_get _result "src" VNone.
Definition get_mac (_result : gmap string value) : value :=
  dict_get _result "mac" VNone.

(** The fan getters: [int(self._result.get(key, default))]. *)
Definition get_fan_state (_result : gmap string value) : result Z :=
  py_int (dict_get _result "fanState" (VInt 0)).
Definition get_fan_speed (_result : gmap string value) : result Z :=
  py_int (dict_get _result "fanSpeed" (VInt 0)).
Definition get_fan_mode (_result : gmap string value) : result Z :=
  py_int (dict_get _result "fanMode" (VInt 1)).
Definition get_fan_reverse (_result : gmap string value) : result Z :=
  py_int (dict_get _result "fanRevrs" (VInt 0)).

End getters.
End PilotParser.

(** ** Statement-side definitions for the codec as a whole *)

Module CodecSpec.
Import PilotBuilder PilotSpec.

(** The range of each numeric key of a setPilot params mapping. *)
Definition range_of (key : string) : option (Z * Z) :=
  if bool_decide (key ∈ ["r"; "g"; "b"; "w"; "c"]) then Some (0, 255)
  else if String.eqb key "temp" then Some (1000, 10000)
  else if String.eqb key "dimming" then Some (10, 255)
  else if String.eqb key "speed" then Some (1, 200)
  else if String.eqb key "ratio" then Some (0, 100)
  else None.

(** [x] is an [int] instance whose value lies in [lo, hi]. *)
Definition in_range (lo hi : Z) (x : value) : Prop :=
  isinstance_int x = true ∧ lo ≤ int_of x ≤ hi.

(** What an entry of a built params mapping may be. *)
Definition entry_ok (key : string) (x : value) : Prop :=
  if String.eqb key "state" then ∃ b, x = VBool b
  else if String.eqb key "sceneId"
  then isinstance_int x = true ∧ is_Some (SCENES !! int_of x)
  else match range_of key with
       | Some (lo, hi) => in_range lo hi x
       | None => False
       end.

(** What the parser reads back for an optional numeric argument [v] that
    the builder clamped to [lo, hi]. *)
Definition read_back (lo hi : Z) (v : value) : option Z :=
  if is_None v then None else Some (clamp lo hi (int_of v)).

(** Where an entry of the mapping after the mode step comes from. *)
Definition mode_entry (a : kwargs) (p0 p1 : gmap string value)
    (k : string) : Prop :=
  p1 !! k = p0 !! k ∨
  (k = "sceneId" ∧ ∃ x, _resolve_scene (scene a) = Ok x ∧ p1 !! k = Some x) ∨
  (k ∈ ["r"; "g"; "b"; "w"; "c"] ∧
   ∃ v x, _clamp v 0 255 = Ok x ∧ p1 !! k = Some x) ∨
  (k = "temp" ∧
   ∃ x, _clamp (colortemp a) 1000 10000 = Ok x ∧ p1 !! k = Some x).

End CodecSpec.

(** ** push.py: sequences of registry operations *)

Module PushOps.
Import PushManager.

(** What the owner of a manager can do to [self._subscribers]: call
    [subscribe(mac, callback)], or call the disposer such a call
    returned. *)
Inductive op : Type :=
  | Subscribe (mac : string) (cb : callback)
  | Dispose (mac : string) (cb : callback).

Definition apply_op (_subscribers : gmap string (list callback)) (o : op)
    : gmap string (list callback) :=
  match o with
  | Subscribe mac cb => subscribe mac cb _subscribers
  | Dispose mac cb => unsubscribe (normalize mac) cb _subscribers
  end.

(** The registry of a manager created by [__init__] ([_subscribers = {}])
    after the operations [ops]. *)
Definition run (ops : list op) : gmap string (list callback) :=
  foldl apply_op ∅ ops.

End PushOps.

(** ** push.py: the registry with its list objects *)

(** [_handle_sync_pilot] iterates over the list object that is registered
    under the MAC while it invokes the callbacks, and a callback may call
    [subscribe] and disposers.  Here the lists are objects with an
    identity, so that what the loop sees after a callback is what the
    callback left in that object. *)
Module PushObjects.
Import PushManager.

(** [_subscribers] maps a MAC to the identity of its list; [lists] holds
    the content of every list object ever created (a list that [del] took
    out of [_subscribers] is still the one a running loop iterates over);
    [fresh] is the next unused identity. *)
Record manager : Type := Manager {
  _subscribers : gmap string nat;
  lists : gmap nat (list callback);
  fresh : nat
}.

(** [PushManager.__init__]: [self._subscribers = {}] *)
Definition __init__ : manager := Manager ∅ ∅ 0.

Definition content (m : manager) (l : nat) : list callback :=
  default [] (lists m !! l).

Definition subscribe (mac : string) (cb : callback) (m : manager)
    : manager :=
  let mac_lower := normalize mac in
  let m :=
    if bool_decide (is_Some (_subscribers m !! mac_lower)) then m
    else Manager (<[mac_lower := fresh m]> (_subscribers m))
                 (<[fresh m := []]> (lists m)) (S (fresh m)) in
  match _subscribers m !! mac_lower with
  | Some l =>
      Manager (_subscribers m) (<[l := content m l ++ [cb]]> (lists m))
              (fresh m)
  | None => m
  end.

Definition unsubscribe (mac_lower : string) (cb : callback) (m : manager)
    : manager :=
  match _subscribers m !! mac_lower with
  | Some l =>
      let m := Manager (_subscribers m)
                       (<[l := remove cb (content m l)]> (lists m))
                       (fresh m) in
      if bool_decide (content m l = [])
      then Manager (delete mac_lower (_subscribers m)) (lists m) (fresh m)
      else m
  | None => m
  end.

(** A sequence of [subscribe(mac, callback)] calls. *)
Definition subscribe_all (calls : list (string * callback)) (m : manager)
    : manager :=
  foldl (λ m c, subscribe c.1 c.2 m) m calls.

(** The registry as a mapping from MAC to list content. *)
Definition view (m : manager) : gmap string (list callback) :=
  content m <$> _subscribers m.

(** How the invocation of a callback ends. *)
Inductive ending : Type :=
  | Returns
  | RaisesException
  | RaisesBaseException.

(** How [_handle_sync_pilot] ends: it returns, raises, or is left by the
    [BaseException] of a callback. *)
Inductive completion : Type :=
  | Done
  | Raised (e : exn)
  | Escaped (cb : callback).

Section dispatch.

(** What invoking a callback with the parser over [params] does: it may
    change the manager (by [subscribe] and disposer calls), and it
    returns or raises. *)
Variable invoke : callback → gmap string value → manager → manager * ending.

(** The loop of lines 160-164 over the list object [l]: the iterator
    holds the object and an index [i], and reads the object anew in each
    round.  [except Exception] catches and logs; the trace [log] records
    the invocations.  [fuel] bounds the number of rounds (a callback may
    keep subscribing to the list). *)
Fixpoint for_callbacks (fuel : nat) (params : gmap string value)
    (l i : nat) (m : manager) (log : list call)
    : option (manager * list call * completion) :=
  match fuel with
  | O => None
  | S fuel =>
      match content m l !! i with
      | None => Some (m, log, Done)
      | Some cb =>
          let '(m, e) := invoke cb params m in
          let log := log ++ [(cb, params)] in
          match e with
          | RaisesBaseException => Some (m, log, Escaped cb)
          | _ => for_callbacks fuel params l (S i) m log
          end
      end
  end.

(** [_handle_sync_pilot(data, addr)]: the manager afterwards, the
    invocations made in order, and how the call ends; [None] when [fuel]
    rounds do not finish the loop. *)
Definition _handle_sync_pilot (fuel : nat) (m : manager)
    (data : gmap string value)
    : option (manager * list call * completion) :=
  match dict_get data "params" (VDict ∅) with
  | VDict params =>
      match dict_get params "mac" (VStr "") with
      | VStr mac =>
          let mac := lower mac in
          if String.eqb mac "" then Some (m, [], Done)
          else
            match _subscribers m !! mac with
            | Some l => for_callbacks fuel params l 0 m []
            | None => Some (m, [], Done)     (* [get(mac, [])] *)
            end
      | _ => Some (m, [], Raised AttributeError)      (* no [lower] *)
      end
  | _ => Some (m, [], Raised AttributeError)          (* no [get] *)
  end.

(** A callback that leaves the manager as it is and lets no
    [BaseException] out. *)
Definition inert (cb : callback) : Prop :=
  ∀ params m, ∃ e, invoke cb params m = (m, e) ∧ e ≠ RaisesBaseException.

(** A callback that calls its own disposer, the one returned by
    [subscribe(mac, cb)], and returns. *)
Definition disposes_itself (mac : string) (cb : callback) : Prop :=
  ∀ params m, invoke cb params m = (unsubscribe (normalize mac) cb m, Returns).

End dispatch.

(** The identities in use are below [fresh], and no list is registered
    under two MACs. *)
Definition well_formed (m : manager) : Prop :=
  (∀ k l, _subscribers m !! k = Some l → (l < fresh m)%nat) ∧
  (∀ k k' l, _subscribers m !! k = Some l → _subscribers m !! k' = Some l →
             k = k').

End PushObjects.

(** ** bulb.py: wizlight.get_power *)

Module wizlight.

(** How a call ends for its caller: it returns, or a [BaseException] that
    is not an [Exception] ([asyncio.CancelledError], [KeyboardInterrupt])
    passes through it; no [except Exception] catches those. *)
Inductive completion (A : Type) : Type :=
  | Returned (a : A)
  | Escaped (name : string).
Arguments Returned {A} a.
Arguments Escaped {A} name.

(** What the awaited [self._send(...)] does: it returns the response,
    raises an [Exception], or is left by a [BaseException] of the given
    name. *)
Inductive sent : Type :=
  | Responds (response : gmap string value)
  | Raises (e : exn)
  | Interrupted (name : string).

Section get_power.

Variable float_of_str : string → option Q.

(** [get_power()], lines 266-283, called when [self.power_monitoring] is
    [power_monitoring] ([None] after the constructor): the final value of
    the attribute and how the call ends.  Inside the [try], a [result]
    that is not a dict has no [get] (AttributeError) and [float(watts)]
    may raise after the attribute was set; [except Exception] then resets
    it. *)
Definition get_power (power_monitoring : option bool) (_send : sent)
    : option bool * completion (option Q) :=
  match _send with
  | Interrupted name => (power_monitoring, Escaped name)
  | Raises _ => (Some false, Returned None)
  | Responds response =>
      let body : result (option bool * option Q) :=
        match dict_get response "result" (VDict ∅) with
        | VDict result =>
            let watts := dict_get result "w" VNone in
            if negb (is_None watts) then
              q ← py_float float_of_str watts; mret (Some true, Some q)
            else mret (Some false, None)
        | _ => Raise AttributeError
        end in
      match body with
      | Ok (power_monitoring, watts) => (power_monitoring, Returned watts)
      | Raise _ => (Some false, Returned None)
      end
  end.

End get_power.
End wizlight.

(** ** Statement-side definitions for the detector *)

Module DetectShape.
Import models devices.

(** The feature flags that go with a class: colour only on [RGB], the
    fan flags only on [FANDIM], brightness and effects on all but
    [SOCKET], a colour temperature only on [RGB] and [TW], never
    [dual_head]. *)
Definition features_fit (c : BulbClass) (f : Features) : bool :=
  bool_decide (color f = match c with RGB => true | _ => false end) &&
  bool_decide (brightness f = match c with SOCKET => false | _ => true end) &&
  bool_decide (effect f = match c with SOCKET => false | _ => true end) &&
  bool_decide (fan f = match c with FANDIM => true | _ => false end) &&
  bool_decide (fan_reverse f = fan f) &&
  bool_decide (fan_breeze_mode f = fan f) &&
  bool_decide (dual_head f = false) &&
  (negb (color_temp f) || match c with RGB | TW => true | _ => false end).

(** A Kelvin range goes with the [color_temp] flag. *)
Definition kelvin_fits (f : Features) (k : option KelvinRange) : bool :=
  bool_decide (color_temp f = bool_decide (is_Some k)).

(** No pattern of the table occurs in the upper-cased name. *)
Definition unmatched (name_upper : string) : bool :=
  forallb (λ p, negb (str_in p.1.1.1 name_upper)) _MODULE_PATTERNS.

(** [white_range] is [None], empty, or lacks [min] or [max]. *)
Definition incomplete (white_range : option (gmap string value)) : bool :=
  match white_range with
  | None => true
  | Some d =>
      negb (bool_decide (is_Some (d !! "min")) &&
            bool_decide (is_Some (d !! "max")))
  end.

(** The descriptor of the last [return] of [detect_bulb_type]. *)
Definition default_descriptor (module_name : string) : BulbType :=
  BulbType_init RGB module_name (Features_init true true true true)
                (K 2200 6500).

End DetectShape.

(** * Theorems *)

(** ** The pilot builder *)

Section PilotBuilderFacts.
Import PilotBuilder PilotSpec.

Implicit Types (a : kwargs) (p : gmap string value) (v : value).

Local Arguments py_getitem : simpl never.
Local Arguments _clamp : simpl never.

Lemma _clamp_int z lo hi : _clamp (VInt z) lo hi = Ok (VInt (clamp lo hi z)).
Proof.
  unfold _clamp, py_max, py_min, clamp; simpl.
  destruct (Z.ltb_spec z hi); simpl.
  - rewrite Z.min_r by lia.
    destruct (Z.ltb_spec lo z); [rewrite Z.max_r by lia|rewrite Z.max_l by lia]; done.
  - rewrite Z.min_l by lia.
    destruct (Z.ltb_spec lo hi); [rewrite Z.max_r by lia|rewrite Z.max_l by lia]; done.
Qed.

Lemma _clamp_result v lo hi :
  _clamp v lo hi =
    if isinstance_int v
    then Ok (py_max (VInt lo) (py_min (VInt hi) v))
    else Raise WizLightInvalidParameter.
Proof. reflexivity. Qed.

Lemma clamp_range lo hi z : lo ≤ hi → lo ≤ clamp lo hi z ≤ hi.
Proof. unfold clamp; lia. Qed.

Lemma clamp_id lo hi z : lo ≤ z ≤ hi → clamp lo hi z = z.
Proof. unfold clamp; lia. Qed.

(** What [set_optional] does to the mapping. *)
Lemma set_optional_Ok key v lo hi p p' :
  set_optional key v lo hi p = Ok p' →
  (∀ k, k ≠ key → p' !! k = p !! k) ∧
  (is_None v = true → p' = p) ∧
  (is_None v = false → is_Some (p' !! key)) ∧
  (∀ z, v = VInt z → p' !! key = Some (VInt (clamp lo hi z))).
Proof.
  unfold set_optional. destruct (is_None v) eqn:Hn.
  - intros [= <-]. repeat split; try done. intros z ->; done.
  - destruct (_clamp v lo hi) as [x|e] eqn:Hc; simpl; [|done].
    intros [= <-]. repeat split; try done.
    + intros k Hk. by rewrite lookup_insert_ne.
    + intros _. rewrite lookup_insert_eq. eauto.
    + intros z ->. rewrite _clamp_int in Hc. injection Hc as <-.
      by rewrite lookup_insert_eq.
Qed.


Lemma mode_keys_ext p p' :
  (∀ k, k ∈ MODE_KEYS → p' !! k = p !! k) → mode_keys p' = mode_keys p.
Proof.
  unfold mode_keys. induction MODE_KEYS as [|k l IH]; intros H; [done|].
  rewrite !filter_cons, (H k) by left.
  rewrite IH; [done|]. intros k' Hk'. apply H. by right.
Qed.

Lemma set_optional_mode_keys key v lo hi p p' :
  key ∉ MODE_KEYS →
  set_optional key v lo hi p = Ok p' → mode_keys p' = mode_keys p.
Proof.
  intros Hkey Hp'. apply set_optional_Ok in Hp' as (Hne & _).
  apply mode_keys_ext. intros k Hk. apply Hne. by intros ->.
Qed.

(** Case analysis on a statement that may raise, in a hypothesis
    [_ = Ok _]. *)
Ltac step_in H :=
  match type of H with
  | context [_clamp ?v ?lo ?hi] =>
      let x := fresh "x" in let Hx := fresh "Hx" in
      destruct (_clamp v lo hi) as [x|?] eqn:Hx; simpl in H; [|discriminate H]
  | context [py_getitem ?v ?i] =>
      let x := fresh "x" in let Hx := fresh "Hx" in
      destruct (py_getitem v i) as [x|?] eqn:Hx; simpl in H; [|discriminate H]
  | context [_resolve_scene ?v] =>
      let x := fresh "x" in let Hx := fresh "Hx" in
      destruct (_resolve_scene v) as [x|?] eqn:Hx; simpl in H; [|discriminate H]
  end.

Lemma set_mode_keys a p :
  set_mode a {["state" := VBool true]} = Ok p → mode_keys p = keys_of_mode a.
Proof.
  unfold set_mode, keys_of_mode, selected_mode, given.
  destruct (is_None (scene a)); simpl.
  2:{ intros H. step_in H. by injection H as <-. }
  destruct (is_None (rgbww a)); simpl.
  2:{ unfold _set_rgbww, tuple_len, set_channel.
      destruct (py_len (rgbww a)) as [n|]; simpl; [|done].
      destruct (n <? 3)%nat; [done|].
      destruct (3 <? n)%nat, (4 <? n)%nat; simpl; intros H;
        repeat step_in H; by injection H as <-. }
  destruct (is_None (rgbw a)); simpl.
  2:{ unfold _set_rgbw, tuple_len, set_channel.
      destruct (py_len (rgbw a)) as [n|]; simpl; [|done].
      destruct (n <? 3)%nat; [done|].
      destruct (3 <? n)%nat; simpl; intros H;
        repeat step_in H; by injection H as <-. }
  destruct (negb (is_None (r a)) || negb (is_None (g a))
            || negb (is_None (b a))); simpl.
  { unfold set_optional.
    destruct (is_None (warm_white a)), (is_None (cold_white a)); simpl;
      intros H; repeat step_in H; by injection H as <-. }
  destruct (is_None (colortemp a)); simpl.
  - by intros [= <-].
  - intros H. step_in H. by injection H as <-.
Qed.

Lemma to_dict_mode_keys a p :
  state a = true → to_dict a = Ok p → mode_keys p = keys_of_mode a.
Proof.
  unfold to_dict, __init__. intros -> ; simpl.
  destruct (set_mode a _) as [p1|] eqn:H1; simpl; [|done].
  destruct (set_optional "dimming" _ _ _ p1) as [p2|] eqn:H2; simpl; [|done].
  destruct (set_optional "speed" _ _ _ p2) as [p3|] eqn:H3; simpl; [|done].
  intros H4.
  apply set_optional_mode_keys in H2, H3, H4;
    try (rewrite list_elem_of_In; simpl; intuition discriminate).
  rewrite H4, H3, H2. by apply set_mode_keys.
Qed.

Lemma keys_of_mode_one a : keys_of_mode a ∈ ONE_MODE.
Proof.
  unfold keys_of_mode, ONE_MODE, when.
  destruct (selected_mode a); simpl;
    repeat match goal with |- context [if ?c then _ else _] => destruct c end;
    simpl; repeat first [by left | right].
Qed.

Ltac map_lookup :=
  repeat (rewrite lookup_insert_ne by done); rewrite ?lookup_insert_eq.

Lemma clamped x z lo hi y :
  x = VInt z → _clamp x lo hi = Ok y → y = VInt (clamp lo hi z).
Proof. intros ->. rewrite _clamp_int. congruence. Qed.

Lemma py_getitem_tuple l i x :
  py_getitem (VTuple l) i = Ok x → l !! i = Some x.
Proof. unfold py_getitem. destruct (l !! i); congruence. Qed.

(** The channel values written by the two tuple modes. *)
Lemma _set_rgbww_lookup p0 l p i key z :
  _set_rgbww p0 (VTuple l) = Ok p →
  ["r"; "g"; "b"; "w"; "c"] !! i = Some key →
  l !! i = Some (VInt z) →
  p !! key = Some (VInt (clamp 0 255 z)).
Proof.
  unfold _set_rgbww, set_channel; simpl.
  destruct (length l <? 3)%nat; [done|].
  destruct (Nat.ltb_spec 3 (length l)) as [H3|H3],
           (Nat.ltb_spec 4 (length l)) as [H4|H4]; simpl;
    intros H Hkey Hl;
    repeat step_in H; injection H as <-;
    repeat match goal with
           | Hx : py_getitem _ _ = Ok _ |- _ => apply py_getitem_tuple in Hx
           end;
    destruct i as [|[|[|[|[|i]]]]]; simplify_eq/=;
    try (apply lookup_lt_Some in Hl; lia);
    map_lookup; f_equal; by eapply clamped.
Qed.

Lemma _set_rgbw_lookup p0 l p i key z :
  _set_rgbw p0 (VTuple l) = Ok p →
  ["r"; "g"; "b"; "w"] !! i = Some key →
  l !! i = Some (VInt z) →
  p !! key = Some (VInt (clamp 0 255 z)).
Proof.
  unfold _set_rgbw, set_channel; simpl.
  destruct (length l <? 3)%nat; [done|].
  destruct (Nat.ltb_spec 3 (length l)) as [H3|H3]; simpl;
    intros H Hkey Hl;
    repeat step_in H; injection H as <-;
    repeat match goal with
           | Hx : py_getitem _ _ = Ok _ |- _ => apply py_getitem_tuple in Hx
           end;
    destruct i as [|[|[|[|i]]]]; simplify_eq/=;
    try (apply lookup_lt_Some in Hl; lia);
    map_lookup; f_equal; by eapply clamped.
Qed.

Lemma py_or_int z : py_or (VInt z) (VInt 0) = VInt z.
Proof.
  unfold py_or; simpl. destruct (Z.eqb_spec z 0) as [->|]; done.
Qed.

(** [set_mode] runs the branch of the selected mode. *)
Lemma set_mode_selected a p0 :
  set_mode a p0 =
    match selected_mode a with
    | ModeScene =>
        scene_id ← _resolve_scene (scene a);
        mret (<["sceneId" := scene_id]> p0)
    | ModeRGBWW => _set_rgbww p0 (rgbww a)
    | ModeRGBW => _set_rgbw p0 (rgbw a)
    | ModeRGB =>
        x ← _clamp (py_or (r a) (VInt 0)) 0 255;
        y ← _clamp (py_or (g a) (VInt 0)) 0 255;
        z ← _clamp (py_or (b a) (VInt 0)) 0 255;
        p ← set_optional "w" (warm_white a) 0 255
              (<["b" := z]> (<["g" := y]> (<["r" := x]> p0)));
        set_optional "c" (cold_white a) 0 255 p
    | ModeTemp =>
        x ← _clamp (colortemp a) 1000 10000;
        mret (<["temp" := x]> p0)
    | ModeNone => mret p0
    end.
Proof.
  unfold set_mode, selected_mode, given.
  destruct (is_None (scene a)), (is_None (rgbww a)), (is_None (rgbw a)),
    (is_None (r a)), (is_None (g a)), (is_None (b a)),
    (is_None (colortemp a)); reflexivity.
Qed.

(** The constructor with [state=True], split into its four steps. *)
Lemma to_dict_steps a p :
  state a = true → to_dict a = Ok p →
  ∃ p1 p2 p3,
    set_mode a {["state" := VBool true]} = Ok p1 ∧
    set_optional "dimming" (brightness a) 10 255 p1 = Ok p2 ∧
    set_optional "speed" (speed a) 1 200 p2 = Ok p3 ∧
    set_optional "ratio" (ratio a) 0 100 p3 = Ok p.
Proof.
  unfold to_dict, __init__. intros ->; simpl.
  destruct (set_mode a _) as [p1|] eqn:H1; simpl; [|done].
  destruct (set_optional "dimming" _ _ _ p1) as [p2|] eqn:H2; simpl; [|done].
  destruct (set_optional "speed" _ _ _ p2) as [p3|] eqn:H3; simpl; [|done].
  intros H4. by exists p1, p2, p3.
Qed.

Lemma bare_rgb_lookup a p0 p key v z :
  (x ← _clamp (py_or (r a) (VInt 0)) 0 255;
   y ← _clamp (py_or (g a) (VInt 0)) 0 255;
   z ← _clamp (py_or (b a) (VInt 0)) 0 255;
   p ← set_optional "w" (warm_white a) 0 255
         (<["b" := z]> (<["g" := y]> (<["r" := x]> p0)));
   set_optional "c" (cold_white a) 0 255 p) = Ok p →
  (key, v) ∈ [("r", r a); ("g", g a); ("b", b a);
              ("w", warm_white a); ("c", cold_white a)] →
  v = VInt z →
  p !! key = Some (VInt (clamp 0 255 z)).
Proof.
  intros H Hkey ->.
  destruct (_clamp (py_or (r a) _) _ _) as [x|] eqn:Hr; simpl in H; [|done].
  destruct (_clamp (py_or (g a) _) _ _) as [y|] eqn:Hg; simpl in H; [|done].
  destruct (_clamp (py_or (b a) _) _ _) as [u|] eqn:Hb; simpl in H; [|done].
  destruct (set_optional "w" _ _ _ _) as [pw|] eqn:Hw; simpl in H; [|done].
  apply set_optional_Ok in Hw as (Hw_ne & _ & _ & Hw).
  apply set_optional_Ok in H as (Hc_ne & _ & _ & Hc).
  rewrite !elem_of_cons, elem_of_nil in Hkey.
  destruct Hkey as [Hk|[Hk|[Hk|[Hk|[Hk|[]]]]]]; injection Hk as -> Hv;
    symmetry in Hv.
  - rewrite Hc_ne, Hw_ne by done. map_lookup. f_equal.
    eapply clamped; [|done]. by rewrite Hv, py_or_int.
  - rewrite Hc_ne, Hw_ne by done. map_lookup. f_equal.
    eapply clamped; [|done]. by rewrite Hv, py_or_int.
  - rewrite Hc_ne, Hw_ne by done. map_lookup. f_equal.
    eapply clamped; [|done]. by rewrite Hv, py_or_int.
  - rewrite Hc_ne by done. by apply Hw.
  - by apply Hc.
Qed.


(** C1.  A pilot built with [state=True]: the mode keys of the produced
    mapping are exactly the keys of the one mode selected by the priority
    scene > rgbww > rgbw > bare r/g/b > colortemp; that key set is
    {sceneId}, {r,g,b} with or without w and c, {temp} or empty; and a
    mode key is present if and only if the selected mode contributes it,
    so the keys of every mode that was not selected are absent. *)
Theorem pilot_exactly_one_mode a p :
  state a = true → to_dict a = Ok p →
  mode_keys p = keys_of_mode a ∧
  mode_keys p ∈ ONE_MODE ∧
  (∀ k, k ∈ MODE_KEYS → is_Some (p !! k) ↔ k ∈ keys_of_mode a).
Proof.
  intros Hs Hp. pose proof (to_dict_mode_keys a p Hs Hp) as Hk.
  split; [done|]. split.
  - rewrite Hk. apply keys_of_mode_one.
  - intros k Hin. rewrite <- Hk. unfold mode_keys.
    rewrite list_elem_of_filter. tauto.
Qed.

Lemma pilot_exactly_one_mode_witness :
  state Scenario.S3 = true ∧
  to_dict Scenario.S3 = Ok Scenario.S3_params ∧
  mode_keys Scenario.S3_params = keys_of_mode Scenario.S3 ∧
  mode_keys Scenario.S3_params ∈ ONE_MODE ∧
  (∀ k, k ∈ MODE_KEYS →
     is_Some (Scenario.S3_params !! k) ↔ k ∈ keys_of_mode Scenario.S3).
Proof.
  assert (Hs : state Scenario.S3 = true) by reflexivity.
  assert (Hp : to_dict Scenario.S3 = Ok Scenario.S3_params)
    by (vm_compute; reflexivity).
  exact (conj Hs (conj Hp
           (pilot_exactly_one_mode Scenario.S3 Scenario.S3_params Hs Hp))).
Defined.

(** C6.  A pilot built with [state=False] produces exactly
    [{"state": False}], whatever the other arguments are; nothing is
    validated, so nothing is raised. *)
Theorem pilot_off_only_state a :
  state a = false → to_dict a = Ok {["state" := VBool false]}.
Proof. unfold to_dict, __init__. by intros ->. Qed.

Lemma pilot_off_only_state_witness :
  state Scenario.S2 = false ∧
  to_dict Scenario.S2 = Ok {["state" := VBool false]}.
Proof.
  assert (Hs : state Scenario.S2 = false) by reflexivity.
  exact (conj Hs (pilot_off_only_state Scenario.S2 Hs)).
Defined.

(** *** When the constructor raises *)

Lemma set_optional_cases key v lo hi p :
  (existsb not_int (optional v) = true ∧
   set_optional key v lo hi p = Raise WizLightInvalidParameter) ∨
  (existsb not_int (optional v) = false ∧
   ∃ p', set_optional key v lo hi p = Ok p').
Proof.
  unfold set_optional, optional, given, not_int. rewrite _clamp_result.
  destruct (is_None v); simpl; [right; eauto|].
  destruct (isinstance_int v); simpl; [right; eauto|left; eauto].
Qed.

Lemma _resolve_scene_cases v :
  (is_None v || isinstance_int v || is_str v) = true → is_None v = false →
  (scene_unknown v = true ∧
   _resolve_scene v = Raise WizLightInvalidParameter) ∨
  (scene_unknown v = false ∧ ∃ x, _resolve_scene v = Ok x).
Proof.
  unfold _resolve_scene, scene_unknown.
  destruct v as [|bo|z|q|name|l|m];
    cbn [is_None isinstance_int is_str orb]; try discriminate; intros _ _;
    match goal with
    | |- context [bool_decide (?o = None)] => generalize o
    end; intros [x|].
  - right. rewrite bool_decide_eq_false_2 by done.
    rewrite bool_decide_eq_true_2 by eauto. eauto.
  - left. rewrite bool_decide_eq_true_2 by done.
    rewrite bool_decide_eq_false_2 by (by intros []). eauto.
  - right. rewrite bool_decide_eq_false_2 by done.
    rewrite bool_decide_eq_true_2 by eauto. eauto.
  - left. rewrite bool_decide_eq_true_2 by done.
    rewrite bool_decide_eq_false_2 by (by intros []). eauto.
  - right. rewrite bool_decide_eq_false_2 by done. eauto.
  - left. rewrite bool_decide_eq_true_2 by done. eauto.
Qed.

Ltac case_ifs :=
  repeat match goal with
         | |- context [if ?c then _ else _] => destruct c
         end.

Ltac case_int :=
  repeat match goal with
         | |- context [isinstance_int ?x] =>
             destruct (isinstance_int x); simpl
         end.

Lemma _set_rgbww_cases p0 l :
  (((length l <? 3)%nat || existsb not_int (take 5 l)) = true ∧
   _set_rgbww p0 (VTuple l) = Raise WizLightInvalidParameter) ∨
  (((length l <? 3)%nat || existsb not_int (take 5 l)) = false ∧
   ∃ p, _set_rgbww p0 (VTuple l) = Ok p).
Proof.
  unfold _set_rgbww, set_channel, not_int.
  destruct l as [|x0 [|x1 [|x2 [|x3 [|x4 l]]]]]; simpl; eauto;
    rewrite ?_clamp_result; case_int; rewrite ?_clamp_result; case_int;
    rewrite ?_clamp_result; case_int; rewrite ?_clamp_result; case_int;
    rewrite ?_clamp_result; case_int; eauto.
Qed.

Lemma _set_rgbw_cases p0 l :
  (((length l <? 3)%nat || existsb not_int (take 4 l)) = true ∧
   _set_rgbw p0 (VTuple l) = Raise WizLightInvalidParameter) ∨
  (((length l <? 3)%nat || existsb not_int (take 4 l)) = false ∧
   ∃ p, _set_rgbw p0 (VTuple l) = Ok p).
Proof.
  unfold _set_rgbw, set_channel, not_int.
  destruct l as [|x0 [|x1 [|x2 [|x3 l]]]]; simpl; eauto;
    rewrite ?_clamp_result; case_int; rewrite ?_clamp_result; case_int;
    rewrite ?_clamp_result; case_int; rewrite ?_clamp_result; case_int;
    eauto.
Qed.

Lemma given_selects_scene a :
  selected_mode a ≠ ModeScene → scene a = VNone.
Proof.
  unfold selected_mode, given. destruct (scene a); simpl; done.
Qed.

Lemma set_mode_cases a p0 :
  shaped a = true →
  (mode_invalid a = true ∧
   set_mode a p0 = Raise WizLightInvalidParameter) ∨
  (mode_invalid a = false ∧ ∃ p, set_mode a p0 = Ok p).
Proof.
  intros Hsh. rewrite set_mode_selected.
  unfold mode_invalid, tuple_too_short, mode_numeric.
  unfold shaped in Hsh. apply andb_prop in Hsh as [Hsh Hww].
  apply andb_prop in Hsh as [Hsc Hw].
  destruct (selected_mode a) eqn:Hsel.
  - assert (is_None (scene a) = false) as Hn.
    { revert Hsel. unfold selected_mode, given.
      destruct (is_None (scene a)); simpl; [|done].
      case_ifs; done. }
    destruct (_resolve_scene_cases (scene a) Hsc Hn) as [[-> ->]|[-> [x ->]]];
      simpl; eauto.
  - rewrite (given_selects_scene a) by congruence. simpl.
    destruct (rgbww a) as [| | | | |l|] eqn:E; simpl in *; try done.
    + revert Hsel. unfold selected_mode, given. rewrite E; simpl.
      case_ifs; done.
    + apply _set_rgbww_cases.
  - rewrite (given_selects_scene a) by congruence. simpl.
    destruct (rgbw a) as [| | | | |l|] eqn:E; simpl in *; try done.
    + revert Hsel. unfold selected_mode, given. rewrite E; simpl.
      case_ifs; done.
    + apply _set_rgbw_cases.
  - rewrite (given_selects_scene a) by congruence. simpl.
    unfold set_optional, or_zero, optional, given, not_int.
    destruct (is_None (warm_white a)), (is_None (cold_white a)); simpl;
      rewrite ?_clamp_result; case_int; rewrite ?_clamp_result; case_int;
      rewrite ?_clamp_result; case_int; rewrite ?_clamp_result; case_int;
      rewrite ?_clamp_result; case_int; eauto.
  - rewrite (given_selects_scene a) by congruence. simpl.
    unfold not_int. rewrite _clamp_result. case_int; eauto.
  - rewrite (given_selects_scene a) by congruence. simpl. eauto.
Qed.

Lemma invalid_split a :
  invalid a =
    mode_invalid a
    || existsb not_int (optional (brightness a))
    || existsb not_int (optional (speed a))
    || existsb not_int (optional (ratio a)).
Proof.
  unfold invalid, invalid_with, mode_invalid, used_numeric.
  rewrite !existsb_app, !orb_assoc. reflexivity.
Qed.

Lemma to_dict_cases a :
  state a = true → shaped a = true →
  (invalid a = true ∧ to_dict a = Raise WizLightInvalidParameter) ∨
  (invalid a = false ∧ ∃ p, to_dict a = Ok p).
Proof.
  intros Hs Hsh. rewrite invalid_split. unfold to_dict, __init__.
  rewrite Hs; simpl.
  destruct (set_mode_cases a {["state" := VBool true]} Hsh)
    as [[-> ->]|[-> [p1 ->]]]; simpl; [by left|].
  destruct (set_optional_cases "dimming" (brightness a) 10 255 p1)
    as [[-> ->]|[-> [p2 ->]]]; simpl; [by left|].
  destruct (set_optional_cases "speed" (speed a) 1 200 p2)
    as [[-> ->]|[-> [p3 ->]]]; simpl; [by left|].
  destruct (set_optional_cases "ratio" (ratio a) 0 100 p3)
    as [[-> ->]|[-> [p4 ->]]]; simpl; [by left|right; eauto].
Qed.

(** C7.  The builder clamps integers and does not reject them.  A
    construction with [state=True] succeeds whenever its arguments are
    valid (the scene is registered, the selected tuple has three
    elements or more, every numeric parameter in use is an integer),
    however far out of range the integers are; [_clamp] returns
    [max(lo, min(hi, z))] for every integer [z], which lies in [lo, hi]
    and equals [z] when [z] is in range; and in the params produced,
    brightness is emitted as [dimming] clamped to [10, 255], speed to
    [1, 200], ratio to [0, 100], colortemp as [temp] to [1000, 10000],
    and the r, g, b, w, c channels of the bare-RGB, rgbw and rgbww modes
    to [0, 255]. *)
Theorem pilot_clamps a :
  state a = true →
  (shaped a = true → invalid a = false → ∃ p, to_dict a = Ok p) ∧
  (∀ p, to_dict a = Ok p →
    (∀ z lo hi, _clamp (VInt z) lo hi = Ok (VInt (clamp lo hi z))) ∧
    (∀ z lo hi, lo ≤ hi →
       lo ≤ clamp lo hi z ≤ hi ∧ (lo ≤ z ≤ hi → clamp lo hi z = z)) ∧
    (∀ z, brightness a = VInt z →
       p !! "dimming" = Some (VInt (clamp 10 255 z))) ∧
    (∀ z, speed a = VInt z → p !! "speed" = Some (VInt (clamp 1 200 z))) ∧
    (∀ z, ratio a = VInt z → p !! "ratio" = Some (VInt (clamp 0 100 z))) ∧
    (∀ z, selected_mode a = ModeTemp → colortemp a = VInt z →
       p !! "temp" = Some (VInt (clamp 1000 10000 z))) ∧
    (∀ key v z, selected_mode a = ModeRGB →
       (key, v) ∈ [("r", r a); ("g", g a); ("b", b a);
                   ("w", warm_white a); ("c", cold_white a)] →
       v = VInt z → p !! key = Some (VInt (clamp 0 255 z))) ∧
    (∀ l i key z, selected_mode a = ModeRGBW → rgbw a = VTuple l →
       ["r"; "g"; "b"; "w"] !! i = Some key → l !! i = Some (VInt z) →
       p !! key = Some (VInt (clamp 0 255 z))) ∧
    (∀ l i key z, selected_mode a = ModeRGBWW → rgbww a = VTuple l →
       ["r"; "g"; "b"; "w"; "c"] !! i = Some key → l !! i = Some (VInt z) →
       p !! key = Some (VInt (clamp 0 255 z)))).
Proof.
  intros Hs. split.
  { intros Hsh Hinv.
    destruct (to_dict_cases a Hs Hsh) as [[Hi _]|[_ Hp]]; [congruence|done]. }
  intros p Hp.
  {
    destruct (to_dict_steps a p Hs Hp) as (p1 & p2 & p3 & H1 & H2 & H3 & H4).
    apply set_optional_Ok in H2 as (H2ne & _ & _ & H2).
    apply set_optional_Ok in H3 as (H3ne & _ & _ & H3).
    apply set_optional_Ok in H4 as (H4ne & _ & _ & H4).
    assert (Hmode : ∀ k, k ∈ MODE_KEYS → p !! k = p1 !! k).
    { intros k Hk. rewrite H4ne, H3ne, H2ne; [done|..];
        intros ->; revert Hk; rewrite list_elem_of_In; simpl;
        intuition discriminate. }
    assert (Hin : ∀ i key, ["r"; "g"; "b"; "w"; "c"] !! i = Some key →
                           key ∈ MODE_KEYS).
    { intros i key Hi. apply list_elem_of_lookup_2 in Hi. revert Hi.
      unfold MODE_KEYS. rewrite !elem_of_cons. tauto. }
    rewrite set_mode_selected in H1.
    split; [apply _clamp_int|].
    split; [intros z lo hi Hle; split; [by apply clamp_range|apply clamp_id]|].
    split; [intros z Hz; rewrite H4ne, H3ne by done; by apply H2|].
    split; [intros z Hz; rewrite H4ne by done; by apply H3|].
    split; [intros z Hz; by apply H4|].
    split; [|split; [|split]].
    - intros z Hsel Hz. rewrite Hsel, Hz, _clamp_int in H1. injection H1 as <-.
      rewrite Hmode by (rewrite list_elem_of_In; simpl; tauto).
      by rewrite lookup_insert_eq.
    - intros key v z Hsel Hkey Hv. rewrite Hsel in H1.
      rewrite Hmode.
      + by eapply bare_rgb_lookup.
      + revert Hkey. unfold MODE_KEYS. rewrite !elem_of_cons, elem_of_nil.
        intros [Hk|[Hk|[Hk|[Hk|[Hk|[]]]]]]; injection Hk as -> _; tauto.
    - intros l i key z Hsel Hl Hi Hz. rewrite Hsel, Hl in H1.
      rewrite Hmode.
      + by eapply _set_rgbw_lookup.
      + apply (Hin i). destruct i as [|[|[|[|i]]]]; simplify_eq/=; done.
    - intros l i key z Hsel Hl Hi Hz. rewrite Hsel, Hl in H1.
      rewrite Hmode; [by eapply _set_rgbww_lookup|by eapply Hin].
  }
Qed.

Lemma pilot_clamps_witness :
  state Scenario.S4 = true ∧
  shaped Scenario.S4 = true ∧
  invalid Scenario.S4 = false ∧
  (∃ p, to_dict Scenario.S4 = Ok p) ∧
  to_dict Scenario.S4 = Ok Scenario.S4_params ∧
  Scenario.S4_params !! "dimming" = Some (VInt 10) ∧
  Scenario.S4_params !! "speed" = Some (VInt 200) ∧
  Scenario.S4_params !! "ratio" = Some (VInt 0).
Proof.
  assert (Hs : state Scenario.S4 = true) by reflexivity.
  assert (Hsh : shaped Scenario.S4 = true) by reflexivity.
  assert (Hinv : invalid Scenario.S4 = false) by reflexivity.
  destruct (pilot_clamps Scenario.S4 Hs) as [Hok Hval].
  assert (Hp : to_dict Scenario.S4 = Ok Scenario.S4_params)
    by (vm_compute; reflexivity).
  destruct (Hval Scenario.S4_params Hp) as (_ & _ & Hd & Hsp & Hr & _).
  exact (conj Hs (conj Hsh (conj Hinv (conj (Hok Hsh Hinv) (conj Hp
           (conj (Hd 5 eq_refl)
              (conj (Hsp 9999 eq_refl) (Hr (-10) eq_refl)))))))).
Defined.

(** C8, on the code.  [PilotBuilder(r=0.0)] uses the non-integer [0.0]
    for [r], so by the claim it raises invalid-parameter; the constructor
    returns, with [r = g = b = 0].  Lines 68-70 pass [r or 0] to [_clamp],
    which makes every falsy [r] the integer 0 before the type is tested.
    The type test is applied to the argument itself everywhere else: a
    non-integer [r] that is not falsy is rejected, and so is the falsy
    float given as [warm_white], as [brightness] or inside [rgbw]. *)
Theorem pilot_falsy_component_not_rejected :
  invalid_stated Scenario.falsy_float = true ∧
  to_dict Scenario.falsy_float = Ok Scenario.falsy_float_params ∧
  ¬ raises_invalid_iff invalid_stated Scenario.falsy_float ∧
  (∀ v, is_None v = false → truthy v = false →
     to_dict (Scenario.bare_r v) = Ok Scenario.falsy_float_params) ∧
  (∀ v, truthy v = true → isinstance_int v = false →
     to_dict (Scenario.bare_r v) = Raise WizLightInvalidParameter) ∧
  to_dict Scenario.truthy_float = Raise WizLightInvalidParameter ∧
  to_dict Scenario.falsy_warm_white = Raise WizLightInvalidParameter ∧
  to_dict Scenario.falsy_brightness = Raise WizLightInvalidParameter ∧
  to_dict Scenario.falsy_rgbw = Raise WizLightInvalidParameter.
Proof.
  assert (Hp : to_dict Scenario.falsy_float = Ok Scenario.falsy_float_params)
    by (vm_compute; reflexivity).
  split; [reflexivity|]. split; [exact Hp|]. split.
  { intros [[_ H] _]. rewrite Hp in H. discriminate H. reflexivity. }
  split.
  { intros v Hn Ht. unfold to_dict, __init__, set_mode, Scenario.bare_r.
    cbn [state scene rgbww rgbw r g b warm_white cold_white colortemp
         brightness speed ratio is_None negb orb].
    rewrite Hn. unfold py_or. rewrite Ht. reflexivity. }
  split.
  { intros v Ht Hi. unfold to_dict, __init__, set_mode, Scenario.bare_r.
    cbn [state scene rgbww rgbw r g b warm_white cold_white colortemp
         brightness speed ratio is_None negb orb].
    assert (Hn : is_None v = false) by (by destruct v).
    rewrite Hn. unfold py_or. rewrite Ht. unfold _clamp. rewrite Hi.
    reflexivity. }
  repeat split; vm_compute; reflexivity.
Qed.

End PilotBuilderFacts.

(** ** The pilot parser *)

Section PilotParserFacts.
Import PowerSpec.
Variable float_of_str : string → option Q.

(** When [pc] is present and truthy, its float value is returned and [w]
    is not consulted. *)
Lemma get_power_pc_truthy (_result : gmap string value) pc :
  _result !! "pc" = Some pc → truthy pc = true →
  get_power float_of_str _result =
    q ← py_float float_of_str pc; mret (Some q).
Proof.
  intros Hpc Ht. unfold get_power, dict_get, py_or. rewrite Hpc, Ht.
  destruct pc; simpl in *; try done.
Qed.

(** C10, on the code.  With [pc = 0] present, [get_power] does not return
    the float value of [pc]: [0 or w] falls through to [w], so
    [{"pc": 0, "w": 8.5}] yields 8.5 and [{"pc": 0}] yields [None],
    where the claim says 0.0 in both cases. *)
Theorem get_power_pc_zero_falls_through :
  get_power float_of_str pc_zero_w = Ok (Some (17 # 2)%Q) ∧
  get_power_stated float_of_str pc_zero_w = Ok (Some 0%Q) ∧
  get_power float_of_str pc_zero = Ok None ∧
  get_power_stated float_of_str pc_zero = Ok (Some 0%Q).
Proof. repeat split; reflexivity. Qed.

End PilotParserFacts.

(** ** The push manager *)

Section PushManagerFacts.
Import PushManager PushSpec.

Implicit Types (s : gmap string (list callback)) (l : list callback)
  (cb : callback) (k : string).

Lemma remove_notin cb l : cb ∉ l → remove cb l = l.
Proof.
  induction l as [|y l IH]; [done|]. intros Hnin. simpl.
  rewrite bool_decide_eq_false_2 by (intros ->; apply Hnin; left).
  rewrite IH; [done|]. intros Hin. apply Hnin. by right.
Qed.

Lemma occurrences_cons cb y l :
  occurrences cb (y :: l) =
    (if bool_decide (y = cb) then S (occurrences cb l)
     else occurrences cb l).
Proof.
  unfold occurrences. rewrite filter_cons.
  destruct (decide (y = cb)) as [->|Hne].
  - by rewrite bool_decide_eq_true_2.
  - by rewrite bool_decide_eq_false_2.
Qed.

Lemma occurrences_0 cb l : occurrences cb l = 0%nat → cb ∉ l.
Proof.
  induction l as [|y l IH]; [intros _; apply not_elem_of_nil|].
  rewrite occurrences_cons. case_bool_decide; [done|].
  intros H0. apply not_elem_of_cons. split; [congruence|by apply IH].
Qed.

(** [remove] takes away exactly one occurrence. *)
Lemma occurrences_remove cb l :
  occurrences cb (remove cb l) = pred (occurrences cb l).
Proof.
  induction l as [|y l IH]; [done|]. simpl. rewrite occurrences_cons.
  case_bool_decide as Hy; [done|].
  by rewrite occurrences_cons, bool_decide_eq_false_2.
Qed.

(** A disposer whose callback is no longer in the list of its MAC
    changes nothing the second time. *)
Lemma unsubscribe_twice k cb s :
  (∀ l, s !! k = Some l → cb ∉ remove cb l) →
  unsubscribe k cb (unsubscribe k cb s) = unsubscribe k cb s.
Proof.
  intros Hl. unfold unsubscribe at 2 3.
  destruct (s !! k) as [l|] eqn:Hk; simpl.
  - specialize (Hl l eq_refl). case_bool_decide as Hnil.
    + unfold unsubscribe. by rewrite lookup_delete_eq.
    + unfold unsubscribe. rewrite lookup_insert_eq; simpl.
      rewrite (remove_notin cb (remove cb l)) by done.
      rewrite bool_decide_eq_false_2 by done.
      by rewrite insert_insert_eq.
  - unfold unsubscribe. by rewrite Hk.
Qed.

Lemma subscribe_lookup m cb s k :
  subscribe m cb s !! k =
    if bool_decide (k = normalize m)
    then Some (default [] (s !! k) ++ [cb])
    else s !! k.
Proof.
  destruct (decide (k = normalize m)) as [->|Hk];
    [rewrite bool_decide_eq_true_2 by done
    |rewrite bool_decide_eq_false_2 by done]; unfold subscribe.
  - destruct (s !! normalize m) as [l|] eqn:E.
    + rewrite bool_decide_eq_true_2 by eauto. rewrite E.
      by rewrite lookup_insert_eq.
    + rewrite bool_decide_eq_false_2 by (by intros []).
      rewrite lookup_insert_eq. by rewrite lookup_insert_eq.
  - destruct (s !! normalize m) as [l|] eqn:E.
    + rewrite bool_decide_eq_true_2 by eauto. rewrite E.
      by rewrite lookup_insert_ne.
    + rewrite bool_decide_eq_false_2 by (by intros []).
      rewrite lookup_insert_eq. rewrite !lookup_insert_ne by done. done.
Qed.

Lemma subscribe_all_snoc calls c s :
  subscribe_all (calls ++ [c]) s = subscribe c.1 c.2 (subscribe_all calls s).
Proof. unfold subscribe_all. by rewrite foldl_app. Qed.

Lemma registered_snoc k calls c :
  registered k (calls ++ [c]) =
    registered k calls ++ (if bool_decide (normalize c.1 = k) then [c.2] else []).
Proof.
  unfold registered. rewrite filter_app, fmap_app. f_equal.
  rewrite filter_cons, filter_nil. case_bool_decide; by case_decide.
Qed.

(** The registry after a sequence of [subscribe] calls: every MAC holds
    its callbacks in registration order, and no list is empty. *)
Lemma subscribe_all_lookup calls k :
  subscribe_all calls ∅ !! k =
    match registered k calls with
    | [] => None
    | l => Some l
    end.
Proof.
  induction calls as [|c calls IH] using rev_ind; [done|].
  rewrite subscribe_all_snoc, subscribe_lookup, registered_snoc, IH.
  case_bool_decide as Hk.
  - rewrite bool_decide_eq_true_2 by done.
    destruct (registered k calls); done.
  - rewrite bool_decide_eq_false_2 by done. by rewrite app_nil_r.
Qed.

(** C9, as the code has it.  After any sequence of [subscribe] calls,
    invoking a disposer a second time leaves the registry exactly as it
    was after the first invocation, provided the disposer's callback was
    subscribed exactly once under that MAC. *)
Theorem double_unsubscribe_single calls c :
  c ∈ calls →
  occurrences c.2 (registered (normalize c.1) calls) = 1%nat →
  second_call_is_noop calls c.
Proof.
  intros _ Hone. unfold second_call_is_noop, disposer.
  apply unsubscribe_twice. intros l Hl.
  rewrite subscribe_all_lookup in Hl.
  assert (l = registered (normalize c.1) calls) as ->.
  { destruct (registered (normalize c.1) calls); congruence. }
  apply occurrences_0. by rewrite occurrences_remove, Hone.
Qed.

Lemma double_unsubscribe_single_witness :
  ("AA:BB:CC:DD:EE:FF", 1%nat) ∈ stacked ++ [("AA:BB:CC:DD:EE:FF", 1%nat)] ∧
  occurrences 1%nat
    (registered (normalize "AA:BB:CC:DD:EE:FF")
       (stacked ++ [("AA:BB:CC:DD:EE:FF", 1%nat)])) = 1%nat ∧
  second_call_is_noop (stacked ++ [("AA:BB:CC:DD:EE:FF", 1%nat)])
    ("AA:BB:CC:DD:EE:FF", 1%nat).
Proof.
  assert (Hin : ("AA:BB:CC:DD:EE:FF", 1%nat)
                ∈ stacked ++ [("AA:BB:CC:DD:EE:FF", 1%nat)])
    by (right; right; left).
  assert (Hone : occurrences 1%nat
            (registered (normalize "AA:BB:CC:DD:EE:FF")
               (stacked ++ [("AA:BB:CC:DD:EE:FF", 1%nat)])) = 1%nat)
    by (vm_compute; reflexivity).
  exact (conj Hin (conj Hone
           (double_unsubscribe_single _ ("AA:BB:CC:DD:EE:FF", 1%nat)
              Hin Hone))).
Defined.

(** C9, as stated, fails: with the same callback subscribed twice under
    one MAC, the second invocation of a disposer removes the other
    occurrence and with it the MAC entry. *)
Lemma double_unsubscribe_stacked_fails :
  ("aabbccddeeff", 0%nat) ∈ stacked ∧
  ¬ second_call_is_noop stacked ("aabbccddeeff", 0%nat).
Proof.
  split; [left|]. unfold second_call_is_noop. intros H.
  apply (f_equal (λ s : gmap string (list callback), s !! "aabbccddeeff"))
    in H.
  vm_compute in H. discriminate H.
Qed.

(** C3, on the code.  [subscribe] strips the separators of a MAC, but the
    dispatch of a syncPilot datagram only lowercases [params.mac]: a
    callback subscribed under [aabbccddeeff] is not invoked for the
    datagram whose MAC is [AA:BB:CC:DD:EE:FF]; it is invoked once, with
    the datagram's params, when the MAC differs in case only. *)
Theorem sync_pilot_separators_not_stripped cb :
  subscribe "AA:BB:CC:DD:EE:FF" cb ∅ = subscribe "aabbccddeeff" cb ∅ ∧
  _on_message (subscribe "aabbccddeeff" cb ∅) (S7 "AA:BB:CC:DD:EE:FF")
    = Ok [] ∧
  _on_message (subscribe "aabbccddeeff" cb ∅) (S7 "AABBCCDDEEFF")
    = Ok [(cb, S7_params "AABBCCDDEEFF")].
Proof. repeat split; vm_compute; reflexivity. Qed.

End PushManagerFacts.

(** ** The retry client *)

Section RetryFacts.
Import UDPClient RetrySpec.

Variable net : nat → outcome.
Variable timeout : Q.

Implicit Types (delays : list Q) (log : list event) (n k : nat).

Lemma retryable_spec o :
  timed_out_or_disconnected o → ∃ exc, o = Failed exc ∧ retryable exc = true.
Proof. intros [->| ->]; eauto. Qed.

Lemma attempts_app log log' :
  attempts (log ++ log') = (attempts log + attempts log')%nat.
Proof. unfold attempts. by rewrite filter_app, length_app. Qed.

Lemma sleeps_app log log' : sleeps (log ++ log') = sleeps log ++ sleeps log'.
Proof. apply omap_app. Qed.

Lemma send_loop_cons delay delays last_exc n log :
  send_loop net timeout (delay :: delays) last_exc n log =
    let log := log ++ iteration timeout delay in
    match net n with
    | Failed exc =>
        if retryable exc
        then send_loop net timeout delays (Some exc) (S n) log
        else (Raise exc, log)
    | Response response =>
        if bool_decide (is_Some (response !! "error"))
        then (Raise WizLightCommandError, log)
        else (Ok response, log)
    end.
Proof.
  unfold iteration; simpl. destruct (0 <? Qnum delay)%Z; simpl;
    rewrite <- ?app_assoc; reflexivity.
Qed.

Lemma attempts_iteration delay : attempts (iteration timeout delay) = 1%nat.
Proof. unfold iteration. by destruct (0 <? Qnum delay)%Z. Qed.

Lemma sleeps_iteration delay :
  sleeps (iteration timeout delay) = if (0 <? Qnum delay)%Z then [delay] else [].
Proof. unfold iteration. by destruct (0 <? Qnum delay)%Z. Qed.

(** An error reply on attempt [k], after [k] retryable failures, ends
    the loop with command-error after exactly [k + 1] attempts. *)
Lemma send_loop_command_error delays k last_exc n log response :
  (k < length delays)%nat →
  (∀ j, (j < k)%nat → timed_out_or_disconnected (net (n + j))) →
  net (n + k) = Response response →
  is_Some (response !! "error") →
  ∃ log',
    send_loop net timeout delays last_exc n log
      = (Raise WizLightCommandError, log') ∧
    attempts log' = (attempts log + k + 1)%nat.
Proof.
  revert k last_exc n log.
  induction delays as [|delay delays IH]; intros k last_exc n log Hk Hfail Hk' Herr;
    [simpl in Hk; lia|].
  rewrite send_loop_cons; cbv zeta.
  destruct k as [|k].
  - rewrite Nat.add_0_r in Hk'. rewrite Hk'.
    rewrite bool_decide_eq_true_2 by done.
    eexists; split; [done|].
    rewrite attempts_app, attempts_iteration. lia.
  - destruct (retryable_spec _ (Hfail 0%nat ltac:(lia))) as (exc & Hn & Hr).
    rewrite Nat.add_0_r in Hn. rewrite Hn, Hr.
    destruct (IH k (Some exc) (S n) (log ++ iteration timeout delay)) as (log' & -> & Ha).
    + simpl in Hk. lia.
    + intros j Hj. replace (S n + j)%nat with (n + S j)%nat by lia.
      apply Hfail. lia.
    + by replace (S n + k)%nat with (n + S k)%nat by lia.
    + done.
    + eexists; split; [done|].
      rewrite Ha, attempts_app, attempts_iteration. lia.
Qed.

(** When every attempt fails with a timeout or a connection error, the
    loop walks the whole schedule and raises timeout-error chained from
    the failure of the last attempt. *)
Lemma send_loop_exhausted delays last_exc n log :
  (∀ j, (j < length delays)%nat → timed_out_or_disconnected (net (n + j))) →
  ∃ log' cause,
    send_loop net timeout delays last_exc n log
      = (Raise (WizLightTimeOutError cause), log') ∧
    attempts log' = (attempts log + length delays)%nat ∧
    sleeps log' = sleeps log ++ filter (λ d, 0 < Qnum d) delays ∧
    match delays with
    | [] => cause = last_exc
    | _ => ∃ exc, net (n + length delays - 1) = Failed exc ∧ cause = Some exc
    end.
Proof.
  revert last_exc n log.
  induction delays as [|delay delays IH]; intros last_exc n log Hfail.
  - exists log, last_exc. simpl. rewrite Nat.add_0_r, app_nil_r. done.
  - rewrite send_loop_cons; cbv zeta.
    destruct (retryable_spec _ (Hfail 0%nat ltac:(simpl; lia)))
      as (exc & Hn & Hr).
    rewrite Nat.add_0_r in Hn. rewrite Hn, Hr.
    destruct (IH (Some exc) (S n) (log ++ iteration timeout delay))
      as (log' & cause & -> & Ha & Hs & Hc).
    { intros j Hj. replace (S n + j)%nat with (n + S j)%nat by lia.
      apply Hfail. simpl. lia. }
    exists log', cause. split; [done|]. split; [|split].
    + rewrite Ha, attempts_app, attempts_iteration. simpl. lia.
    + rewrite Hs, sleeps_app, sleeps_iteration, filter_cons, <- app_assoc.
      f_equal. destruct (Z.ltb_spec 0 (Qnum delay)); case_decide; done || lia.
    + destruct delays as [|d' delays'].
      * subst cause. exists exc. split; [|done].
        simpl. by replace (n + 1 - 1)%nat with n by lia.
      * destruct Hc as (exc' & Hnet & ->). exists exc'. split; [|done].
        rewrite <- Hnet. f_equal. simpl. lia.
Qed.

(** C2.  [send] with the default schedule [0, 0.5, 1.5, 3.0, 6.0]:
    a response with an [error] key on some attempt, the earlier attempts
    having ended in a timeout or connection-error, raises command-error
    at once, with no further attempt; and when all five attempts end in
    a timeout or connection-error, it makes exactly five attempts, sleeps
    the four positive delays, and raises timeout-error chained from the
    failure of the last attempt. *)
Theorem send_failure_classification :
  (∀ k response,
     (k < 5)%nat →
     (∀ j, (j < k)%nat → timed_out_or_disconnected (net j)) →
     net k = Response response →
     is_Some (response !! "error") →
     ∃ log,
       send net timeout (__init__ None) = (Raise WizLightCommandError, log) ∧
       attempts log = (k + 1)%nat) ∧
  ((∀ j, (j < 5)%nat → timed_out_or_disconnected (net j)) →
   ∃ log exc,
     net 4%nat = Failed exc ∧
     send net timeout (__init__ None)
       = (Raise (WizLightTimeOutError (Some exc)), log) ∧
     attempts log = 5%nat ∧
     sleeps log = [1 # 2; 3 # 2; 3; 6]%Q).
Proof.
  split.
  - intros k response Hk Hfail Hresp Herr.
    destruct (send_loop_command_error (__init__ None) k None 0 [] response)
      as (log & Hsend & Ha); try done.
    exists log. split; [done|]. rewrite Ha. simpl. lia.
  - intros Hfail.
    destruct (send_loop_exhausted (__init__ None) None 0 [])
      as (log & cause & Hsend & Ha & Hs & exc & Hnet & ->); [done|].
    exists log, exc. repeat split; done.
Qed.

End RetryFacts.

Lemma send_failure_classification_witness :
  (∃ log,
     UDPClient.send RetrySpec.error_on_third 11%Q (UDPClient.__init__ None)
       = (Raise WizLightCommandError, log) ∧
     UDPClient.attempts log = 3%nat) ∧
  (∃ log exc,
     RetrySpec.silent 4%nat = UDPClient.Failed exc ∧
     UDPClient.send RetrySpec.silent 11%Q (UDPClient.__init__ None)
       = (Raise (WizLightTimeOutError (Some exc)), log) ∧
     UDPClient.attempts log = 5%nat ∧
     RetrySpec.sleeps log = [1 # 2; 3 # 2; 3; 6]%Q).
Proof.
  split.
  - apply (proj1 (send_failure_classification RetrySpec.error_on_third 11%Q)
             2%nat RetrySpec.error_reply).
    + lia.
    + intros j Hj. left. destruct j as [|[|j]]; [reflexivity|reflexivity|lia].
    + reflexivity.
    + vm_compute. eauto.
  - apply (proj2 (send_failure_classification RetrySpec.silent 11%Q)).
    intros j _. by left.
Defined.

(** ** The device-type detector *)

Section DetectFacts.
Import models devices DetectSpec.

Implicit Types (white_range : option (gmap string value)).

(** The detector never sets [white_channels]: every descriptor it builds
    has the dataclass default. *)
Lemma match_patterns_white_channels patterns module_name name_upper white_range :
  white_channels
    (match_patterns patterns module_name name_upper white_range) = 1.
Proof.
  induction patterns as [|[[[pattern bulb_class] features] kelvin] patterns IH];
    simpl; [done|]. by destruct (str_in pattern name_upper).
Qed.

Lemma detect_bulb_type_white_channels module_name white_range :
  white_channels (detect_bulb_type module_name white_range) = 1.
Proof.
  unfold detect_bulb_type.
  destruct (_KNOWN_MODULES !! module_name) as [[bulb_class kelvin]|];
    [done|apply match_patterns_white_channels].
Qed.

(** C4, as the code has it.  The descriptor cached by [get_bulbtype] has
    [white_channels = 2] when the uppercased module name contains
    "RGBWW", [1] when it contains "RGBW" but not "RGBWW", and [1], the
    default of the descriptor, otherwise. *)
Theorem get_bulbtype_white_channels module_name white_range fwVersion :
  white_channels (bulb.get_bulbtype module_name white_range fwVersion) =
    if str_in "RGBWW" (upper module_name) then 2
    else if str_in "RGBW" (upper module_name) then 1
    else 1.
Proof.
  unfold bulb.get_bulbtype.
  destruct (str_in "RGBWW" (upper module_name)); [done|].
  destruct (str_in "RGBW" (upper module_name)); [done|].
  apply detect_bulb_type_white_channels.
Qed.

(** C4, as stated, fails on scenario S5: the name contains neither
    "RGBW" nor "RGBWW", and [white_channels] is 1, not 0. *)
Lemma get_bulbtype_white_channels_not_zero :
  white_channels_stated "ESP01_SHRGB3_01ABI" = 0 ∧
  white_channels
    (bulb.get_bulbtype "ESP01_SHRGB3_01ABI" (Some S5_white_range) (VStr ""))
    = 1 ∧
  white_channels
    (bulb.get_bulbtype "ESP01_SHRGB3_01ABI" (Some S5_white_range) (VStr ""))
    ≠ white_channels_stated "ESP01_SHRGB3_01ABI".
Proof. repeat split; vm_compute; congruence. Qed.

Lemma override_kelvin_min_max d lo hi kelvin :
  d !! "min" = Some lo → d !! "max" = Some hi →
  override_kelvin (Some d) kelvin = Some (mkKelvinRange lo hi).
Proof.
  intros Hlo Hhi. unfold override_kelvin. rewrite Hlo, Hhi.
  rewrite bool_decide_eq_false_2; [done|].
  intros Hsize. apply map_size_empty_iff in Hsize. by subst d.
Qed.

(** C5.  For a module name that is a key of the known-modules table, the
    descriptor carries the input name and the class of the table; and a
    [white_range] with [min] and [max] replaces the Kelvin range by
    [{min, max}] and changes nothing else with respect to the call
    without [white_range]. *)
Theorem detect_known_module module_name bulb_class kelvin white_range :
  _KNOWN_MODULES !! module_name = Some (bulb_class, kelvin) →
  name (detect_bulb_type module_name white_range) = module_name ∧
  bulb_type (detect_bulb_type module_name white_range) = bulb_class ∧
  (∀ d lo hi,
     white_range = Some d → d !! "min" = Some lo → d !! "max" = Some hi →
     detect_bulb_type module_name white_range =
       set_kelvin_range (Some (mkKelvinRange lo hi))
         (detect_bulb_type module_name None)).
Proof.
  intros Hknown. unfold detect_bulb_type. rewrite Hknown.
  split; [done|]. split; [done|].
  intros d lo hi -> Hlo Hhi.
  by rewrite (override_kelvin_min_max d lo hi).
Qed.

Lemma detect_known_module_witness :
  _KNOWN_MODULES !! "ESP01_SHRGB3_01ABI" = Some (RGB, K 2200 6500) ∧
  name (detect_bulb_type "ESP01_SHRGB3_01ABI" (Some S5_white_range))
    = "ESP01_SHRGB3_01ABI" ∧
  bulb_type (detect_bulb_type "ESP01_SHRGB3_01ABI" (Some S5_white_range))
    = RGB ∧
  detect_bulb_type "ESP01_SHRGB3_01ABI" (Some S5_white_range) =
    set_kelvin_range (Some (mkKelvinRange (VInt 2700) (VInt 5000)))
      (detect_bulb_type "ESP01_SHRGB3_01ABI" None).
Proof.
  assert (Hk : _KNOWN_MODULES !! "ESP01_SHRGB3_01ABI"
               = Some (RGB, K 2200 6500)) by (vm_compute; reflexivity).
  destruct (detect_known_module "ESP01_SHRGB3_01ABI" RGB (K 2200 6500)
              (Some S5_white_range) Hk) as (Hn & Hc & Hw).
  exact (conj Hk (conj Hn (conj Hc
           (Hw S5_white_range (VInt 2700) (VInt 5000) eq_refl
               eq_refl eq_refl)))).
Defined.

End DetectFacts.

(** * Further properties *)

(** ** The scene registry *)

Section SceneFacts.
Import effects.

Lemma lower_ascii_idemp c : lower_ascii (lower_ascii c) = lower_ascii c.
Proof. destruct c as [[] [] [] [] [] [] [] []]; reflexivity. Qed.

Lemma lower_upper_ascii c : lower_ascii (upper_ascii c) = lower_ascii c.
Proof. destruct c as [[] [] [] [] [] [] [] []]; reflexivity. Qed.

Lemma lower_idemp s : lower (lower s) = lower s.
Proof. induction s as [|c s IH]; simpl; [done|]. by rewrite lower_ascii_idemp, IH. Qed.

Lemma lower_upper s : lower (upper s) = lower s.
Proof. induction s as [|c s IH]; simpl; [done|]. by rewrite lower_upper_ascii, IH. Qed.

Lemma SCENES_items_lookup i name :
  SCENES !! i = Some name ↔ (i, name) ∈ SCENES_items.
Proof.
  unfold SCENES. symmetry. apply elem_of_list_to_map.
  apply (bool_decide_unpack _). vm_compute. reflexivity.
Qed.

(** The reverse table maps the lowercased name of every listed scene to
    an id listed with a name of that lowercase form. *)
Lemma name_table_sound items (m : gmap string Z) k i :
  foldl (λ m '(id_, name), <[lower name := id_]> m) m items !! k = Some i →
  m !! k = Some i ∨ ∃ name, (i, name) ∈ items ∧ lower name = k.
Proof.
  revert m. induction items as [|[id_ name] items IH]; intros m; simpl; [by left|].
  intros H. apply IH in H as [H|(name' & Hin & Hk)].
  - rewrite lookup_insert in H. case_decide as Hk.
    + injection H as ->. right. exists name. split; [left|done].
    + by left.
  - right. exists name'. split; [by right|done].
Qed.

(** X1.  Every spelling of a registered scene name that differs from it in
    letter case only resolves to the id of that scene: looking up the name
    of scene [i] gives back [i]. *)
Theorem scene_name_resolves i name s :
  get_scene_name i = Some name → lower s = lower name →
  get_id_from_scene_name s = Some i.
Proof.
  unfold get_scene_name, get_id_from_scene_name. intros Hname ->.
  apply SCENES_items_lookup in Hname. unfold SCENES_items in Hname.
  repeat (apply elem_of_cons in Hname as [Hname|Hname];
          [injection Hname as -> ->; vm_compute; reflexivity|]).
  by apply elem_of_nil in Hname.
Qed.

Lemma scene_name_resolves_witness :
  get_scene_name 36 = Some "Snowy sky" ∧
  lower "SNOWY sky" = lower "Snowy sky" ∧
  get_id_from_scene_name "SNOWY sky" = Some 36.
Proof.
  assert (H1 : get_scene_name 36 = Some "Snowy sky") by reflexivity.
  assert (H2 : lower "SNOWY sky" = lower "Snowy sky") by reflexivity.
  exact (conj H1 (conj H2 (scene_name_resolves 36 "Snowy sky" "SNOWY sky" H1 H2))).
Defined.

Lemma scene_id_lookup_sound_aux s i :
  get_id_from_scene_name s = Some i →
  ∃ name, SCENES !! i = Some name ∧ lower name = lower s.
Proof.
  unfold get_id_from_scene_name, _NAME_TO_ID. intros H.
  apply name_table_sound in H as [H|(name & Hin & Hk)]; [done|].
  exists name. split; [|done]. by apply SCENES_items_lookup.
Qed.

(** X2.  For an ASCII argument, a name lookup that succeeds returns the
    id of a registered scene whose name equals the argument up to letter
    case, and the upper-cased and lower-cased spellings of the argument
    resolve to the same id. *)
Theorem scene_id_lookup_sound s i :
  ascii_only s = true →
  get_id_from_scene_name s = Some i →
  (∃ name, get_scene_name i = Some name ∧ lower name = lower s) ∧
  get_id_from_scene_name (upper s) = Some i ∧
  get_id_from_scene_name (lower s) = Some i.
Proof.
  intros _ H. split; [by apply scene_id_lookup_sound_aux|].
  unfold get_id_from_scene_name in *. by rewrite lower_upper, lower_idemp.
Qed.

Lemma scene_id_lookup_sound_witness :
  ascii_only "club" = true ∧
  get_id_from_scene_name "club" = Some 26 ∧
  (∃ name, get_scene_name 26 = Some name ∧ lower name = lower "club") ∧
  get_id_from_scene_name (upper "club") = Some 26 ∧
  get_id_from_scene_name (lower "club") = Some 26.
Proof.
  assert (H : get_id_from_scene_name "club" = Some 26) by (vm_compute; reflexivity).
  exact (conj eq_refl (conj H (scene_id_lookup_sound "club" 26 eq_refl H))).
Defined.

Lemma foldl_registry_subseteq (reg : gmap Z string) ids (m : gmap Z string) :
  m ⊆ reg →
  foldl (λ m id_, match reg !! id_ with
                  | Some name => <[id_ := name]> m
                  | None => m
                  end) m ids ⊆ reg.
Proof.
  revert m. induction ids as [|id_ ids IH]; intros m Hm; [done|].
  cbn [foldl]. apply IH. destruct (reg !! id_) as [name|] eqn:E; [|done].
  by apply insert_subseteq_l.
Qed.

Lemma scenes_of_ids_sound ids : scenes_of_ids ids ⊆ SCENES.
Proof. apply (foldl_registry_subseteq SCENES), map_empty_subseteq. Qed.

(** X3.  For every class string, the scenes offered for the class are
    entries of the registry, with the registry's names; for an ASCII
    class string the letter case does not matter; a socket gets no scene;
    and a class that is neither TW, DW nor SOCKET (RGB, FANDIM, anything
    unknown) gets the whole registry. *)
Theorem scenes_for_class_from_registry bulb_class :
  get_scenes_for_bulb_type bulb_class ⊆ SCENES ∧
  (ascii_only bulb_class = true →
   get_scenes_for_bulb_type (lower bulb_class)
     = get_scenes_for_bulb_type bulb_class ∧
   get_scenes_for_bulb_type (upper bulb_class)
     = get_scenes_for_bulb_type bulb_class) ∧
  (upper bulb_class = "SOCKET" → get_scenes_for_bulb_type bulb_class = ∅) ∧
  (upper bulb_class ∉ ["TW"; "DW"; "SOCKET"] →
   get_scenes_for_bulb_type bulb_class = SCENES).
Proof.
  assert (Hlow : ∀ s, upper (lower s) = upper s).
  { induction s as [|c s IH]; simpl; [done|]. rewrite IH. f_equal.
    destruct c as [[] [] [] [] [] [] [] []]; reflexivity. }
  assert (Hup : ∀ s, upper (upper s) = upper s).
  { induction s as [|c s IH]; simpl; [done|]. rewrite IH. f_equal.
    destruct c as [[] [] [] [] [] [] [] []]; reflexivity. }
  split; [|split; [|split]].
  - unfold get_scenes_for_bulb_type.
    repeat match goal with |- context [if ?c then _ else _] => destruct c end;
      apply scenes_of_ids_sound || apply map_empty_subseteq.
  - intros _. unfold get_scenes_for_bulb_type. by rewrite Hlow, Hup.
  - unfold get_scenes_for_bulb_type. by intros ->.
  - unfold get_scenes_for_bulb_type. intros Hnot.
    assert (scenes_of_ids SCENES_RGB = SCENES) as -> by (vm_compute; reflexivity).
    destruct (String.eqb (upper bulb_class) "RGB" || String.eqb (upper bulb_class) "FANDIM");
      [done|].
    destruct (String.eqb_spec (upper bulb_class) "TW") as [E|_];
      [exfalso; apply Hnot; rewrite E; left|].
    destruct (String.eqb_spec (upper bulb_class) "DW") as [E|_];
      [exfalso; apply Hnot; rewrite E; right; left|].
    destruct (String.eqb_spec (upper bulb_class) "SOCKET") as [E|_];
      [exfalso; apply Hnot; rewrite E; right; right; left|].
    done.
Qed.

Lemma scenes_for_class_from_registry_witness :
  upper "socket" = "SOCKET" ∧ (upper "fandim" ∉ ["TW"; "DW"; "SOCKET"]) ∧
  ascii_only "Tw" = true ∧
  get_scenes_for_bulb_type "socket" = ∅ ∧
  get_scenes_for_bulb_type "fandim" = SCENES ∧
  get_scenes_for_bulb_type (lower "Tw") = get_scenes_for_bulb_type "Tw" ∧
  get_scenes_for_bulb_type (upper "Tw") = get_scenes_for_bulb_type "Tw".
Proof.
  assert (H1 : upper "socket" = "SOCKET") by reflexivity.
  assert (H2 : upper "fandim" ∉ ["TW"; "DW"; "SOCKET"]).
  { rewrite list_elem_of_In. simpl. intuition discriminate. }
  exact (conj H1 (conj H2 (conj eq_refl
    (conj (proj1 (proj2 (proj2 (scenes_for_class_from_registry "socket"))) H1)
       (conj (proj2 (proj2 (proj2 (scenes_for_class_from_registry "fandim")))
                H2)
          (proj1 (proj2 (scenes_for_class_from_registry "Tw")) eq_refl)))))).
Defined.

End SceneFacts.

(** ** The pilot parser, on its own *)

Section ParserFacts.
Import PilotParser.
Variable int_of_str : string → option Z.

Implicit Types (p : gmap string value).

(** X4.  [get_scene_id] never reports scene 0: a missing, null or zero
    [sceneId] reads as no scene, and a reported id is the non-zero integer
    value of the stored [sceneId]; [get_scene_name] reports a name only
    for a reported id that is in the registry. *)
Theorem parser_scene_id_nonzero p :
  (∀ i, get_scene_id int_of_str p = Ok (Some i) →
        i ≠ 0 ∧ py_int int_of_str (dict_get p "sceneId" VNone) = Ok i) ∧
  (p !! "sceneId" = None ∨ p !! "sceneId" = Some VNone
   ∨ p !! "sceneId" = Some (VInt 0) →
   get_scene_id int_of_str p = Ok None ∧
   get_scene_name int_of_str p = Ok None) ∧
  (∀ name, get_scene_name int_of_str p = Ok (Some name) →
     ∃ i, get_scene_id int_of_str p = Ok (Some i) ∧
          SCENES !! i = Some name).
Proof.
  unfold PilotParser.get_scene_name, get_scene_id.
  split; [|split].
  - intros i. destruct (is_None (dict_get p "sceneId" VNone)); simpl; [done|].
    destruct (py_int int_of_str _) as [z|] eqn:E; simpl; [|done].
    destruct (Z.eqb_spec z 0); simpl; [done|]. by intros [= <-].
  - unfold dict_get. intros [->|[->| ->]]; done.
  - intros name. destruct (is_None (dict_get p "sceneId" VNone)); simpl; [done|].
    destruct (py_int int_of_str _) as [z|] eqn:E; simpl; [|done].
    destruct (Z.eqb_spec z 0); simpl; [done|]. intros [= H]. eauto.
Qed.

(** X5.  The three colour getters agree: they report no colour in exactly
    the same states, namely when one of [r], [g], [b] is missing or null;
    and when [get_rgbww] reports [(r, g, b, w, c)], [get_rgbw] reports
    [(r, g, b, w)] and [get_rgb] reports [(r, g, b)]. *)
Theorem parser_colour_getters_agree p :
  (get_rgb int_of_str p = Ok None ↔
   is_None (dict_get p "r" VNone) || is_None (dict_get p "g" VNone)
   || is_None (dict_get p "b" VNone) = true) ∧
  (get_rgb int_of_str p = Ok None ↔ get_rgbw int_of_str p = Ok None) ∧
  (get_rgb int_of_str p = Ok None ↔ get_rgbww int_of_str p = Ok None) ∧
  (∀ r g b w c, get_rgbww int_of_str p = Ok (Some (r, g, b, w, c)) →
     get_rgbw int_of_str p = Ok (Some (r, g, b, w)) ∧
     get_rgb int_of_str p = Ok (Some (r, g, b))).
Proof.
  unfold get_rgb, get_rgbw, get_rgbww.
  destruct (is_None (dict_get p "r" VNone)), (is_None (dict_get p "g" VNone)),
    (is_None (dict_get p "b" VNone)); simpl; try (by repeat split).
  destruct (py_int int_of_str (dict_get p "r" VNone)) as [r'|]; simpl;
    [|by repeat split].
  destruct (py_int int_of_str (dict_get p "g" VNone)) as [g'|]; simpl;
    [|by repeat split].
  destruct (py_int int_of_str (dict_get p "b" VNone)) as [b'|]; simpl;
    [|by repeat split].
  destruct (py_int int_of_str (dict_get p "w" (VInt 0))) as [w'|]; simpl;
    [|by repeat split].
  destruct (py_int int_of_str (dict_get p "c" (VInt 0))) as [c'|]; simpl;
    [|by repeat split].
  split; [split; intros; discriminate|].
  split; [split; intros; discriminate|].
  split; [split; intros; discriminate|].
  by intros r g b w c [= <- <- <- <- <-].
Qed.

End ParserFacts.

Lemma parser_scene_id_nonzero_witness :
  ({["sceneId" := VInt 0]} : gmap string value) !! "sceneId" = Some (VInt 0) ∧
  PilotParser.get_scene_id (λ _, None) {["sceneId" := VInt 0]} = Ok None ∧
  PilotParser.get_scene_name (λ _, None) {["sceneId" := VInt 0]} = Ok None.
Proof.
  assert (H : ({["sceneId" := VInt 0]} : gmap string value) !! "sceneId"
              = Some (VInt 0)) by reflexivity.
  exact (conj H (proj1 (proj2 (parser_scene_id_nonzero (λ _, None) {["sceneId" := VInt 0]}))
                   (or_intror (or_intror H)))).
Defined.

(** ** The pilot builder and the parser together *)

Section CodecFacts.
Import PilotBuilder PilotSpec CodecSpec.
Variable int_of_str : string → option Z.

Implicit Types (a : kwargs) (p : gmap string value) (v x : value).

Local Arguments py_getitem : simpl never.
Local Arguments _clamp : simpl never.

Ltac step H :=
  match type of H with
  | context [_clamp ?v ?lo ?hi] =>
      let x := fresh "x" in let Hx := fresh "Hx" in
      destruct (_clamp v lo hi) as [x|?] eqn:Hx; simpl in H; [|discriminate H]
  | context [py_getitem ?v ?i] =>
      let x := fresh "x" in let Hx := fresh "Hx" in
      destruct (py_getitem v i) as [x|?] eqn:Hx; simpl in H; [|discriminate H]
  | context [_resolve_scene ?v] =>
      let x := fresh "x" in let Hx := fresh "Hx" in
      destruct (_resolve_scene v) as [x|?] eqn:Hx; simpl in H; [|discriminate H]
  end.

(** [_clamp] returns an [int] instance in range, whose value is the
    clamped value of its argument. *)
Lemma _clamp_in_range v lo hi x :
  lo ≤ hi → _clamp v lo hi = Ok x →
  in_range lo hi x ∧ int_of x = clamp lo hi (int_of v).
Proof.
  intros Hle. unfold _clamp, in_range, py_max, py_min, clamp.
  destruct (isinstance_int v) eqn:Hv; [|done]. intros [= <-].
  change (int_of (VInt hi)) with hi. change (int_of (VInt lo)) with lo.
  destruct (Z.ltb_spec (int_of v) hi) as [H1|H1].
  - destruct (Z.ltb_spec lo (int_of v)) as [H2|H2]; simpl;
      rewrite ?Hv; repeat split; try done; lia.
  - change (int_of (VInt hi)) with hi.
    destruct (Z.ltb_spec lo hi) as [H2|H2]; simpl; repeat split; try done; lia.
Qed.

Lemma py_int_int x :
  isinstance_int x = true → PilotParser.py_int int_of_str x = Ok (int_of x).
Proof. by destruct x. Qed.

Lemma set_optional_inv key v lo hi p p' :
  set_optional key v lo hi p = Ok p' →
  (is_None v = true ∧ p' = p) ∨
  (is_None v = false ∧ ∃ x, _clamp v lo hi = Ok x ∧ p' = <[key := x]> p).
Proof.
  unfold set_optional. destruct (is_None v); [intros [= <-]; by left|].
  intros H. step H. injection H as <-. right. eauto.
Qed.

Lemma mode_entry_refl a p0 k : mode_entry a p0 p0 k.
Proof. by left. Qed.

Lemma mode_entry_channel a p0 p1 key v x :
  key ∈ ["r"; "g"; "b"; "w"; "c"] → _clamp v 0 255 = Ok x →
  (∀ k, mode_entry a p0 p1 k) → ∀ k, mode_entry a p0 (<[key := x]> p1) k.
Proof.
  intros Hkey Hx H k. destruct (decide (k = key)) as [->|Hne].
  - right; right; left. split; [done|]. exists v, x. by rewrite lookup_insert_eq.
  - destruct (H k) as [E|[(-> & y & ? & E)|[(? & w & y & ? & E)|(-> & y & ? & E)]]].
    + left. by rewrite lookup_insert_ne.
    + right; left. split; [done|]. exists y. by rewrite lookup_insert_ne.
    + right; right; left. split; [done|]. exists w, y. by rewrite lookup_insert_ne.
    + right; right; right. split; [done|]. exists y. by rewrite lookup_insert_ne.
Qed.

Lemma set_channel_entries a p0 p1 p2 key v i :
  key ∈ ["r"; "g"; "b"; "w"; "c"] →
  set_channel key v i p1 = Ok p2 →
  (∀ k, mode_entry a p0 p1 k) → ∀ k, mode_entry a p0 p2 k.
Proof.
  unfold set_channel. intros Hkey H Hp1. repeat step H. injection H as <-.
  by eapply mode_entry_channel.
Qed.

Lemma set_optional_entries a p0 p1 p2 key v :
  key ∈ ["r"; "g"; "b"; "w"; "c"] →
  set_optional key v 0 255 p1 = Ok p2 →
  (∀ k, mode_entry a p0 p1 k) → ∀ k, mode_entry a p0 p2 k.
Proof.
  intros Hkey H Hp1.
  apply set_optional_inv in H as [[_ ->]|[_ (x & Hx & ->)]]; [done|].
  by eapply mode_entry_channel.
Qed.

Ltac channel := rewrite list_elem_of_In; simpl; tauto.

(** Closes a goal from a membership [H] of a literal in a list of other
    literals. *)
Ltac absurd_in H :=
  rewrite list_elem_of_In in H; simpl in H;
  repeat (destruct H as [H|H]; [discriminate H|]); exact H.

(** Every entry after the mode step is an entry from before, the resolved
    scene, a clamped channel or the clamped colour temperature. *)
Lemma set_mode_entries a p0 p1 :
  set_mode a p0 = Ok p1 → ∀ k, mode_entry a p0 p1 k.
Proof.
  assert (Hch : ∀ key v i q q', set_channel key v i q = Ok q' →
            (∀ k, mode_entry a p0 q k) → key ∈ ["r"; "g"; "b"; "w"; "c"] →
            ∀ k, mode_entry a p0 q' k)
    by (intros; by eapply set_channel_entries).
  rewrite set_mode_selected. destruct (selected_mode a).
  - intros H. step H. injection H as <-. intros k.
    destruct (decide (k = "sceneId")) as [->|Hne].
    + right; left. split; [done|]. exists x. by rewrite lookup_insert_eq.
    + left. by rewrite lookup_insert_ne.
  - unfold _set_rgbww. destruct (py_len (rgbww a)) as [n|]; simpl; [|done].
    destruct (n <? 3)%nat; [done|].
    destruct (set_channel "r" _ _ _) as [pr|] eqn:Hr; simpl; [|done].
    destruct (set_channel "g" _ _ _) as [pg|] eqn:Hg; simpl; [|done].
    destruct (set_channel "b" _ _ _) as [pb|] eqn:Hb; simpl; [|done].
    pose proof (Hch _ _ _ _ _ Hr (mode_entry_refl a p0) ltac:(channel)) as Er.
    pose proof (Hch _ _ _ _ _ Hg Er ltac:(channel)) as Eg.
    pose proof (Hch _ _ _ _ _ Hb Eg ltac:(channel)) as Eb.
    destruct (3 <? n)%nat; simpl.
    + destruct (set_channel "w" _ _ _) as [pw|] eqn:Hw; simpl; [|done].
      pose proof (Hch _ _ _ _ _ Hw Eb ltac:(channel)) as Ew.
      destruct (4 <? n)%nat; [|by intros [= <-]].
      intros Hc. exact (Hch _ _ _ _ _ Hc Ew ltac:(channel)).
    + destruct (4 <? n)%nat; [|by intros [= <-]].
      intros Hc. exact (Hch _ _ _ _ _ Hc Eb ltac:(channel)).
  - unfold _set_rgbw. destruct (py_len (rgbw a)) as [n|]; simpl; [|done].
    destruct (n <? 3)%nat; [done|].
    destruct (set_channel "r" _ _ _) as [pr|] eqn:Hr; simpl; [|done].
    destruct (set_channel "g" _ _ _) as [pg|] eqn:Hg; simpl; [|done].
    destruct (set_channel "b" _ _ _) as [pb|] eqn:Hb; simpl; [|done].
    pose proof (Hch _ _ _ _ _ Hr (mode_entry_refl a p0) ltac:(channel)) as Er.
    pose proof (Hch _ _ _ _ _ Hg Er ltac:(channel)) as Eg.
    pose proof (Hch _ _ _ _ _ Hb Eg ltac:(channel)) as Eb.
    destruct (3 <? n)%nat; [|by intros [= <-]].
    intros Hw. exact (Hch _ _ _ _ _ Hw Eb ltac:(channel)).
  - intros H.
    destruct (_clamp (py_or (r a) _) _ _) as [xr|] eqn:Hr; simpl in H; [|done].
    destruct (_clamp (py_or (g a) _) _ _) as [xg|] eqn:Hg; simpl in H; [|done].
    destruct (_clamp (py_or (b a) _) _ _) as [xb|] eqn:Hb; simpl in H; [|done].
    destruct (set_optional "w" _ _ _ _) as [pw|] eqn:Hw; simpl in H; [|done].
    eapply (set_optional_entries a p0 pw); [|exact H|]; [channel|].
    eapply (set_optional_entries a p0); [|exact Hw|]; [channel|].
    eapply mode_entry_channel; [|exact Hb|]; [channel|].
    eapply mode_entry_channel; [|exact Hg|]; [channel|].
    eapply mode_entry_channel; [|exact Hr|apply mode_entry_refl]; channel.
  - intros H. step H. injection H as <-. intros k.
    destruct (decide (k = "temp")) as [->|Hne].
    + right; right; right. split; [done|]. exists x. by rewrite lookup_insert_eq.
    + left. by rewrite lookup_insert_ne.
  - intros [= <-]. apply mode_entry_refl.
Qed.

Lemma entry_ok_range k lo hi x :
  range_of k = Some (lo, hi) → in_range lo hi x → entry_ok k x.
Proof.
  intros Hr Hx. unfold entry_ok.
  destruct (String.eqb_spec k "state") as [->|_]; [discriminate Hr|].
  destruct (String.eqb_spec k "sceneId") as [->|_]; [discriminate Hr|].
  by rewrite Hr.
Qed.

Lemma entry_ok_inv k x :
  entry_ok k x →
  (k = "state" ∧ ∃ b, x = VBool b) ∨
  (k = "sceneId" ∧ isinstance_int x = true ∧ is_Some (SCENES !! int_of x)) ∨
  (∃ lo hi, range_of k = Some (lo, hi) ∧ in_range lo hi x).
Proof.
  unfold entry_ok.
  destruct (String.eqb_spec k "state") as [->|_]; [by left|].
  destruct (String.eqb_spec k "sceneId") as [->|_]; [by right; left|].
  destruct (range_of k) as [[lo hi]|]; [|done]. right; right. eauto.
Qed.

Lemma _resolve_scene_ok v x :
  _resolve_scene v = Ok x →
  isinstance_int x = true ∧
  (isinstance_int v = true → x = v) ∧
  ∃ name, SCENES !! int_of x = Some name ∧
          ∀ s, v = VStr s → lower name = lower s.
Proof.
  unfold _resolve_scene.
  destruct v as [|bo|z|q|s|l|m]; cbn [isinstance_int]; try discriminate.
  - case_bool_decide as Hs; [|done]. intros [= <-]. destruct Hs as [name Hs].
    split; [done|]. split; [done|]. exists name. by split.
  - case_bool_decide as Hs; [|done]. intros [= <-]. destruct Hs as [name Hs].
    split; [done|]. split; [done|]. exists name. by split.
  - destruct (get_id_from_scene_name s) as [scene_id|] eqn:E; [|done].
    intros [= <-]. split; [done|]. split; [done|].
    apply scene_id_lookup_sound_aux in E as (name & Hname & Hlow).
    exists name. split; [done|]. by intros ? [= <-].
Qed.

Lemma SCENES_no_zero : SCENES !! 0 = None.
Proof. vm_compute. reflexivity. Qed.

(** Every entry of a built mapping is a well-formed entry. *)
Lemma to_dict_entries a p :
  to_dict a = Ok p →
  map_Forall entry_ok p ∧ p !! "state" = Some (VBool (state a)).
Proof.
  destruct (state a) eqn:Hs.
  - intros Hp.
    destruct (to_dict_steps a p Hs Hp) as (p1 & p2 & p3 & H1 & H2 & H3 & H4).
    pose proof (set_mode_entries a _ _ H1) as E1.
    assert (F1 : map_Forall entry_ok p1 ∧ p1 !! "state" = Some (VBool true)).
    { split.
      - intros k x Hk.
        destruct (E1 k) as [E|[(-> & y & Hy & E)|[(Hch & w & y & Hy & E)|(-> & y & Hy & E)]]];
          rewrite E in Hk.
        + apply lookup_singleton_Some in Hk as [<- <-]. unfold entry_ok. simpl. eauto.
        + injection Hk as <-. apply _resolve_scene_ok in Hy as (Hi & _ & name & Hn & _).
          unfold entry_ok; simpl. split; [done|eauto].
        + injection Hk as <-. apply _clamp_in_range in Hy as [Hy _]; [|lia].
          apply (entry_ok_range k 0 255); [|done].
          unfold range_of. by rewrite bool_decide_eq_true_2.
        + injection Hk as <-. apply _clamp_in_range in Hy as [Hy _]; [|lia].
          by apply (entry_ok_range "temp" 1000 10000).
      - destruct (E1 "state") as [E|[(? & _)|[(Hch & _)|(? & _)]]]; try done.
        exfalso. absurd_in Hch. }
    assert (Hopt : ∀ key v lo hi q q',
              range_of key = Some (lo, hi) → key ≠ "state" → lo ≤ hi →
              set_optional key v lo hi q = Ok q' →
              map_Forall entry_ok q ∧ q !! "state" = Some (VBool true) →
              map_Forall entry_ok q' ∧ q' !! "state" = Some (VBool true)).
    { intros key v lo hi q q' Hr Hne Hle Hq [Fq Sq].
      apply set_optional_inv in Hq as [[_ ->]|[_ (x & Hx & ->)]]; [done|].
      split; [|by rewrite lookup_insert_ne].
      apply map_Forall_insert_2; [|done].
      apply (entry_ok_range key lo hi); [done|].
      by apply _clamp_in_range in Hx as [Hx _]. }
    eapply Hopt; [| | |exact H4|]; [done..|].
    eapply Hopt; [| | |exact H3|]; [done..|].
    eapply Hopt; [| | |exact H2|]; [done..|]. done.
  - unfold to_dict, __init__. rewrite Hs. simpl. intros [= <-]. split.
    + apply map_Forall_singleton. unfold entry_ok. simpl. eauto.
    + by rewrite lookup_singleton_eq.
Qed.

Lemma in_range_not_None lo hi x : in_range lo hi x → is_None x = false.
Proof. intros [Hi _]. by destruct x. Qed.

Lemma entry_in_range p k lo hi x :
  map_Forall entry_ok p → range_of k = Some (lo, hi) → p !! k = Some x →
  in_range lo hi x.
Proof.
  intros Hp Hr Hk. apply Hp in Hk.
  apply entry_ok_inv in Hk as [[-> _]|[[-> _]|(lo' & hi' & Hr' & Hx)]];
    [discriminate Hr|discriminate Hr|]. congruence.
Qed.

(** A mode key of the final mapping is the one the mode step wrote, and
    it is present exactly when the selected mode contributes it. *)
Lemma to_dict_mode_lookup a p :
  state a = true → to_dict a = Ok p →
  ∃ p1, set_mode a {["state" := VBool true]} = Ok p1 ∧
        ∀ k, k ∈ MODE_KEYS →
             p !! k = p1 !! k ∧ (is_Some (p !! k) ↔ k ∈ keys_of_mode a).
Proof.
  intros Hs Hp. pose proof (to_dict_mode_keys a p Hs Hp) as Hkeys.
  destruct (to_dict_steps a p Hs Hp) as (p1 & p2 & p3 & H1 & H2 & H3 & H4).
  exists p1. split; [done|]. intros k Hk. split.
  - apply set_optional_Ok in H2 as (H2 & _), H3 as (H3 & _), H4 as (H4 & _).
    rewrite H4, H3, H2; [done|..]; intros ->; exfalso; absurd_in Hk.
  - rewrite <- Hkeys. unfold mode_keys. rewrite list_elem_of_filter.
    split; [by intros ?; split|by intros [? ?]].
Qed.

(** What the final mapping holds under the key of an optional control. *)
Lemma to_dict_control_lookup a p :
  state a = true → to_dict a = Ok p →
  ∀ key v lo hi,
    (key, v, lo, hi) ∈ [("dimming", brightness a, 10, 255);
                        ("speed", speed a, 1, 200);
                        ("ratio", ratio a, 0, 100)] →
    if is_None v then p !! key = None
    else ∃ x, _clamp v lo hi = Ok x ∧ p !! key = Some x.
Proof.
  intros Hs Hp.
  destruct (to_dict_steps a p Hs Hp) as (p1 & p2 & p3 & H1 & H2 & H3 & H4).
  pose proof (set_mode_entries a _ _ H1) as E1.
  assert (F1 : ∀ k, k ∈ ["dimming"; "speed"; "ratio"] → p1 !! k = None).
  { intros k Hk.
    destruct (E1 k) as [E|[(-> & _)|[(Hch & _)|(-> & _)]]].
    - rewrite E. apply lookup_singleton_ne. intros <-. absurd_in Hk.
    - exfalso. absurd_in Hk.
    - exfalso. rewrite !elem_of_cons, elem_of_nil in Hk.
      destruct Hk as [->|[->|[->|[]]]]; absurd_in Hch.
    - exfalso. absurd_in Hk. }
  apply set_optional_inv in H2, H3, H4.
  intros key v lo hi Hin. rewrite !elem_of_cons, elem_of_nil in Hin.
  destruct Hin as [[= -> -> -> ->]|[[= -> -> -> ->]|[[= -> -> -> ->]|[]]]].
  - destruct H2 as [[Hn ->]|[Hn (x & Hx & ->)]]; rewrite Hn.
    + destruct H3 as [[_ ->]|[_ (y & _ & ->)]], H4 as [[_ ->]|[_ (z & _ & ->)]];
        rewrite ?lookup_insert_ne by done; apply F1; left.
    + exists x. split; [done|].
      destruct H3 as [[_ ->]|[_ (y & _ & ->)]], H4 as [[_ ->]|[_ (z & _ & ->)]];
        rewrite ?lookup_insert_ne by done; by rewrite lookup_insert_eq.
  - destruct H3 as [[Hn ->]|[Hn (x & Hx & ->)]]; rewrite Hn.
    + destruct H2 as [[_ ->]|[_ (y & _ & ->)]], H4 as [[_ ->]|[_ (z & _ & ->)]];
        rewrite ?lookup_insert_ne by done; apply F1; right; left.
    + exists x. split; [done|].
      destruct H4 as [[_ ->]|[_ (z & _ & ->)]];
        rewrite ?lookup_insert_ne by done; by rewrite lookup_insert_eq.
  - destruct H4 as [[Hn ->]|[Hn (x & Hx & ->)]]; rewrite Hn.
    + destruct H2 as [[_ ->]|[_ (y & _ & ->)]], H3 as [[_ ->]|[_ (z & _ & ->)]];
        rewrite ?lookup_insert_ne by done; apply F1; right; right; left.
    + exists x. split; [done|]. by rewrite lookup_insert_eq.
Qed.

Lemma get_int_read_back p key v lo hi :
  lo ≤ hi →
  (if is_None v then p !! key = None
   else ∃ x, _clamp v lo hi = Ok x ∧ p !! key = Some x) →
  PilotParser.get_int int_of_str key p = Ok (read_back lo hi v).
Proof.
  intros Hle. unfold PilotParser.get_int, read_back, dict_get.
  destruct (is_None v).
  - by intros ->.
  - intros (x & Hx & ->). apply _clamp_in_range in Hx as [Hr Hv]; [|done].
    rewrite (in_range_not_None lo hi x Hr). simpl.
    destruct Hr as [Hi _]. by rewrite (py_int_int x Hi), Hv.
Qed.

(** X6.  Every params mapping the builder produces is well formed: it
    holds [state] as given; a [sceneId] is an integer id of the registry;
    [r], [g], [b], [w], [c] lie in [0, 255], [temp] in [1000, 10000],
    [dimming] in [10, 255], [speed] in [1, 200] and [ratio] in [0, 100];
    and there is no other key.  This holds for all arguments, bools and
    out-of-range integers included. *)
Theorem pilot_params_well_formed a p :
  to_dict a = Ok p →
  p !! "state" = Some (VBool (state a)) ∧
  (∀ x, p !! "sceneId" = Some x →
     isinstance_int x = true ∧ is_Some (SCENES !! int_of x)) ∧
  (∀ k lo hi x, range_of k = Some (lo, hi) → p !! k = Some x →
     in_range lo hi x) ∧
  (∀ k, is_Some (p !! k) →
     k = "state" ∨ k = "sceneId" ∨ is_Some (range_of k)).
Proof.
  intros Hp. apply to_dict_entries in Hp as [Hall Hstate].
  split; [done|]. split; [|split].
  - intros x Hx. apply Hall in Hx.
    apply entry_ok_inv in Hx as [[[=] _]|[[_ Hx]|(lo & hi & [=] & _)]]. done.
  - intros k lo hi x. by apply entry_in_range.
  - intros k [x Hx]. apply Hall in Hx.
    apply entry_ok_inv in Hx as [[-> _]|[[-> _]|(lo & hi & Hr & _)]]; eauto.
Qed.

Lemma pilot_params_well_formed_witness :
  to_dict Scenario.S4 = Ok Scenario.S4_params ∧
  Scenario.S4_params !! "state" = Some (VBool (state Scenario.S4)) ∧
  (∀ k lo hi x, range_of k = Some (lo, hi) →
     Scenario.S4_params !! k = Some x → in_range lo hi x).
Proof.
  assert (Hp : to_dict Scenario.S4 = Ok Scenario.S4_params)
    by (vm_compute; reflexivity).
  destruct (pilot_params_well_formed Scenario.S4 Scenario.S4_params Hp)
    as (Hs & _ & Hr & _).
  exact (conj Hp (conj Hs Hr)).
Defined.

(** X7.  The parser reads back what the builder wrote for the controls
    that are independent of the mode: [get_state] is the [state]
    argument, and [get_brightness], [get_speed] and [get_ratio] return the
    clamped argument when it was given to a [state=True] build and [None]
    otherwise. *)
Theorem parser_reads_back_controls a p :
  to_dict a = Ok p →
  get_state p = state a ∧
  PilotParser.get_brightness int_of_str p
    = Ok (if state a then read_back 10 255 (brightness a) else None) ∧
  PilotParser.get_speed int_of_str p
    = Ok (if state a then read_back 1 200 (speed a) else None) ∧
  PilotParser.get_ratio int_of_str p
    = Ok (if state a then read_back 0 100 (ratio a) else None).
Proof.
  intros Hp. split.
  - apply to_dict_entries in Hp as [_ Hstate].
    unfold get_state, dict_get. rewrite Hstate. done.
  - destruct (state a) eqn:Hs.
    + pose proof (to_dict_control_lookup a p Hs Hp) as Hc.
      unfold PilotParser.get_brightness, PilotParser.get_speed,
        PilotParser.get_ratio.
      split; [|split]; apply get_int_read_back; try lia; apply Hc.
      * left.
      * right; left.
      * right; right; left.
    + unfold to_dict, __init__ in Hp. rewrite Hs in Hp. simpl in Hp.
      injection Hp as <-. done.
Qed.

Lemma channel_reads p key :
  map_Forall entry_ok p → key ∈ ["r"; "g"; "b"] → is_Some (p !! key) →
  ∃ x, p !! key = Some x ∧ is_None x = false ∧
       PilotParser.py_int int_of_str x = Ok (int_of x) ∧
       0 ≤ int_of x ≤ 255.
Proof.
  intros Hall Hkey [x Hx]. exists x. split; [done|].
  assert (Hr : in_range 0 255 x).
  { apply (entry_in_range p key); [done| |done].
    unfold range_of. rewrite bool_decide_eq_true_2; [done|].
    rewrite !elem_of_cons in Hkey. rewrite !elem_of_cons.
    destruct Hkey as [->|[->|[->|Hkey]]]; auto.
    by apply elem_of_nil in Hkey. }
  split; [by apply (in_range_not_None 0 255)|].
  destruct Hr as [Hi Hr]. split; [by apply py_int_int|done].
Qed.

(** Decides membership of a literal key in the key list of a mode. *)
Ltac keys :=
  unfold when;
  repeat match goal with
         | |- context [if ?c then _ else _] => destruct c
         end;
  rewrite list_elem_of_In; simpl;
  first [ by repeat (first [left; reflexivity | right])
        | let H := fresh in
          intros H; repeat (destruct H as [H|H]; [discriminate H|]); exact H ].

(** X8.  The parser sees exactly the mode the builder selected.  For a
    pilot built with [state=True]: in scene mode a scene id of the
    registry is reported and neither a colour nor a colour temperature; in
    the three colour modes [get_rgb] reports a triple with every component
    in [0, 255] and neither a scene nor a colour temperature; in
    colour-temperature mode only the clamped temperature is reported; with
    no mode argument none of the three is reported. *)
Theorem parser_sees_selected_mode a p :
  state a = true → to_dict a = Ok p →
  let scene_id := PilotParser.get_scene_id int_of_str p in
  let rgb := PilotParser.get_rgb int_of_str p in
  let temp := PilotParser.get_colortemp int_of_str p in
  match selected_mode a with
  | ModeScene =>
      (∃ i, scene_id = Ok (Some i) ∧ is_Some (SCENES !! i)) ∧
      rgb = Ok None ∧ temp = Ok None
  | ModeRGBWW | ModeRGBW | ModeRGB =>
      scene_id = Ok None ∧ temp = Ok None ∧
      ∃ r g b, rgb = Ok (Some (r, g, b)) ∧
               0 ≤ r ≤ 255 ∧ 0 ≤ g ≤ 255 ∧ 0 ≤ b ≤ 255
  | ModeTemp =>
      scene_id = Ok None ∧ rgb = Ok None ∧
      temp = Ok (Some (clamp 1000 10000 (int_of (colortemp a))))
  | ModeNone => scene_id = Ok None ∧ rgb = Ok None ∧ temp = Ok None
  end.
Proof.
  intros Hs Hp. cbv zeta.
  destruct (to_dict_mode_lookup a p Hs Hp) as (p1 & H1 & Hk).
  pose proof (to_dict_entries a p Hp) as [Hall _].
  assert (Habs : ∀ k, k ∈ MODE_KEYS → k ∉ keys_of_mode a → p !! k = None).
  { intros k Hin Hnot. destruct (Hk k Hin) as [_ Hiff].
    destruct (p !! k) eqn:E; [|done]. exfalso. apply Hnot, Hiff. eauto. }
  assert (Hpres : ∀ k, k ∈ MODE_KEYS → k ∈ keys_of_mode a → is_Some (p !! k)).
  { intros k Hin Hyes. by apply (Hk k Hin). }
  assert (Hnoscene : p !! "sceneId" = None →
            PilotParser.get_scene_id int_of_str p = Ok None).
  { unfold PilotParser.get_scene_id, dict_get. by intros ->. }
  assert (Hnorgb : p !! "r" = None →
            PilotParser.get_rgb int_of_str p = Ok None).
  { unfold PilotParser.get_rgb, dict_get. by intros ->. }
  assert (Hnotemp : p !! "temp" = None →
            PilotParser.get_colortemp int_of_str p = Ok None).
  { unfold PilotParser.get_colortemp, PilotParser.get_int, dict_get.
    by intros ->. }
  assert (Hrgb : is_Some (p !! "r") → is_Some (p !! "g") → is_Some (p !! "b") →
            ∃ r g b, PilotParser.get_rgb int_of_str p = Ok (Some (r, g, b)) ∧
                     0 ≤ r ≤ 255 ∧ 0 ≤ g ≤ 255 ∧ 0 ≤ b ≤ 255).
  { intros Hr Hg Hb.
    apply (channel_reads p "r" Hall) in Hr as (xr & Er & Nr & Ir & Rr);
      [|left].
    apply (channel_reads p "g" Hall) in Hg as (xg & Eg & Ng & Ig & Rg);
      [|right; left].
    apply (channel_reads p "b" Hall) in Hb as (xb & Eb & Nb & Ib & Rb);
      [|right; right; left].
    exists (int_of xr), (int_of xg), (int_of xb).
    unfold PilotParser.get_rgb, dict_get. rewrite Er, Eg, Eb, Nr, Ng, Nb.
    simpl. rewrite Ir, Ig, Ib. done. }
  rewrite set_mode_selected in H1. unfold keys_of_mode in Habs, Hpres.
  destruct (selected_mode a) eqn:Hsel.
  - split; [|split].
    + destruct (Hpres "sceneId") as [x Hx]; [keys|keys|].
      pose proof (Hall _ _ Hx) as Hok.
      apply entry_ok_inv in Hok as [[[=] _]|[[_ [Hi Hreg]]|(? & ? & [=] & _)]].
      exists (int_of x). split; [|done].
      unfold PilotParser.get_scene_id, dict_get. rewrite Hx.
      assert (is_None x = false) as -> by (by destruct x).
      simpl. rewrite (py_int_int x Hi). simpl.
      destruct (Z.eqb_spec (int_of x) 0) as [E|_]; [|done].
      rewrite E, SCENES_no_zero in Hreg. by destruct Hreg.
    + apply Hnorgb, Habs; keys.
    + apply Hnotemp, Habs; keys.
  - split; [apply Hnoscene, Habs; keys|]. split; [apply Hnotemp, Habs; keys|].
    apply Hrgb; apply Hpres; keys.
  - split; [apply Hnoscene, Habs; keys|]. split; [apply Hnotemp, Habs; keys|].
    apply Hrgb; apply Hpres; keys.
  - split; [apply Hnoscene, Habs; keys|]. split; [apply Hnotemp, Habs; keys|].
    apply Hrgb; apply Hpres; keys.
  - split; [apply Hnoscene, Habs; keys|]. split; [apply Hnorgb, Habs; keys|].
    destruct (_clamp (colortemp a) 1000 10000) as [x|] eqn:Hx; simpl in H1;
      [|done].
    injection H1 as <-.
    assert (Hn : is_None (colortemp a) = false).
    { unfold _clamp in Hx. by destruct (colortemp a). }
    unfold PilotParser.get_colortemp.
    rewrite (get_int_read_back p "temp" (colortemp a) 1000 10000); [|lia|].
    + unfold read_back. by rewrite Hn.
    + rewrite Hn. exists x. split; [done|].
      destruct (Hk "temp") as [-> _]; [keys|]. by rewrite lookup_insert_eq.
  - split; [apply Hnoscene, Habs; keys|]. split; [apply Hnorgb, Habs; keys|].
    apply Hnotemp, Habs; keys.
Qed.

(** X9.  A scene survives the trip through the builder and the parser.
    For a pilot built with [state=True] and a scene argument that is an
    integer or an ASCII string, the parser reports a scene id of the
    registry and that scene's registered name; the id is the argument when
    the argument is an integer, and the name equals the argument up to
    letter case when the argument is a string. *)
Theorem scene_round_trip a p :
  state a = true → to_dict a = Ok p → is_None (scene a) = false →
  ascii_scene (scene a) = true →
  ∃ i name,
    SCENES !! i = Some name ∧
    PilotParser.get_scene_id int_of_str p = Ok (Some i) ∧
    PilotParser.get_scene_name int_of_str p = Ok (Some name) ∧
    (isinstance_int (scene a) = true → i = int_of (scene a)) ∧
    (∀ s, scene a = VStr s → lower name = lower s).
Proof.
  intros Hs Hp Hn _.
  destruct (to_dict_mode_lookup a p Hs Hp) as (p1 & H1 & Hk).
  unfold set_mode in H1. rewrite Hn in H1. simpl in H1.
  destruct (_resolve_scene (scene a)) as [x|] eqn:Hx; simpl in H1; [|done].
  injection H1 as <-.
  assert (Hsc : p !! "sceneId" = Some x).
  { destruct (Hk "sceneId") as [-> _]; [left|]. by rewrite lookup_insert_eq. }
  apply _resolve_scene_ok in Hx as (Hi & Hint & name & Hname & Hstr).
  assert (Hid : PilotParser.get_scene_id int_of_str p = Ok (Some (int_of x))).
  { unfold PilotParser.get_scene_id, dict_get. rewrite Hsc.
    assert (is_None x = false) as -> by (by destruct x).
    simpl. rewrite (py_int_int x Hi). simpl.
    destruct (Z.eqb_spec (int_of x) 0) as [E|_]; [|done].
    by rewrite E, SCENES_no_zero in Hname. }
  exists (int_of x), name. split; [done|]. split; [done|]. split; [|split].
  - unfold PilotParser.get_scene_name. rewrite Hid. simpl. by rewrite Hname.
  - intros Hv. by rewrite (Hint Hv).
  - done.
Qed.

End CodecFacts.

Lemma parser_reads_back_controls_witness :
  PilotBuilder.to_dict Scenario.S4 = Ok Scenario.S4_params ∧
  get_state Scenario.S4_params = true ∧
  PilotParser.get_brightness (λ _, None) Scenario.S4_params = Ok (Some 10) ∧
  PilotParser.get_speed (λ _, None) Scenario.S4_params = Ok (Some 200) ∧
  PilotParser.get_ratio (λ _, None) Scenario.S4_params = Ok (Some 0).
Proof.
  assert (Hp : PilotBuilder.to_dict Scenario.S4 = Ok Scenario.S4_params)
    by (vm_compute; reflexivity).
  exact (conj Hp (parser_reads_back_controls (λ _, None) Scenario.S4 Scenario.S4_params Hp)).
Defined.

Lemma parser_sees_selected_mode_witness :
  PilotBuilder.state Scenario.S3 = true ∧
  PilotBuilder.to_dict Scenario.S3 = Ok Scenario.S3_params ∧
  (∃ i, PilotParser.get_scene_id (λ _, None) Scenario.S3_params = Ok (Some i) ∧
        is_Some (SCENES !! i)) ∧
  PilotParser.get_rgb (λ _, None) Scenario.S3_params = Ok None ∧
  PilotParser.get_colortemp (λ _, None) Scenario.S3_params = Ok None.
Proof.
  assert (Hs : PilotBuilder.state Scenario.S3 = true) by reflexivity.
  assert (Hp : PilotBuilder.to_dict Scenario.S3 = Ok Scenario.S3_params)
    by (vm_compute; reflexivity).
  exact (conj Hs (conj Hp
           (parser_sees_selected_mode (λ _, None) Scenario.S3 Scenario.S3_params Hs Hp))).
Defined.

Lemma scene_round_trip_witness :
  PilotBuilder.state Scenario.S3 = true ∧
  PilotBuilder.to_dict Scenario.S3 = Ok Scenario.S3_params ∧
  is_None (PilotBuilder.scene Scenario.S3) = false ∧
  ascii_scene (PilotBuilder.scene Scenario.S3) = true ∧
  ∃ i name,
    SCENES !! i = Some name ∧
    PilotParser.get_scene_id (λ _, None) Scenario.S3_params = Ok (Some i) ∧
    PilotParser.get_scene_name (λ _, None) Scenario.S3_params = Ok (Some name) ∧
    (isinstance_int (PilotBuilder.scene Scenario.S3) = true →
     i = int_of (PilotBuilder.scene Scenario.S3)) ∧
    (∀ s, PilotBuilder.scene Scenario.S3 = VStr s → lower name = lower s).
Proof.
  assert (Hs : PilotBuilder.state Scenario.S3 = true) by reflexivity.
  assert (Hp : PilotBuilder.to_dict Scenario.S3 = Ok Scenario.S3_params)
    by (vm_compute; reflexivity).
  assert (Hn : is_None (PilotBuilder.scene Scenario.S3) = false) by reflexivity.
  exact (conj Hs (conj Hp (conj Hn (conj eq_refl
           (scene_round_trip (λ _, None) Scenario.S3 Scenario.S3_params
              Hs Hp Hn eq_refl))))).
Defined.

(** ** The retry client, for every schedule *)

Section RetryMoreFacts.
Import UDPClient RetrySpec.

Variable net : nat → outcome.
Variable timeout : Q.

Implicit Types (delays : list Q) (log : list event) (n k : nat).

(** After [k] retryable failures the loop is where it would be had it
    been started on the rest of the schedule. *)
Lemma send_loop_skip delays k last_exc n log :
  (k ≤ length delays)%nat →
  (∀ j, (j < k)%nat → timed_out_or_disconnected (net (n + j))) →
  ∃ last_exc' log',
    send_loop net timeout delays last_exc n log
      = send_loop net timeout (drop k delays) last_exc' (n + k) log' ∧
    attempts log' = (attempts log + k)%nat ∧
    sleeps log' = sleeps log ++ filter (λ d, 0 < Qnum d) (take k delays).
Proof.
  revert delays last_exc n log.
  induction k as [|k IH]; intros delays last_exc n log Hk Hfail.
  - exists last_exc, log. rewrite drop_0, take_0, Nat.add_0_r, Nat.add_0_r.
    by rewrite filter_nil, app_nil_r.
  - destruct delays as [|delay delays]; [simpl in Hk; lia|].
    rewrite send_loop_cons; cbv zeta.
    destruct (retryable_spec _ (Hfail 0%nat ltac:(lia))) as (exc & Hn & Hr).
    rewrite Nat.add_0_r in Hn. rewrite Hn, Hr.
    destruct (IH delays (Some exc) (S n) (log ++ iteration timeout delay))
      as (last' & log' & -> & Ha & Hs).
    { simpl in Hk. lia. }
    { intros j Hj. replace (S n + j)%nat with (n + S j)%nat by lia.
      apply Hfail. lia. }
    exists last', log'. split; [|split].
    + by replace (n + S k)%nat with (S n + k)%nat by lia.
    + rewrite Ha, attempts_app, attempts_iteration. lia.
    + rewrite Hs, sleeps_app, sleeps_iteration. simpl.
      rewrite filter_cons, <- app_assoc. f_equal.
      destruct (Z.ltb_spec 0 (Qnum delay)); case_decide; done || lia.
Qed.

(** X10.  For every schedule: when the first [k] attempts end in a timeout
    or connection-error and attempt [k] is answered without an [error]
    key, [send] returns that response after exactly [k + 1] attempts,
    having slept the positive delays of the first [k + 1] entries and no
    other. *)
Theorem send_returns_first_answer delays k response :
  (k < length delays)%nat →
  (∀ j, (j < k)%nat → timed_out_or_disconnected (net j)) →
  net k = Response response →
  response !! "error" = None →
  ∃ log,
    send net timeout delays = (Ok response, log) ∧
    attempts log = (k + 1)%nat ∧
    sleeps log = filter (λ d, 0 < Qnum d) (take (S k) delays).
Proof.
  intros Hk Hfail Hresp Herr. unfold send.
  destruct (send_loop_skip delays k None 0 []) as (last' & log' & -> & Ha & Hs);
    [lia|done|].
  destruct (drop k delays) as [|delay rest] eqn:Hdrop.
  { apply (f_equal length) in Hdrop. rewrite length_drop in Hdrop.
    simpl in Hdrop. lia. }
  rewrite send_loop_cons; cbv zeta. rewrite Nat.add_0_l, Hresp.
  rewrite bool_decide_eq_false_2 by (rewrite Herr; by intros []).
  eexists. split; [done|]. split.
  - rewrite attempts_app, attempts_iteration, Ha. simpl. lia.
  - rewrite sleeps_app, sleeps_iteration, Hs. simpl.
    assert (Hd : delays !! k = Some delay).
    { rewrite <- (Nat.add_0_r k), <- lookup_drop, Hdrop. done. }
    rewrite (take_S_r delays k delay Hd), filter_app, filter_cons, filter_nil.
    f_equal. destruct (Z.ltb_spec 0 (Qnum delay)); case_decide; done || lia.
Qed.

(** X11.  For every schedule: an exception of [_send_once] other than a
    timeout or connection-error is not retried; it leaves [send] as it is,
    after the attempt that raised it. *)
Theorem send_propagates_other_errors delays k exc :
  (k < length delays)%nat →
  (∀ j, (j < k)%nat → timed_out_or_disconnected (net j)) →
  net k = Failed exc →
  retryable exc = false →
  ∃ log,
    send net timeout delays = (Raise exc, log) ∧
    attempts log = (k + 1)%nat.
Proof.
  intros Hk Hfail Hexc Hnr. unfold send.
  destruct (send_loop_skip delays k None 0 []) as (last' & log' & -> & Ha & Hs);
    [lia|done|].
  destruct (drop k delays) as [|delay rest] eqn:Hdrop.
  { apply (f_equal length) in Hdrop. rewrite length_drop in Hdrop.
    simpl in Hdrop. lia. }
  rewrite send_loop_cons; cbv zeta. rewrite Nat.add_0_l, Hexc, Hnr.
  eexists. split; [done|].
  rewrite attempts_app, attempts_iteration, Ha. simpl. lia.
Qed.

(** Bounds kept by the loop whatever the network does. *)
Lemma send_loop_bounds delays last_exc n log :
  ∃ res log' ds,
    send_loop net timeout delays last_exc n log = (res, log') ∧
    (attempts log + min 1 (length delays) ≤ attempts log')%nat ∧
    (attempts log' ≤ attempts log + length delays)%nat ∧
    sleeps log' = sleeps log ++ ds ∧
    ds `prefix_of` filter (λ d, 0 < Qnum d) delays ∧
    (∀ r, res = Ok r → r !! "error" = None).
Proof.
  revert last_exc n log.
  induction delays as [|delay delays IH]; intros last_exc n log.
  - eexists _, _, []. simpl. split; [done|]. rewrite app_nil_r.
    repeat split; try done; lia.
  - rewrite send_loop_cons; cbv zeta.
    assert (Hpos : sleeps (iteration timeout delay)
                     ++ filter (λ d, 0 < Qnum d) delays
                   = filter (λ d, 0 < Qnum d) (delay :: delays)).
    { rewrite sleeps_iteration, filter_cons.
      destruct (Z.ltb_spec 0 (Qnum delay)); case_decide; done || lia. }
    assert (Hone : ∀ res : result (gmap string value),
      (∀ r, res = Ok r → r !! "error" = None) →
      ∃ res' log' ds,
        (res, log ++ iteration timeout delay) = (res', log') ∧
        (attempts log + min 1 (length (delay :: delays)) ≤ attempts log')%nat ∧
        (attempts log' ≤ attempts log + length (delay :: delays))%nat ∧
        sleeps log' = sleeps log ++ ds ∧
        ds `prefix_of` filter (λ d, 0 < Qnum d) (delay :: delays) ∧
        (∀ r, res' = Ok r → r !! "error" = None)).
    { intros res Hres. exists res, (log ++ iteration timeout delay),
        (sleeps (iteration timeout delay)).
      split; [done|]. rewrite attempts_app, attempts_iteration, sleeps_app.
      simpl. split; [lia|]. split; [lia|]. split; [done|]. split; [|done].
      rewrite <- Hpos. by apply prefix_app_r. }
    destruct (net n) as [response|exc].
    + case_bool_decide as Herr; apply Hone; [done|].
      intros r [= <-]. destruct (response !! "error") eqn:E; [|done].
      exfalso. apply Herr. eauto.
    + destruct (retryable exc); [|by apply Hone].
      destruct (IH (Some exc) (S n) (log ++ iteration timeout delay))
        as (res & log' & ds & -> & Hge & Hle & Hs & Hpre & Hres).
      exists res, log', (sleeps (iteration timeout delay) ++ ds).
      split; [done|].
      rewrite attempts_app, attempts_iteration in Hle, Hge.
      simpl. split; [lia|]. split; [lia|]. split.
      * by rewrite Hs, sleeps_app, <- app_assoc.
      * split; [|done]. rewrite <- Hpos. by apply prefix_app.
Qed.

(** X12.  Whatever the network does and whatever schedule the client was
    constructed with, [send] makes at least one and at most
    [len(retry_delays)] attempts, the delays it sleeps are an initial part
    of the positive delays of the schedule in order, and a response it
    returns has no [error] key. *)
Theorem send_bounds retry_delays :
  let delays := __init__ retry_delays in
  ∃ res log,
    send net timeout delays = (res, log) ∧
    (1 ≤ attempts log ≤ length delays)%nat ∧
    sleeps log `prefix_of` filter (λ d, 0 < Qnum d) delays ∧
    (∀ r, res = Ok r → r !! "error" = None).
Proof.
  intros delays. unfold send.
  destruct (send_loop_bounds delays None 0 [])
    as (res & log & ds & -> & Hge & Hle & Hs & Hpre & Hres).
  exists res, log. split; [done|].
  change (attempts []) with 0%nat in Hge, Hle.
  change (sleeps [] ++ ds) with ds in Hs. subst ds.
  split; [|done].
  assert (1 ≤ length delays)%nat; [|lia].
  subst delays. destruct retry_delays as [[|??]|]; simpl; lia.
Qed.

End RetryMoreFacts.

Lemma send_returns_first_answer_witness :
  (1 < length UDPClient._RETRY_DELAYS)%nat ∧
  (∀ j, (j < 1)%nat →
     RetrySpec.timed_out_or_disconnected
       ((λ n, if (n <? 1)%nat then UDPClient.Failed TimeoutError
              else UDPClient.Response ∅) j)) ∧
  ∃ log,
    UDPClient.send
      (λ n, if (n <? 1)%nat then UDPClient.Failed TimeoutError
            else UDPClient.Response ∅) 13 UDPClient._RETRY_DELAYS
      = (Ok ∅, log) ∧
    UDPClient.attempts log = 2%nat ∧
    RetrySpec.sleeps log = [1 # 2]%Q.
Proof.
  assert (H1 : (1 < length UDPClient._RETRY_DELAYS)%nat) by (simpl; lia).
  assert (H2 : ∀ j, (j < 1)%nat →
     RetrySpec.timed_out_or_disconnected
       ((λ n, if (n <? 1)%nat then UDPClient.Failed TimeoutError
              else UDPClient.Response ∅) j)).
  { intros j Hj. left. by destruct j; [|lia]. }
  split; [exact H1|]. split; [exact H2|].
  exact (send_returns_first_answer _ 13 UDPClient._RETRY_DELAYS 1 ∅
           H1 H2 eq_refl eq_refl).
Defined.

Lemma send_propagates_other_errors_witness :
  (1 < length UDPClient._RETRY_DELAYS)%nat ∧
  (∀ j, (j < 1)%nat →
     RetrySpec.timed_out_or_disconnected
       ((λ n, if (n <? 1)%nat then UDPClient.Failed WizLightConnectionError
              else UDPClient.Failed WizLightCommandError) j)) ∧
  ∃ log,
    UDPClient.send
      (λ n, if (n <? 1)%nat then UDPClient.Failed WizLightConnectionError
            else UDPClient.Failed WizLightCommandError) 13
      UDPClient._RETRY_DELAYS
      = (Raise WizLightCommandError, log) ∧
    UDPClient.attempts log = 2%nat.
Proof.
  assert (H1 : (1 < length UDPClient._RETRY_DELAYS)%nat) by (simpl; lia).
  assert (H2 : ∀ j, (j < 1)%nat →
     RetrySpec.timed_out_or_disconnected
       ((λ n, if (n <? 1)%nat then UDPClient.Failed WizLightConnectionError
              else UDPClient.Failed WizLightCommandError) j)).
  { intros j Hj. right. by destruct j; [|lia]. }
  split; [exact H1|]. split; [exact H2|].
  exact (send_propagates_other_errors _ 13 UDPClient._RETRY_DELAYS 1
           WizLightCommandError H1 H2 eq_refl eq_refl).
Defined.

(** ** The push registry *)

Section PushMoreFacts.
Import PushManager PushSpec PushOps.

Implicit Types (s : gmap string (list callback)) (cb : callback)
  (l : list callback) (k m : string).

Lemma subscribe_insert m cb s :
  subscribe m cb s
    = <[normalize m := default [] (s !! normalize m) ++ [cb]]> s.
Proof.
  apply map_eq; intros k. rewrite subscribe_lookup.
  case_bool_decide as Hk.
  - subst k. by rewrite lookup_insert_eq.
  - by rewrite lookup_insert_ne.
Qed.

Lemma unsubscribe_lookup k cb s k' :
  unsubscribe k cb s !! k' =
    if bool_decide (k' = k)
    then match s !! k with
         | Some l => match remove cb l with [] => None | l' => Some l' end
         | None => None
         end
    else s !! k'.
Proof.
  unfold unsubscribe. case_bool_decide as Hk.
  - subst k'. destruct (s !! k) as [l|] eqn:Hl; [|done]. cbv zeta.
    case_bool_decide as Hnil.
    + rewrite Hnil. by rewrite lookup_delete_eq.
    + rewrite lookup_insert_eq. by destruct (remove cb l).
  - destruct (s !! k) as [l|] eqn:Hl; [|done]. cbv zeta.
    case_bool_decide as Hnil.
    + rewrite lookup_delete_ne by done. by rewrite lookup_insert_ne.
    + by rewrite lookup_insert_ne.
Qed.

Lemma remove_snoc_notin cb l : cb ∉ l → remove cb (l ++ [cb]) = l.
Proof.
  induction l as [|y l IH]; intros Hnin; simpl.
  - by rewrite bool_decide_eq_true_2.
  - rewrite bool_decide_eq_false_2 by (intros ->; apply Hnin; left).
    rewrite IH; [done|]. intros Hin. apply Hnin. by right.
Qed.

Lemma subscribe_no_empty m cb s :
  map_Forall (λ _ l, l ≠ []) s → map_Forall (λ _ l, l ≠ []) (subscribe m cb s).
Proof.
  intros Hs k l. rewrite subscribe_lookup. case_bool_decide.
  - intros [= <-]. by destruct (default [] (s !! k)).
  - apply Hs.
Qed.

Lemma unsubscribe_no_empty k cb s :
  map_Forall (λ _ l, l ≠ []) s →
  map_Forall (λ _ l, l ≠ []) (unsubscribe k cb s).
Proof.
  intros Hs k' l. rewrite unsubscribe_lookup. case_bool_decide.
  - destruct (s !! k) as [l0|]; [|done].
    by destruct (remove cb l0); [|intros [= <-]].
  - apply Hs.
Qed.

(** X13.  On a manager that starts with no subscribers, after any sequence
    of [subscribe] calls and disposer calls no MAC is registered with an
    empty list: a MAC is a key of [_subscribers] only while at least one
    callback is subscribed under it. *)
Theorem registry_has_no_empty_list ops k l :
  run ops !! k = Some l → l ≠ [].
Proof.
  revert k l. change (map_Forall (λ _ l, l ≠ []) (run ops)).
  unfold run. induction ops as [|o ops IH] using rev_ind.
  - apply map_Forall_empty.
  - rewrite foldl_app. simpl. destruct o as [m cb|m cb]; simpl.
    + by apply subscribe_no_empty.
    + by apply unsubscribe_no_empty.
Qed.

(** X14.  Subscribing a callback and calling the disposer that the call
    returned gives back the registry as it was, for a registry without
    empty lists in which the callback is not already subscribed under
    that MAC. *)
Theorem subscribe_then_dispose m cb s :
  map_Forall (λ _ l, l ≠ []) s →
  cb ∉ default [] (s !! normalize m) →
  unsubscribe (normalize m) cb (subscribe m cb s) = s.
Proof.
  intros Hs Hnin. apply map_eq; intros k.
  rewrite unsubscribe_lookup.
  destruct (decide (k = normalize m)) as [->|Hk].
  - rewrite bool_decide_eq_true_2 by done.
    rewrite subscribe_lookup, bool_decide_eq_true_2 by done.
    rewrite remove_snoc_notin by done.
    destruct (s !! normalize m) as [l|] eqn:Hl; simpl; [|done].
    specialize (Hs _ _ Hl). by destruct l.
  - rewrite bool_decide_eq_false_2 by done.
    by rewrite subscribe_lookup, bool_decide_eq_false_2.
Qed.

Lemma occurrences_remove_other cb cb' l :
  cb' ≠ cb → occurrences cb' (remove cb l) = occurrences cb' l.
Proof.
  intros Hne. induction l as [|y l IH]; [done|]. simpl.
  case_bool_decide as Hy.
  - subst y. by rewrite occurrences_cons, bool_decide_eq_false_2.
  - by rewrite !occurrences_cons, IH.
Qed.

(** X15.  A disposer touches one subscription at most: the lists of the
    other MACs are as before, and under its own MAC the count of its
    callback drops by one (staying at zero when it was zero) while every
    other callback keeps its count. *)
Theorem dispose_removes_one k cb s :
  (∀ k', k' ≠ k → unsubscribe k cb s !! k' = s !! k') ∧
  (∀ cb',
     occurrences cb' (default [] (unsubscribe k cb s !! k)) =
       if bool_decide (cb' = cb)
       then pred (occurrences cb' (default [] (s !! k)))
       else occurrences cb' (default [] (s !! k))).
Proof.
  split.
  - intros k' Hk. by rewrite unsubscribe_lookup, bool_decide_eq_false_2.
  - intros cb'. rewrite unsubscribe_lookup, bool_decide_eq_true_2 by done.
    assert (Hd : default [] (match s !! k with
                  | Some l => match remove cb l with
                              | [] => None | l' => Some l' end
                  | None => None end) = remove cb (default [] (s !! k))).
    { destruct (s !! k) as [l|]; [|done]. simpl. by destruct (remove cb l). }
    rewrite Hd. case_bool_decide as Hcb.
    + subst cb'. apply occurrences_remove.
    + by apply occurrences_remove_other.
Qed.

Lemma lower_ascii_colon c :
  Ascii.eqb (lower_ascii c) ":" = Ascii.eqb c ":".
Proof. destruct c as [[] [] [] [] [] [] [] []]; reflexivity. Qed.

Lemma lower_ascii_dash c :
  Ascii.eqb (lower_ascii c) "-" = Ascii.eqb c "-".
Proof. destruct c as [[] [] [] [] [] [] [] []]; reflexivity. Qed.

Lemma replace_lower old str :
  (∀ c, Ascii.eqb (lower_ascii c) old = Ascii.eqb c old) →
  replace old "" (lower str) = lower (replace old "" str).
Proof.
  intros Hold. induction str as [|c str IH]; [done|]. simpl.
  rewrite Hold. destruct (Ascii.eqb c old); simpl; by rewrite IH.
Qed.

Lemma replace_replace old str :
  replace old "" (replace old "" str) = replace old "" str.
Proof.
  induction str as [|c str IH]; [done|]. simpl.
  destruct (Ascii.eqb c old) eqn:E; simpl; [done|]. by rewrite E, IH.
Qed.

Lemma replace_comm a b str :
  replace a "" (replace b "" str) = replace b "" (replace a "" str).
Proof.
  induction str as [|c str IH]; [done|]. simpl.
  destruct (Ascii.eqb c b) eqn:Eb, (Ascii.eqb c a) eqn:Ea; simpl;
    rewrite ?Ea, ?Eb; simpl; by rewrite ?IH.
Qed.

Lemma str_in_replace_same old str :
  str_in (String old "") (replace old "" str) = false.
Proof.
  induction str as [|c str IH]; [done|]. simpl replace.
  destruct (Ascii.eqb_spec c old) as [->|Hne]; [done|].
  cbn [str_in String.prefix].
  destruct (Ascii.ascii_dec old c) as [->|_]; [done|]. by rewrite IH.
Qed.

Lemma str_in_replace_other a b str :
  str_in (String a "") str = false →
  str_in (String a "") (replace b "" str) = false.
Proof.
  induction str as [|c str IH]; [done|].
  cbn [str_in String.prefix].
  destruct (Ascii.ascii_dec a c) as [->|Hne].
  { by destruct str. }
  intros Hr. simpl replace. destruct (Ascii.eqb c b); [by apply IH|].
  cbn [str_in String.prefix].
  destruct (Ascii.ascii_dec a c) as [->|_]; [done|]. by apply IH.
Qed.

(** X17.  The key under which [subscribe] files a MAC holds neither [:]
    nor [-]; and for an ASCII MAC it is canonical: computing it is
    idempotent and does not depend on the case of the letters. *)
Theorem normalize_canonical mac :
  str_in ":" (normalize mac) = false ∧
  str_in "-" (normalize mac) = false ∧
  (ascii_only mac = true →
   normalize (normalize mac) = normalize mac ∧
   normalize (upper mac) = normalize mac ∧
   normalize (lower mac) = normalize mac).
Proof.
  unfold normalize. split; [|split].
  - apply str_in_replace_other, str_in_replace_same.
  - apply str_in_replace_same.
  - intros _. split; [|split].
    + rewrite <- (replace_lower "-") by apply lower_ascii_dash.
      rewrite <- (replace_lower ":") by apply lower_ascii_colon.
      rewrite lower_idemp.
      by rewrite (replace_comm ":" "-"), !replace_replace.
    + by rewrite lower_upper.
    + by rewrite lower_idemp.
Qed.

End PushMoreFacts.

Lemma registry_has_no_empty_list_witness :
  PushOps.run
    [PushOps.Subscribe "AA:BB:CC:DD:EE:FF" 1%nat;
     PushOps.Subscribe "aabbccddeeff" 2%nat;
     PushOps.Dispose "aa-bb-cc-dd-ee-ff" 1%nat] !! "aabbccddeeff"
    = Some [2%nat] ∧
  [2%nat] ≠ [].
Proof.
  split; [reflexivity|].
  exact (registry_has_no_empty_list
           [PushOps.Subscribe "AA:BB:CC:DD:EE:FF" 1%nat;
            PushOps.Subscribe "aabbccddeeff" 2%nat;
            PushOps.Dispose "aa-bb-cc-dd-ee-ff" 1%nat]
           "aabbccddeeff" [2%nat] eq_refl).
Defined.

Lemma subscribe_then_dispose_witness :
  map_Forall (λ _ l, l ≠ [])
    (PushManager.subscribe "aabbccddeeff" 1%nat ∅) ∧
  (2%nat ∉ default []
     (PushManager.subscribe "aabbccddeeff" 1%nat ∅
        !! PushManager.normalize "AA:BB:CC:DD:EE:FF")) ∧
  PushManager.unsubscribe (PushManager.normalize "AA:BB:CC:DD:EE:FF") 2%nat
    (PushManager.subscribe "AA:BB:CC:DD:EE:FF" 2%nat
       (PushManager.subscribe "aabbccddeeff" 1%nat ∅))
    = PushManager.subscribe "aabbccddeeff" 1%nat ∅.
Proof.
  assert (H1 : map_Forall (λ _ l, l ≠ [])
                 (PushManager.subscribe "aabbccddeeff" 1%nat ∅)).
  { apply subscribe_no_empty, map_Forall_empty. }
  assert (H2 : 2%nat ∉ default []
    (PushManager.subscribe "aabbccddeeff" 1%nat ∅
       !! PushManager.normalize "AA:BB:CC:DD:EE:FF")).
  { vm_compute. intros H. apply list_elem_of_In in H.
    destruct H as [H|[]]. discriminate. }
  split; [exact H1|]. split; [exact H2|].
  exact (subscribe_then_dispose "AA:BB:CC:DD:EE:FF" 2%nat _ H1 H2).
Defined.


Lemma normalize_canonical_witness :
  ascii_only "AA:BB-cc" = true ∧
  PushManager.normalize (PushManager.normalize "AA:BB-cc")
    = PushManager.normalize "AA:BB-cc" ∧
  PushManager.normalize (upper "AA:BB-cc") = PushManager.normalize "AA:BB-cc" ∧
  PushManager.normalize (lower "AA:BB-cc") = PushManager.normalize "AA:BB-cc".
Proof.
  exact (conj eq_refl
           (proj2 (proj2 (normalize_canonical "AA:BB-cc")) eq_refl)).
Defined.

(** ** Dispatch over the live subscriber list *)

Section PushObjectsFacts.
Import PushManager PushSpec PushObjects.

Variable invoke : callback → gmap string value → manager → manager * ending.

Implicit Types (m : manager) (cb : callback) (k mac : string) (l i : nat).

Lemma view_lookup m k :
  view m !! k = content m <$> (_subscribers m !! k).
Proof. unfold view. by rewrite lookup_fmap. Qed.

Lemma subscribe_well_formed mac cb m :
  well_formed m → well_formed (subscribe mac cb m).
Proof.
  intros [Hlt Hinj]. unfold subscribe. cbv zeta.
  case_bool_decide as Hk.
  - destruct Hk as [l Hl]. rewrite Hl. by split.
  - cbn [_subscribers lists fresh]. rewrite lookup_insert_eq.
    unfold well_formed. cbn [_subscribers lists fresh]. split.
    + intros k l. rewrite lookup_insert_Some.
      intros [[_ <-]|[_ Hl]]; [lia|]. specialize (Hlt _ _ Hl). lia.
    + intros k k' l. rewrite !lookup_insert_Some.
      intros [[<- <-]|[Hne Hl]] [[<- Hf]|[Hne' Hl']]; try done.
      * specialize (Hlt _ _ Hl'). lia.
      * specialize (Hlt _ _ Hl). lia.
      * by eapply Hinj.
Qed.

Lemma subscribe_view mac cb m :
  well_formed m →
  view (subscribe mac cb m) = PushManager.subscribe mac cb (view m).
Proof.
  intros [Hlt Hinj]. apply map_eq; intros k.
  rewrite subscribe_lookup, !view_lookup. unfold subscribe. cbv zeta.
  case_bool_decide as Hpresent.
  - destruct Hpresent as [l Hl]. rewrite Hl. cbn [_subscribers].
    case_bool_decide as Hk.
    + subst k. rewrite Hl. cbn. unfold content at 1. cbn [lists].
      by rewrite lookup_insert_eq.
    + destruct (_subscribers m !! k) as [l'|] eqn:Hl'; [|done]. cbn.
      unfold content at 1. cbn [lists].
      rewrite lookup_insert_ne; [done|].
      intros <-. apply Hk. by eapply Hinj.
  - assert (Hnone : _subscribers m !! normalize mac = None).
    { destruct (_subscribers m !! normalize mac) eqn:E; [|done].
      exfalso. apply Hpresent. eauto. }
    cbn [_subscribers lists fresh]. rewrite lookup_insert_eq.
    cbn [_subscribers lists fresh].
    case_bool_decide as Hk.
    + subst k. rewrite lookup_insert_eq, Hnone. cbn.
      unfold content. cbn [lists]. by rewrite !lookup_insert_eq.
    + rewrite lookup_insert_ne by done.
      destruct (_subscribers m !! k) as [l'|] eqn:Hl'; [|done]. cbn.
      unfold content. cbn [lists]. specialize (Hlt _ _ Hl').
      by rewrite !lookup_insert_ne by lia.
Qed.

Lemma subscribe_all_view calls :
  well_formed (PushObjects.subscribe_all calls __init__) ∧
  view (PushObjects.subscribe_all calls __init__)
    = PushSpec.subscribe_all calls ∅.
Proof.
  induction calls as [|c calls [Hwf Hview]] using rev_ind.
  - split; [by split|]. unfold view. cbn. apply fmap_empty.
  - unfold PushObjects.subscribe_all, PushSpec.subscribe_all in *.
    rewrite !foldl_app. cbn [foldl]. split.
    + by apply subscribe_well_formed.
    + by rewrite subscribe_view, Hview.
Qed.

(** The loop over a list of inert callbacks invokes them from the index
    on, in order, and leaves the manager as it was. *)
Lemma for_callbacks_inert fuel params l i m log :
  (∀ cb, cb ∈ content m l → inert invoke cb) →
  (length (content m l) - i < fuel)%nat →
  for_callbacks invoke fuel params l i m log
    = Some (m, log ++ ((λ cb, (cb, params)) <$> drop i (content m l)), Done).
Proof.
  intros Hinert. revert i log.
  induction fuel as [|fuel IH]; intros i log Hfuel; [lia|].
  cbn [for_callbacks].
  destruct (content m l !! i) as [cb|] eqn:Hi.
  - destruct (Hinert cb (list_elem_of_lookup_2 _ _ _ Hi) params m)
      as (e & -> & He).
    rewrite (drop_S _ _ _ Hi). cbn [fmap list_fmap].
    assert (Hlen : (i < length (content m l))%nat)
      by (by eapply lookup_lt_Some).
    rewrite (IH (S i) (log ++ [(cb, params)])) by lia.
    rewrite <- app_assoc. by destruct e.
  - apply lookup_ge_None in Hi. rewrite drop_ge by done.
    by rewrite app_nil_r.
Qed.

(** X16.  On a manager built by [subscribe] calls, a [syncPilot] message
    whose [params] hold a non-empty string [mac] invokes exactly the
    callbacks whose normalized MAC equals the lower-cased [mac] of the
    message, once per subscription and in subscription order, each with
    the message's [params], and leaves the registry as it was, provided
    these callbacks do not subscribe or dispose while they run and let no
    [BaseException] out. *)
Theorem sync_pilot_dispatch_order calls data params mac fuel :
  data !! "params" = Some (VDict params) →
  params !! "mac" = Some (VStr mac) →
  mac ≠ "" →
  (∀ cb, cb ∈ registered (lower mac) calls → inert invoke cb) →
  (length (registered (lower mac) calls) < fuel)%nat →
  PushObjects._handle_sync_pilot invoke fuel
      (PushObjects.subscribe_all calls __init__) data
    = Some (PushObjects.subscribe_all calls __init__,
            (λ cb, (cb, params)) <$> registered (lower mac) calls,
            Done).
Proof.
  intros Hparams Hmac Hne Hinert Hfuel.
  destruct (subscribe_all_view calls) as [_ Hview].
  set (m := PushObjects.subscribe_all calls __init__) in *.
  unfold PushObjects._handle_sync_pilot, dict_get. rewrite Hparams, Hmac.
  assert (Hl : String.eqb (lower mac) "" = false).
  { destruct mac; [done|]. reflexivity. }
  rewrite Hl.
  pose proof (view_lookup m (lower mac)) as Hk.
  rewrite Hview, subscribe_all_lookup in Hk.
  destruct (_subscribers m !! lower mac) as [l|] eqn:Hsub; cbn in Hk.
  - assert (Hc : content m l = registered (lower mac) calls).
    { destruct (registered (lower mac) calls); [done|]. by injection Hk. }
    rewrite for_callbacks_inert.
    + by rewrite drop_0, Hc.
    + intros cb Hcb. apply Hinert. by rewrite <- Hc.
    + rewrite Hc. lia.
  - by destruct (registered (lower mac) calls).
Qed.

Lemma unsubscribe_content k cb m l :
  _subscribers m !! k = Some l →
  content (unsubscribe k cb m) l = remove cb (content m l).
Proof.
  intros Hl. unfold unsubscribe. rewrite Hl. cbv zeta.
  case_bool_decide; unfold content at 1; cbn [lists];
    by rewrite lookup_insert_eq.
Qed.

(** X24.  The loop reads the live list: when the first subscriber under a
    MAC calls its own disposer while it runs, the list shifts under the
    iterator and the second subscriber is not invoked for this message;
    the subscribers after it are, in order. *)
Theorem self_disposing_callback_skips_next
    m data params mac mac' l cb cb' rest fuel :
  data !! "params" = Some (VDict params) →
  params !! "mac" = Some (VStr mac) →
  mac ≠ "" →
  normalize mac' = lower mac →
  _subscribers m !! lower mac = Some l →
  content m l = cb :: cb' :: rest →
  disposes_itself invoke mac' cb →
  (∀ c, c ∈ cb' :: rest → inert invoke c) →
  (length rest + 1 < fuel)%nat →
  PushObjects._handle_sync_pilot invoke fuel m data
    = Some (unsubscribe (lower mac) cb m,
            (cb, params) :: ((λ c, (c, params)) <$> rest),
            Done).
Proof.
  intros Hparams Hmac Hne Hnorm Hl Hc Hself Hinert Hfuel.
  unfold PushObjects._handle_sync_pilot, dict_get. rewrite Hparams, Hmac.
  assert (Hlow : String.eqb (lower mac) "" = false).
  { destruct mac; [done|]. reflexivity. }
  rewrite Hlow, Hl.
  destruct fuel as [|fuel]; [lia|]. cbn [for_callbacks].
  rewrite Hc. cbn [lookup list_lookup]. rewrite (Hself params m), Hnorm.
  assert (Hc' : content (unsubscribe (lower mac) cb m) l = cb' :: rest).
  { rewrite (unsubscribe_content _ _ _ _ Hl), Hc. cbn [remove].
    by rewrite bool_decide_eq_true_2. }
  rewrite for_callbacks_inert.
  - by rewrite Hc'.
  - by rewrite Hc'.
  - rewrite Hc'. cbn [length]. lia.
Qed.

End PushObjectsFacts.

Lemma sync_pilot_dispatch_order_witness :
  PushSpec.S7 "AABBCCDDEEFF" !! "params"
    = Some (VDict (PushSpec.S7_params "AABBCCDDEEFF")) ∧
  PushSpec.S7_params "AABBCCDDEEFF" !! "mac" = Some (VStr "AABBCCDDEEFF") ∧
  "AABBCCDDEEFF" ≠ "" ∧
  (∀ cb,
     cb ∈ PushSpec.registered (lower "AABBCCDDEEFF")
            [("AA:BB:CC:DD:EE:FF", 1%nat); ("112233445566", 2%nat);
             ("aa-bb-cc-dd-ee-ff", 3%nat)] →
     PushObjects.inert (λ _ _ m, (m, PushObjects.Returns)) cb) ∧
  (length (PushSpec.registered (lower "AABBCCDDEEFF")
             [("AA:BB:CC:DD:EE:FF", 1%nat); ("112233445566", 2%nat);
              ("aa-bb-cc-dd-ee-ff", 3%nat)]) < 3)%nat ∧
  PushObjects._handle_sync_pilot (λ _ _ m, (m, PushObjects.Returns)) 3
      (PushObjects.subscribe_all
         [("AA:BB:CC:DD:EE:FF", 1%nat); ("112233445566", 2%nat);
          ("aa-bb-cc-dd-ee-ff", 3%nat)] PushObjects.__init__)
      (PushSpec.S7 "AABBCCDDEEFF")
    = Some (PushObjects.subscribe_all
              [("AA:BB:CC:DD:EE:FF", 1%nat); ("112233445566", 2%nat);
               ("aa-bb-cc-dd-ee-ff", 3%nat)] PushObjects.__init__,
            (λ cb, (cb, PushSpec.S7_params "AABBCCDDEEFF"))
              <$> PushSpec.registered (lower "AABBCCDDEEFF")
                    [("AA:BB:CC:DD:EE:FF", 1%nat); ("112233445566", 2%nat);
                     ("aa-bb-cc-dd-ee-ff", 3%nat)],
            PushObjects.Done).
Proof.
  assert (H3 : "AABBCCDDEEFF" ≠ "") by discriminate.
  assert (H4 : ∀ cb,
     cb ∈ PushSpec.registered (lower "AABBCCDDEEFF")
            [("AA:BB:CC:DD:EE:FF", 1%nat); ("112233445566", 2%nat);
             ("aa-bb-cc-dd-ee-ff", 3%nat)] →
     PushObjects.inert (λ _ _ m, (m, PushObjects.Returns)) cb).
  { intros cb _ params m. exists PushObjects.Returns. by split. }
  assert (H5 : (length (PushSpec.registered (lower "AABBCCDDEEFF")
             [("AA:BB:CC:DD:EE:FF", 1%nat); ("112233445566", 2%nat);
              ("aa-bb-cc-dd-ee-ff", 3%nat)]) < 3)%nat)
    by (vm_compute; lia).
  split; [reflexivity|]. split; [reflexivity|]. split; [exact H3|].
  split; [exact H4|]. split; [exact H5|].
  exact (sync_pilot_dispatch_order (λ _ _ m, (m, PushObjects.Returns))
           [("AA:BB:CC:DD:EE:FF", 1%nat); ("112233445566", 2%nat);
            ("aa-bb-cc-dd-ee-ff", 3%nat)]
           (PushSpec.S7 "AABBCCDDEEFF") (PushSpec.S7_params "AABBCCDDEEFF")
           "AABBCCDDEEFF" 3 eq_refl eq_refl H3 H4 H5).
Defined.

Lemma self_disposing_callback_skips_next_witness :
  let invoke := λ (cb : PushManager.callback) (_ : gmap string value) m,
    if (cb =? 1)%nat
    then (PushObjects.unsubscribe "aabbccddeeff" cb m, PushObjects.Returns)
    else (m, PushObjects.Returns) in
  let m := PushObjects.subscribe_all
             [("AA:BB:CC:DD:EE:FF", 1%nat); ("aabbccddeeff", 2%nat);
              ("aa-bb-cc-dd-ee-ff", 3%nat)] PushObjects.__init__ in
  PushObjects._handle_sync_pilot invoke 3 m (PushSpec.S7 "AABBCCDDEEFF")
    = Some (PushObjects.unsubscribe (lower "AABBCCDDEEFF") 1%nat m,
            [(1%nat, PushSpec.S7_params "AABBCCDDEEFF");
             (3%nat, PushSpec.S7_params "AABBCCDDEEFF")],
            PushObjects.Done).
Proof.
  intros invoke m.
  assert (H3 : "AABBCCDDEEFF" ≠ "") by discriminate.
  assert (Hself : PushObjects.disposes_itself invoke "aabbccddeeff" 1%nat).
  { intros params m'. reflexivity. }
  assert (Hinert : ∀ c, c ∈ [2%nat; 3%nat] → PushObjects.inert invoke c).
  { intros c Hc params m'. exists PushObjects.Returns. split; [|done].
    apply list_elem_of_In in Hc. unfold invoke.
    destruct Hc as [<-|[<-|[]]]; reflexivity. }
  assert (Hfuel : (length [3%nat] + 1 < 3)%nat) by (simpl; lia).
  exact (self_disposing_callback_skips_next invoke m
           (PushSpec.S7 "AABBCCDDEEFF") (PushSpec.S7_params "AABBCCDDEEFF")
           "AABBCCDDEEFF" "aabbccddeeff" 0%nat 1%nat 2%nat [3%nat] 3
           eq_refl eq_refl H3 eq_refl eq_refl eq_refl Hself Hinert Hfuel).
Defined.

(** ** The detector *)

Section DetectMoreFacts.
Import models devices DetectShape.

Local Arguments str_in : simpl never.

Implicit Types (module_name name_upper : string)
  (white_range : option (gmap string value)).

Lemma features_fit_dual_head c f :
  features_fit c f = true → dual_head f = false.
Proof.
  unfold features_fit. rewrite !andb_true_iff.
  by intros [[_ Hd%bool_decide_eq_true] _].
Qed.

Lemma Features_copy f :
  dual_head f = false →
  Features_fan (color f) (brightness f) (color_temp f) (effect f) (fan f)
               (fan_reverse f) (fan_breeze_mode f) = f.
Proof. destruct f; simpl. by intros ->. Qed.

Lemma match_patterns_fit patterns module_name name_upper white_range :
  Forall (λ p, features_fit p.1.1.2 p.1.2 = true) patterns →
  let bt := match_patterns patterns module_name name_upper white_range in
  name bt = module_name ∧
  features_fit (bulb_type bt) (features bt) = true.
Proof.
  induction 1 as [|[[[pattern bulb_class] feats] kelvin] patterns Hf _ IH];
    [done|].
  cbn [match_patterns]. destruct (str_in pattern name_upper); [|exact IH].
  cbv zeta. split; [done|]. cbn [fst snd] in Hf.
  cbn [bulb_type features BulbType_init].
  by rewrite (Features_copy feats (features_fit_dual_head _ _ Hf)).
Qed.

Lemma match_patterns_kelvin_fits patterns module_name name_upper :
  Forall (λ p, dual_head p.1.2 = false ∧ kelvin_fits p.1.2 p.2 = true)
    patterns →
  let bt := match_patterns patterns module_name name_upper None in
  kelvin_fits (features bt) (kelvin_range bt) = true.
Proof.
  induction 1 as [|[[[pattern bulb_class] feats] kelvin] patterns
                   [Hd Hk] _ IH]; [done|].
  cbn [match_patterns]. destruct (str_in pattern name_upper); [|exact IH].
  cbv zeta. cbn [fst snd] in Hd, Hk.
  cbn [kelvin_range features BulbType_init override_kelvin].
  by rewrite (Features_copy feats Hd).
Qed.

Lemma _MODULE_PATTERNS_fit :
  Forall (λ p, features_fit p.1.1.2 p.1.2 = true) _MODULE_PATTERNS.
Proof.
  unfold _MODULE_PATTERNS.
  repeat (apply List.Forall_cons; [reflexivity|]). apply List.Forall_nil.
Qed.

Lemma _MODULE_PATTERNS_kelvin_fits :
  Forall (λ p, dual_head p.1.2 = false ∧ kelvin_fits p.1.2 p.2 = true)
    _MODULE_PATTERNS.
Proof.
  unfold _MODULE_PATTERNS.
  repeat (apply List.Forall_cons; [split; reflexivity|]).
  apply List.Forall_nil.
Qed.

Lemma _KNOWN_MODULES_kelvin_fits module_name bulb_class kelvin :
  _KNOWN_MODULES !! module_name = Some (bulb_class, kelvin) →
  kelvin_fits (_features_for_class bulb_class) kelvin = true.
Proof.
  intros Hk. unfold _KNOWN_MODULES in Hk.
  apply elem_of_list_to_map_2, list_elem_of_In in Hk.
  unfold _KNOWN_MODULES_items in Hk. cbn [In] in Hk.
  repeat (destruct Hk as [Hk|Hk];
          [injection Hk as _ <- <-; reflexivity|]).
  destruct Hk.
Qed.

(** X18.  Whatever the module name and the reported white range, the
    descriptor [detect_bulb_type] returns carries that name and feature
    flags that fit its class: colour only on RGB, the three fan flags only
    on FANDIM, brightness and effects on all but SOCKET, a colour
    temperature only on RGB and TW, never dual-head; and, when the device
    reports no white range, it has a Kelvin range exactly when the
    colour-temperature flag is set. *)
Theorem detect_descriptor_fits_class module_name white_range :
  let bt := detect_bulb_type module_name white_range in
  name bt = module_name ∧
  features_fit (bulb_type bt) (features bt) = true ∧
  kelvin_fits (features (detect_bulb_type module_name None))
              (kelvin_range (detect_bulb_type module_name None)) = true.
Proof.
  cbv zeta. unfold detect_bulb_type.
  destruct (_KNOWN_MODULES !! module_name) as [[bulb_class kelvin]|] eqn:Hk.
  - split; [done|]. split; [by destruct bulb_class|].
    exact (_KNOWN_MODULES_kelvin_fits _ _ _ Hk).
  - destruct (match_patterns_fit _MODULE_PATTERNS module_name
                (upper module_name) white_range _MODULE_PATTERNS_fit)
      as [Hname Hfit].
    split; [exact Hname|]. split; [exact Hfit|].
    exact (match_patterns_kelvin_fits _MODULE_PATTERNS module_name
             (upper module_name) _MODULE_PATTERNS_kelvin_fits).
Qed.

Lemma match_patterns_override patterns module_name name_upper d lo hi :
  Exists (λ p, str_in p.1.1.1 name_upper = true) patterns →
  d !! "min" = Some lo → d !! "max" = Some hi →
  match_patterns patterns module_name name_upper (Some d) =
    set_kelvin_range (Some (mkKelvinRange lo hi))
      (match_patterns patterns module_name name_upper None).
Proof.
  intros Hex Hlo Hhi.
  induction Hex as [[[[p c] f] k] l Hp|[[[p c] f] k] l _ IH];
    cbn [match_patterns].
  - cbn in Hp. rewrite Hp. cbv zeta.
    by rewrite (override_kelvin_min_max d lo hi) by done.
  - destruct (str_in p name_upper); [|exact IH]. cbv zeta.
    by rewrite (override_kelvin_min_max d lo hi) by done.
Qed.

(** X19.  For a module name that is not in the table of known modules but
    contains one of the patterns, a white range with [min] and [max]
    replaces the Kelvin range of the descriptor, whatever the class
    (a socket or a dimmable-white bulb gets one too), and changes
    nothing else. *)
Theorem detect_pattern_white_range module_name d lo hi :
  _KNOWN_MODULES !! module_name = None →
  unmatched (upper module_name) = false →
  d !! "min" = Some lo → d !! "max" = Some hi →
  detect_bulb_type module_name (Some d) =
    set_kelvin_range (Some (mkKelvinRange lo hi))
      (detect_bulb_type module_name None).
Proof.
  intros Hk Hm Hlo Hhi. unfold detect_bulb_type. rewrite Hk.
  apply match_patterns_override; [|done..].
  unfold unmatched in Hm. apply Exists_exists.
  destruct (forallb_forall (λ p : string * BulbClass * Features
                                  * option KelvinRange,
              negb (str_in p.1.1.1 (upper module_name))) _MODULE_PATTERNS)
    as [_ Hall].
  destruct (decide (Exists (λ p : string * BulbClass * Features
                                  * option KelvinRange,
              str_in p.1.1.1 (upper module_name) = true) _MODULE_PATTERNS))
    as [Hex|Hnex]; [by apply Exists_exists in Hex|].
  rewrite Hall in Hm; [done|]. intros p Hin.
  destruct (str_in p.1.1.1 (upper module_name)) eqn:E; [|done].
  exfalso. apply Hnex, Exists_exists. exists p. split; [|done].
  by apply list_elem_of_In.
Qed.

Lemma override_kelvin_incomplete white_range kelvin :
  incomplete white_range = true → override_kelvin white_range kelvin = kelvin.
Proof.
  destruct white_range as [d|]; [|done]. unfold incomplete, override_kelvin.
  intros Hinc. destruct (negb (bool_decide (size d = 0%nat))); [|done].
  by destruct (d !! "min") as [lo|], (d !! "max") as [hi|].
Qed.

Lemma match_patterns_incomplete patterns module_name name_upper white_range :
  incomplete white_range = true →
  match_patterns patterns module_name name_upper white_range =
    match_patterns patterns module_name name_upper None.
Proof.
  intros Hinc. induction patterns as [|[[[p c] f] k] l IH]; [done|].
  cbn [match_patterns]. destruct (str_in p name_upper); [|exact IH].
  cbv zeta. by rewrite override_kelvin_incomplete.
Qed.

Lemma match_patterns_unmatched patterns module_name name_upper white_range :
  forallb (λ p, negb (str_in p.1.1.1 name_upper)) patterns = true →
  match_patterns patterns module_name name_upper white_range =
    default_descriptor module_name.
Proof.
  induction patterns as [|[[[p c] f] k] l IH]; [done|].
  cbn [forallb match_patterns fst snd]. intros [Hp Hl]%andb_true_iff.
  destruct (str_in p name_upper); [done|]. by apply IH.
Qed.

(** X20.  The reported white range is not used when it is absent, empty
    or lacks [min] or [max], and never for a name that is neither known
    nor matched by a pattern: such a name gets the RGB descriptor with
    all four flags and the range 2200-6500 whatever the device
    reports. *)
Theorem detect_white_range_unused module_name white_range :
  (incomplete white_range = true →
   detect_bulb_type module_name white_range
     = detect_bulb_type module_name None) ∧
  (_KNOWN_MODULES !! module_name = None →
   unmatched (upper module_name) = true →
   detect_bulb_type module_name white_range
     = default_descriptor module_name).
Proof.
  unfold detect_bulb_type. split.
  - intros Hinc.
    destruct (_KNOWN_MODULES !! module_name) as [[bulb_class kelvin]|].
    + cbv zeta. by rewrite override_kelvin_incomplete.
    + by apply match_patterns_incomplete.
  - intros -> Hun. by apply match_patterns_unmatched.
Qed.

Lemma str_in_prefix pat str : String.prefix pat str = true → str_in pat str = true.
Proof. intros H. destruct str; unfold str_in; fold str_in; by rewrite H. Qed.

Lemma str_in_tail c pat str :
  str_in (String c pat) str = true → str_in pat str = true.
Proof.
  induction str as [|a str IH].
  - by unfold str_in; cbn.
  - unfold str_in; fold str_in. cbn [String.prefix].
    intros [Hp|Hr]%orb_true_iff; apply orb_true_iff; right.
    + destruct (Ascii.ascii_dec c a); [|done]. by apply str_in_prefix.
    + by apply IH.
Qed.

Lemma prefix_trans p q str :
  String.prefix p q = true → String.prefix q str = true →
  String.prefix p str = true.
Proof.
  revert q str. induction p as [|a p IH]; intros q str; [by destruct str|].
  destruct q as [|b q]; [intros H; by cbn in H|].
  destruct str as [|c str]; [intros _ H; by cbn in H|].
  cbn [String.prefix].
  destruct (Ascii.ascii_dec a b) as [->|]; [|done].
  destruct (Ascii.ascii_dec b c) as [->|]; [|done]. apply IH.
Qed.

Lemma str_in_shorter p q str :
  String.prefix p q = true → str_in q str = true → str_in p str = true.
Proof.
  intros Hpq. induction str as [|a str IH]; unfold str_in; fold str_in.
  - rewrite !orb_false_r. by apply prefix_trans.
  - intros [Hp|Hr]%orb_true_iff; apply orb_true_iff.
    + left. by apply (prefix_trans p q).
    + right. by apply IH.
Qed.

(** X21.  The four table entries after [DW] ([SHTW], [DHTW], [SHRGB],
    [DHRGB]) are never selected: each contains [TW] or [RGB], which stand
    before them, so the scan gives the same descriptor with the table cut
    after [DW]. *)
Theorem later_patterns_never_selected module_name name_upper white_range :
  match_patterns _MODULE_PATTERNS module_name name_upper white_range =
    match_patterns (take 7 _MODULE_PATTERNS) module_name name_upper
      white_range.
Proof.
  unfold _MODULE_PATTERNS. cbn [take match_patterns].
  repeat match goal with
  | |- context [str_in ?p name_upper] =>
      lazymatch p with
      | "SHTW" => fail | "DHTW" => fail | "SHRGB" => fail | "DHRGB" => fail
      | _ => destruct (str_in p name_upper) eqn:?; [reflexivity|]
      end
  end.
  assert (Htw : ∀ c1 c2, str_in (String c1 (String c2 "TW")) name_upper
                         = false).
  { intros c1 c2.
    destruct (str_in (String c1 (String c2 "TW")) name_upper) eqn:E; [|done].
    apply str_in_tail, str_in_tail in E. congruence. }
  assert (Hrgb : ∀ c1 c2, str_in (String c1 (String c2 "RGB")) name_upper
                          = false).
  { intros c1 c2.
    destruct (str_in (String c1 (String c2 "RGB")) name_upper) eqn:E; [|done].
    apply str_in_tail, str_in_tail in E. congruence. }
  by rewrite !Htw, !Hrgb.
Qed.

(** X22.  Hence a name outside the known table that contains [SHRGB] or
    [DHRGB], and none of [FANDIM], [SOCKET], [RGBW], is detected through
    the [RGB] entry: an RGB bulb without the colour-temperature flag and
    without a Kelvin range of its own. *)
Theorem unknown_shrgb_detected_as_plain_rgb module_name white_range :
  _KNOWN_MODULES !! module_name = None →
  str_in "SHRGB" (upper module_name) = true
    ∨ str_in "DHRGB" (upper module_name) = true →
  str_in "FANDIM" (upper module_name) = false →
  str_in "SOCKET" (upper module_name) = false →
  str_in "RGBW" (upper module_name) = false →
  detect_bulb_type module_name white_range =
    BulbType_init RGB module_name (Features_init true true false true)
      (override_kelvin white_range None).
Proof.
  intros Hk Hrgb Hfan Hsock Hw. unfold detect_bulb_type. rewrite Hk.
  assert (Hr : str_in "RGB" (upper module_name) = true).
  { by destruct Hrgb as [H|H]; apply str_in_tail, str_in_tail in H. }
  assert (Hww : str_in "RGBWW" (upper module_name) = false).
  { destruct (str_in "RGBWW" (upper module_name)) eqn:E; [|done].
    apply (str_in_shorter "RGBW") in E; [congruence|reflexivity]. }
  unfold _MODULE_PATTERNS. cbn [match_patterns].
  by rewrite Hfan, Hsock, Hww, Hw, Hr.
Qed.

End DetectMoreFacts.

Lemma detect_pattern_white_range_witness :
  devices._KNOWN_MODULES !! "ESP25_SOCKET_01" = None ∧
  DetectShape.unmatched (upper "ESP25_SOCKET_01") = false ∧
  DetectSpec.S5_white_range !! "min" = Some (VInt 2700) ∧
  DetectSpec.S5_white_range !! "max" = Some (VInt 5000) ∧
  devices.detect_bulb_type "ESP25_SOCKET_01" (Some DetectSpec.S5_white_range)
    = models.set_kelvin_range
        (Some (models.mkKelvinRange (VInt 2700) (VInt 5000)))
        (devices.detect_bulb_type "ESP25_SOCKET_01" None).
Proof.
  split; [reflexivity|]. split; [reflexivity|].
  split; [reflexivity|]. split; [reflexivity|].
  exact (detect_pattern_white_range "ESP25_SOCKET_01"
           DetectSpec.S5_white_range (VInt 2700) (VInt 5000)
           eq_refl eq_refl eq_refl eq_refl).
Defined.

Lemma detect_white_range_unused_witness :
  DetectShape.incomplete (Some (<["min" := VInt 2700]> ∅)) = true ∧
  devices.detect_bulb_type "ESP01_SHRGB3_01ABI"
    (Some (<["min" := VInt 2700]> ∅))
    = devices.detect_bulb_type "ESP01_SHRGB3_01ABI" None ∧
  devices._KNOWN_MODULES !! "ESP05_SHDIM_01" = None ∧
  DetectShape.unmatched (upper "ESP05_SHDIM_01") = true ∧
  devices.detect_bulb_type "ESP05_SHDIM_01" (Some DetectSpec.S5_white_range)
    = DetectShape.default_descriptor "ESP05_SHDIM_01".
Proof.
  split; [reflexivity|]. split.
  - exact (proj1 (detect_white_range_unused "ESP01_SHRGB3_01ABI"
                    (Some (<["min" := VInt 2700]> ∅))) eq_refl).
  - split; [reflexivity|]. split; [reflexivity|].
    exact (proj2 (detect_white_range_unused "ESP05_SHDIM_01"
                    (Some DetectSpec.S5_white_range)) eq_refl eq_refl).
Defined.

Lemma unknown_shrgb_detected_as_plain_rgb_witness :
  devices._KNOWN_MODULES !! "ESP99_SHRGB1C_01" = None ∧
  str_in "SHRGB" (upper "ESP99_SHRGB1C_01") = true ∧
  str_in "FANDIM" (upper "ESP99_SHRGB1C_01") = false ∧
  str_in "SOCKET" (upper "ESP99_SHRGB1C_01") = false ∧
  str_in "RGBW" (upper "ESP99_SHRGB1C_01") = false ∧
  devices.detect_bulb_type "ESP99_SHRGB1C_01" None =
    models.BulbType_init models.RGB "ESP99_SHRGB1C_01"
      (models.Features_init true true false true)
      (devices.override_kelvin None None).
Proof.
  split; [reflexivity|]. split; [reflexivity|]. split; [reflexivity|].
  split; [reflexivity|]. split; [reflexivity|].
  exact (unknown_shrgb_detected_as_plain_rgb "ESP99_SHRGB1C_01" None
           eq_refl (or_introl eq_refl) eq_refl eq_refl eq_refl).
Defined.

(** ** The power reading of the facade *)

Section FacadeFacts.
Import wizlight.

Variable float_of_str : string → option Q.

(** An integer of magnitude [2^1024] or more does not convert. *)
Lemma float_of_int_overflow z :
  2 ^ 1024 ≤ Z.abs z → float_of_int z = Raise OverflowError.
Proof.
  intros Hbig. unfold float_of_int. cbv zeta.
  set (n := Z.abs z) in *.
  assert (Hpos : 0 < n) by (pose proof (Z.pow_pos_nonneg 2 1024); lia).
  assert (Hlog : 1024 ≤ Z.log2 n).
  { rewrite <- (Z.log2_pow2 1024) by lia. by apply Z.log2_le_mono. }
  destruct (Z.log2_spec n Hpos) as [Hlo _].
  set (e := Z.log2 n - 52) in *.
  assert (He : 0 < e) by lia.
  destruct (Z.leb_spec e 0) as [?|_]; [lia|].
  assert (Hq : 2 ^ 52 ≤ Z.shiftr n e).
  { rewrite Z.shiftr_div_pow2 by lia.
    apply Z.div_le_lower_bound; [by apply Z.pow_pos_nonneg; lia|].
    rewrite <- Z.pow_add_r by lia.
    by replace (e + 52) with (Z.log2 n) by lia. }
  assert (Hn : ∀ q, Z.shiftr n e ≤ q → 2 ^ 1024 ≤ Z.shiftl q e).
  { intros q Hle. rewrite Z.shiftl_mul_pow2 by lia.
    assert (2 ^ 1024 ≤ 2 ^ 52 * 2 ^ e).
    { rewrite <- Z.pow_add_r by lia. apply Z.pow_le_mono_r; lia. }
    assert (0 < 2 ^ e) by (apply Z.pow_pos_nonneg; lia).
    nia. }
  match goal with
  | |- (if 2 ^ 1024 <=? Z.shiftl ?q e then _ else _) = _ =>
      assert (Hle : Z.shiftr n e ≤ q) by (destruct (_ || _); lia);
      specialize (Hn q Hle)
  end.
  by destruct (Z.leb_spec (2 ^ 1024)
                 (Z.shiftl (if (Z.shiftl 1 (e - 1) <? Z.land n (Z.ones e))
                               || (Z.shiftl 1 (e - 1) =? Z.land n (Z.ones e))
                                  && Z.odd (Z.shiftr n e)
                            then Z.shiftr n e + 1 else Z.shiftr n e) e));
    [|lia].
Qed.

(** X23.  How [wizlight.get_power] ends.  A [BaseException] that leaves
    [_send] leaves [get_power] too, with [power_monitoring] untouched; in
    every other case the call returns, an exception of [_send], of the
    look-ups or of [float] included, and [power_monitoring] is then set,
    to [True] exactly when a reading is returned.  A [w] that [float]
    converts is returned as that float, zero included; an integer [w] too
    large for a float gives [None]. *)
Theorem facade_get_power power_monitoring _send :
  (∀ name, _send = Interrupted name →
     get_power float_of_str power_monitoring _send
       = (power_monitoring, Escaped name)) ∧
  ((∀ name, _send ≠ Interrupted name) →
     ∃ watts,
       get_power float_of_str power_monitoring _send
         = (Some (bool_decide (is_Some watts)), Returned watts)) ∧
  (∀ response result watts q,
     _send = Responds response →
     response !! "result" = Some (VDict result) →
     result !! "w" = Some watts →
     py_float float_of_str watts = Ok q →
     get_power float_of_str power_monitoring _send
       = (Some true, Returned (Some q))) ∧
  (∀ response result z,
     _send = Responds response →
     response !! "result" = Some (VDict result) →
     result !! "w" = Some (VInt z) →
     2 ^ 1024 ≤ Z.abs z →
     get_power float_of_str power_monitoring _send
       = (Some false, Returned None)).
Proof.
  split; [by intros name ->|]. split; [|split].
  - intros Hno. unfold get_power.
    destruct _send as [response|e|name]; [|by exists None|by destruct (Hno name)].
    destruct (dict_get response "result" (VDict ∅)) as [| | | | | |result];
      try (by exists None).
    destruct (is_None (dict_get result "w" VNone)); [by exists None|].
    cbn [negb].
    destruct (py_float float_of_str (dict_get result "w" VNone)) as [q|e];
      [by exists (Some q)|by exists None].
  - intros response result watts q -> Hres Hw Hq.
    unfold get_power, dict_get. rewrite Hres, Hw.
    assert (Hn : is_None watts = false) by (by destruct watts).
    rewrite Hn. cbn [negb]. by rewrite Hq.
  - intros response result z -> Hres Hw Hbig.
    unfold get_power, dict_get. rewrite Hres, Hw. cbn [is_None negb py_float].
    by rewrite (float_of_int_overflow z Hbig).
Qed.

End FacadeFacts.

Lemma facade_get_power_witness :
  (<["result" := VDict (<["w" := VInt 0]> ∅)]> ∅ : gmap string value)
    !! "result" = Some (VDict (<["w" := VInt 0]> ∅)) ∧
  (<["w" := VInt 0]> ∅ : gmap string value) !! "w" = Some (VInt 0) ∧
  py_float (λ _, None) (VInt 0) = Ok 0%Q ∧
  wizlight.get_power (λ _, None) None
    (wizlight.Responds (<["result" := VDict (<["w" := VInt 0]> ∅)]> ∅))
    = (Some true, wizlight.Returned (Some 0%Q)) ∧
  wizlight.get_power (λ _, None) (Some true)
    (wizlight.Interrupted "CancelledError")
    = (Some true, wizlight.Escaped "CancelledError").
Proof.
  split; [reflexivity|]. split; [reflexivity|]. split; [reflexivity|].
  split.
  - exact (proj1 (proj2 (proj2 (facade_get_power (λ _, None) None
                    (wizlight.Responds
                       (<["result" := VDict (<["w" := VInt 0]> ∅)]> ∅)))))
             (<["result" := VDict (<["w" := VInt 0]> ∅)]> ∅)
             (<["w" := VInt 0]> ∅) (VInt 0) 0%Q
             eq_refl eq_refl eq_refl eq_refl).
  - exact (proj1 (facade_get_power (λ _, None) (Some true)
                    (wizlight.Interrupted "CancelledError"))
             "CancelledError" eq_refl).
Defined.
